(** * Photolala account deletion: a shallow embedding of
      [aws/lambda/deletion/handler.py]

    The handler talks to an object store (S3) and to its bulk-job
    service (S3 Batch Operations).  Both are modelled by an explicit
    [World]: the stored objects in listing order, the registered jobs
    and the trace of every request issued so far.  Requests may fail;
    which request fails, and with which exception, is decided by a
    [Provider] oracle indexed by the number of requests already made.
    Python exceptions are the [Raise] outcome of a state-and-error
    monad [M]; [try ... except Exception] is [try_catch].  Logging has
    no observable effect and is left out.

    What is taken from outside the handler: the store lists keys in the
    order of [objects]; a paginator yields pages of at most 1000 keys,
    each fetched by a request of its own; the client checks the
    parameters of a request before it sends it; the trigger event
    carries strings; the clock and the library parsers and printers
    ([json], [datetime]) are the fields of a [Runtime].

    A Python [str] (a key, a user id, an id of a job) is a [string]
    with one character per code point, and a [bytes] value (the body of
    an object) a [string] with one character per byte.  The text decoded
    from a body may hold any code point and is a list of code points. *)

From Stdlib Require Import String Ascii List NArith ZArith Lia Bool Arith.
From Stdlib Require Import DecimalString.
Import ListNotations.
Open Scope string_scope.
Set Warnings "-register-all".

(** ** Python string operations used by the handler *)

Module PyStr.

(** [s.startswith(p)], written [startswith p s]. *)
Definition startswith (p s : string) : bool := String.prefix p s.

(** [needle in hay]. *)
Fixpoint contains (needle hay : string) : bool :=
  String.prefix needle hay
  || match hay with
     | EmptyString => false
     | String _ rest => contains needle rest
     end.

Fixpoint lstrip_by (f : ascii -> bool) (s : string) : string :=
  match s with
  | EmptyString => EmptyString
  | String c rest => if f c then lstrip_by f rest else s
  end.

Fixpoint rstrip_by (f : ascii -> bool) (s : string) : string :=
  match s with
  | EmptyString => EmptyString
  | String c rest =>
      match rstrip_by f rest with
      | EmptyString => if f c then EmptyString else String c EmptyString
      | r => String c r
      end
  end.

Definition strip_by (f : ascii -> bool) (s : string) : string :=
  rstrip_by f (lstrip_by f s).

(** The double-quote character. *)
Definition dquote : ascii := ascii_of_nat 34.

(** [s.strip(c)] for the one-character string made of the double quote. *)
Definition strip_quotes (s : string) : string :=
  strip_by (fun c => Ascii.eqb c dquote) s.

(** The text after the last occurrence of [sep], if [sep] occurs. *)
Fixpoint after_last (sep : ascii) (s : string) : option string :=
  match s with
  | EmptyString => None
  | String c rest =>
      match after_last sep rest with
      | Some r => Some r
      | None => if Ascii.eqb c sep then Some rest else None
      end
  end.

(** [s.split('/')[-1]] *)
Definition last_segment (s : string) : string :=
  match after_last "/"%char s with
  | Some r => r
  | None => s
  end.

Fixpoint drop (n : nat) (s : string) : string :=
  match n, s with
  | O, _ => s
  | S _, EmptyString => EmptyString
  | S m, String _ rest => drop m rest
  end.

Fixpoint replace_fuel (fuel : nat) (old new s : string) : string :=
  match fuel with
  | O => s
  | S fuel' =>
      if String.prefix old s
      then new ++ replace_fuel fuel' old new (drop (String.length old) s)
      else match s with
           | EmptyString => EmptyString
           | String c rest => String c (replace_fuel fuel' old new rest)
           end
  end.

(** [s.replace(old, new)] for a non-empty [old]: every occurrence,
    left to right, without overlap. *)
Definition replace (old new s : string) : string :=
  replace_fuel (String.length s) old new s.

(** [c in s] for a character. *)
Fixpoint has_char (c : ascii) (s : string) : bool :=
  match s with
  | EmptyString => false
  | String c' rest => Ascii.eqb c' c || has_char c rest
  end.


(** [str(n)] for an integer. *)
Definition str_of_Z (n : Z) : string := NilZero.string_of_int (Z.to_int n).

(** *** Decoded text *)

(** A decoded text: its code points. *)
Definition text : Type := list N.

(** The code points of a [str]. *)
Definition code_points (s : string) : text :=
  map N_of_ascii (list_ascii_of_string s).

(** [a == b] for two texts. *)
Fixpoint text_eqb (a b : text) : bool :=
  match a, b with
  | [], [] => true
  | x :: a', y :: b' => N.eqb x y && text_eqb a' b'
  | _, _ => false
  end.

(** [c.isspace()] for one code point: the characters [str.strip()]
    removes. *)
Definition isspace (c : N) : bool :=
  (((9 <=? c) && (c <=? 13))
   || ((28 <=? c) && (c <=? 32))
   || (c =? 133) || (c =? 160) || (c =? 5760)
   || ((8192 <=? c) && (c <=? 8202))
   || (c =? 8232) || (c =? 8233) || (c =? 8239) || (c =? 8287)
   || (c =? 12288))%N.

Fixpoint lstrip (t : text) : text :=
  match t with
  | [] => []
  | c :: rest => if isspace c then lstrip rest else t
  end.

Fixpoint rstrip (t : text) : text :=
  match t with
  | [] => []
  | c :: rest =>
      match rstrip rest with
      | [] => if isspace c then [] else [c]
      | r => c :: r
      end
  end.

(** [t.strip()] *)
Definition strip (t : text) : text := rstrip (lstrip t).

(** A continuation byte of UTF-8 between [lo] and [hi]. *)
Definition in_range (lo hi b : N) : bool := ((lo <=? b) && (b <=? hi))%N.

(** [body.decode('utf-8')], [None] when the bytes are not valid UTF-8:
    shortest forms only, no surrogates, nothing above U+10FFFF. *)
Fixpoint utf8_decode (body : string) : option text :=
  match body with
  | EmptyString => Some []
  | String c0 r0 =>
      let b0 := N_of_ascii c0 in
      if b0 <? 128 then option_map (cons b0) (utf8_decode r0)
      else if in_range 194 223 b0 then
        match r0 with
        | String c1 r1 =>
            let b1 := N_of_ascii c1 in
            if in_range 128 191 b1
            then option_map (cons ((b0 - 192) * 64 + (b1 - 128)))
                   (utf8_decode r1)
            else None
        | _ => None
        end
      else if in_range 224 239 b0 then
        match r0 with
        | String c1 (String c2 r2) =>
            let b1 := N_of_ascii c1 in
            let b2 := N_of_ascii c2 in
            if in_range (if b0 =? 224 then 160 else 128)
                        (if b0 =? 237 then 159 else 191) b1
               && in_range 128 191 b2
            then option_map
                   (cons ((b0 - 224) * 4096 + (b1 - 128) * 64 + (b2 - 128)))
                   (utf8_decode r2)
            else None
        | _ => None
        end
      else if in_range 240 244 b0 then
        match r0 with
        | String c1 (String c2 (String c3 r3)) =>
            let b1 := N_of_ascii c1 in
            let b2 := N_of_ascii c2 in
            let b3 := N_of_ascii c3 in
            if in_range (if b0 =? 240 then 144 else 128)
                        (if b0 =? 244 then 143 else 191) b1
               && in_range 128 191 b2 && in_range 128 191 b3
            then option_map
                   (cons ((b0 - 240) * 262144 + (b1 - 128) * 4096
                          + (b2 - 128) * 64 + (b3 - 128)))
                   (utf8_decode r3)
            else None
        | _ => None
        end
      else None
  end%N.

End PyStr.

(** ** Python sequence operations *)

(** [range(start, stop, step)] for a positive step. *)
Fixpoint range_fuel (fuel start stop step : nat) : list nat :=
  match fuel with
  | O => []
  | S fuel' =>
      if (start <? stop)%nat
      then start :: range_fuel fuel' (start + step) stop step
      else []
  end.

Definition py_range (start stop step : nat) : list nat :=
  range_fuel stop start stop step.

(** [l[i:j]] *)
Definition slice {A : Type} (l : list A) (i j : nat) : list A :=
  firstn (j - i) (skipn i l).

(** [[l[i:i + n] for i in range(0, len(l), n)]] *)
Definition batches_of {A : Type} (n : nat) (l : list A) : list (list A) :=
  map (fun i => slice l i (i + n)) (py_range 0 (length l) n).

(** The most keys one multi-object delete request may name. *)
Definition DELETE_BATCH : nat := 1000.

(** ** JSON-like values: what the handler returns *)

Inductive value : Type :=
| VNone
| VInt (n : Z)
| VStr (s : string)
| VList (l : list value)
| VDict (d : list (string * value)).

Definition dict : Type := list (string * value).

Fixpoint assoc {B : Type} (k : string) (d : list (string * B)) : option B :=
  match d with
  | [] => None
  | (k', v) :: rest => if String.eqb k k' then Some v else assoc k rest
  end.

(** [d.get(k)] *)
Definition dict_get (k : string) (d : dict) : option value := assoc k d.

(** [d[k] = v]: an existing key keeps its place, a new one goes last. *)
Fixpoint assoc_set {B : Type} (k : string) (v : B) (d : list (string * B))
  : list (string * B) :=
  match d with
  | [] => [(k, v)]
  | (k', v') :: rest =>
      if String.eqb k k' then (k, v) :: rest else (k', v') :: assoc_set k v rest
  end.

(** [{**d1, **d2}] *)
Definition dict_merge (d1 d2 : dict) : dict :=
  fold_left (fun acc kv => assoc_set (fst kv) (snd kv) acc) d2 d1.

(** ** Exceptions *)

Inductive exn_class : Type :=
| ClientError            (* an error answer of a service *)
| ParamValidationError   (* parameters the client refuses to send *)
| AttributeError         (* a name an object does not have *)
| PythonError.           (* KeyError, ValueError, UnicodeDecodeError, ... *)

Record exn : Type := Exn { exn_kind : exn_class; exn_str : string }.

(** ** The object store and the bulk-job service *)

Record Progress : Type := {
  TotalNumberOfTasks : option Z;
  NumberOfTasksSucceeded : option Z;
  NumberOfTasksFailed : option Z
}.

(** The ['Job'] entry of a [describe_job] response; [CreationTime] holds
    the timestamp's [isoformat()] text. *)
Record Job : Type := {
  Status : string;
  CreationTime : option string;
  Priority : option Z;
  ProgressSummary : option Progress
}.

(** The arguments of [s3control.create_job]: [Operation] is the key of
    the one-entry dictionary passed as [Operation], the others the
    arguments that vary. *)
Record JobRequest : Type := {
  Operation : string;
  ManifestObjectArn : string;
  ManifestETag : string;
  ReportBucket : string;
  ReportPrefix : string;
  RoleArn : string;
  Tags : list (string * string);
  Description : string
}.

Inductive Call : Type :=
| ListObjectsV2 (prefix : string) (page : nat)
| GetObject (key : string)
| PutObject (key body : string)
| HeadObject (key : string)
| DeleteObject (key : string)
| DeleteObjects (keys : list string)
| CreateJob (req : JobRequest)
| DescribeJob (job_id : string).

(** [objects] lists the bucket in the order the store lists it;
    [trace] holds the requests made so far, the latest first. *)
Record World : Type := {
  objects : list (string * string);
  jobs : list (string * Job);
  trace : list Call
}.

(** How the client and the services answer.  [service_fault n c] is
    the exception a service raises for request [c] when it is the
    [n]-th request, if it fails it as a whole; [key_error n k] says that
    key [k] comes back under ['Errors'] in the multi-object delete that
    is the [n]-th request; [absent c] is the exception for a request
    that names an object or a job that does not exist; [rejection req]
    is the exception with which the client refuses to send a
    [create_job] whose parameters it finds invalid; and
    [no_exception_class name] is the exception raised by looking up
    [name] in a client's [exceptions] when it defines no such class. *)
Record Provider : Type := {
  service_fault : nat -> Call -> option exn;
  key_error : nat -> string -> bool;
  etag_of : string -> string;
  job_id_of : nat -> string;
  absent : Call -> exn;
  rejection : JobRequest -> exn;
  no_exception_class : string -> exn
}.

(** The operations a bulk job can be created for: the members of the
    [JobOperation] structure of the service's interface.  Deleting
    objects is not one of them. *)
Definition JOB_OPERATIONS : list string :=
  ["LambdaInvoke"; "S3PutObjectCopy"; "S3PutObjectAcl"; "S3PutObjectTagging";
   "S3DeleteObjectTagging"; "S3InitiateRestoreObject"; "S3PutObjectLegalHold";
   "S3PutObjectRetention"; "S3ReplicateObject"; "S3ComputeObjectChecksum"].

(** [fault p n c] is the exception raised by request [c] when it is the
    [n]-th request, if it fails as a whole.  The client validates the
    parameters first: a [create_job] for an operation the interface does
    not define is refused, whatever the service would answer.  Any other
    request fails when the service fails it. *)
Definition fault (p : Provider) (n : nat) (c : Call) : option exn :=
  match c with
  | CreateJob req =>
      if existsb (String.eqb (Operation req)) JOB_OPERATIONS
      then service_fault p n c
      else Some (rejection p req)
  | _ => service_fault p n c
  end.
Arguments fault : simpl never.

(** Module-level configuration of the handler. *)
Record Config : Type := {
  ENVIRONMENT : string;
  BUCKET_NAME : string;
  DELETION_THRESHOLD : Z;
  ACCOUNT_ID : string
}.

(** Values obtained from the Python runtime: the clock, and the
    library parsers and printers the handler calls. *)
Record Runtime : Type := {
  utcnow_stamp : string;          (* utcnow().strftime('%Y%m%d-%H%M%S') *)
  utcnow_iso : string;            (* utcnow().isoformat() *)
  now : Z;                        (* datetime.now(timezone.utc) *)
  date_key : string;              (* now.strftime('%Y-%m-%d') *)
  parse_delete_on : string -> exn + Z;
      (* fromisoformat(json.loads(body)['deleteOn'].replace('Z', '+00:00')) *)
  decode_error : string -> exn;   (* the error of body.decode('utf-8') *)
  json_dumps : value -> string
}.

(** The environment a deployment gets when nothing is configured. *)
Definition BUCKET_MAPPING : list (string * string) :=
  [("development", "photolala-dev");
   ("staging", "photolala-stage");
   ("production", "photolala-prod")].

Definition default_config (environment account : string) : Config :=
  {| ENVIRONMENT := environment;
     BUCKET_NAME := match assoc environment BUCKET_MAPPING with
                    | Some b => b
                    | None => "photolala-dev"
                    end;
     DELETION_THRESHOLD := 1000;
     ACCOUNT_ID := account |}.

(** ** The state-and-error monad *)

Inductive Res (A : Type) : Type :=
| Ok (a : A)
| Raise (e : exn).
Arguments Ok {A} a.
Arguments Raise {A} e.

Definition M (A : Type) : Type := World -> Res A * World.

Definition ret {A : Type} (a : A) : M A := fun w => (Ok a, w).

Definition raise {A : Type} (e : exn) : M A := fun w => (Raise e, w).

Definition bind {A B : Type} (m : M A) (k : A -> M B) : M B :=
  fun w =>
    match m w with
    | (Ok a, w') => k a w'
    | (Raise e, w') => (Raise e, w')
    end.

(** [try: m  except Exception as e: h e] *)
Definition try_catch {A : Type} (m : M A) (h : exn -> M A) : M A :=
  fun w =>
    match m w with
    | (Ok a, w') => (Ok a, w')
    | (Raise e, w') => h e w'
    end.

Declare Scope monad_scope.
Delimit Scope monad_scope with monad.
Notation "x <- m ;; k" := (bind m (fun x => k))
  (at level 61, m at next level, right associativity) : monad_scope.
Notation "' p <- m ;; k" := (bind m (fun x => let p := x in k))
  (at level 61, p pattern, m at next level, right associativity) : monad_scope.
Notation "m ;; k" := (bind m (fun _ => k))
  (at level 61, right associativity) : monad_scope.
Open Scope monad_scope.

(** [for x in l: s = body x s] *)
Fixpoint for_each {A St : Type} (l : list A) (body : A -> St -> M St) (s : St)
  : M St :=
  match l with
  | [] => ret s
  | x :: rest => s' <- body x s ;; for_each rest body s'
  end.

(** A loop whose body may [return]: [body x] yields [true] to leave the
    enclosing function, [false] to go on. *)
Fixpoint for_each_until {A : Type} (l : list A) (body : A -> M bool) : M bool :=
  match l with
  | [] => ret false
  | x :: rest =>
      stop <- body x ;;
      if stop then ret true else for_each_until rest body
  end.

(** ** Store operations *)

Definition inventory : Type := list (string * list string).

Definition newline : string := String (ascii_of_nat 10) EmptyString.

(** The keys under [prefix], in listing order. *)
Definition list_keys (prefix : string) (objs : list (string * string)) : list string :=
  filter (PyStr.startswith prefix) (map fst objs).

Definition remove_keys (ks : list string) (objs : list (string * string))
  : list (string * string) :=
  filter (fun kv => negb (existsb (String.eqb (fst kv)) ks)) objs.

Definition remove_key (k : string) (objs : list (string * string))
  : list (string * string) :=
  remove_keys [k] objs.

(** Writing a key: an existing object is replaced where it stands, a
    new one takes its place in key order. *)
Fixpoint store_put (k v : string) (objs : list (string * string))
  : list (string * string) :=
  match objs with
  | [] => [(k, v)]
  | (k', v') :: rest =>
      if String.eqb k k' then (k, v) :: rest
      else if String.ltb k k' then (k, v) :: objs
      else (k', v') :: store_put k v rest
  end.

(** The store returns at most this many keys per listing page, and
    accepts at most this many keys per multi-object delete. *)
Definition PAGE_SIZE : nat := 1000.

(** The pages a paginator yields for a listing: one page without
    ['Contents'] when nothing matches. *)
Definition pages_of (keys : list string) : list (list string) :=
  match keys with
  | [] => [[]]
  | _ => batches_of PAGE_SIZE keys
  end.

(** ['Contents' in page] *)
Definition has_contents (page : list string) : bool :=
  match page with
  | [] => false
  | _ => true
  end.

(** The trigger event: [event.get('type')], [event.get('userId')],
    [event.get('jobId')]. *)
Record Event : Type := {
  ev_type : option string;
  ev_userId : option string;
  ev_jobId : option string
}.


(** ** Concrete deployments and bucket contents used in the examples *)

Module Scenario.

(** A provider whose requests all succeed. *)
Definition reliable : Provider :=
  {| service_fault := fun _ _ => None;
     key_error := fun _ _ => false;
     etag_of := fun body =>
       String PyStr.dquote ("md5-" ++ PyStr.str_of_Z (Z.of_nat (String.length body)))
       ++ String PyStr.dquote "";
     job_id_of := fun n => "job-" ++ PyStr.str_of_Z (Z.of_nat n);
     absent := fun c =>
       match c with
       | DescribeJob _ =>
           Exn ClientError "An error occurred (NoSuchJob) when calling the DescribeJob operation"
       | HeadObject _ =>
           Exn ClientError "An error occurred (404) when calling the HeadObject operation: Not Found"
       | _ =>
           Exn ClientError "An error occurred (NoSuchKey) when calling the GetObject operation: The specified key does not exist."
       end;
     rejection := fun req =>
       Exn ParamValidationError
         ("Parameter validation failed: Unknown parameter in Operation: "
          ++ Operation req);
     no_exception_class := fun name =>
       Exn AttributeError ("S3ControlExceptions object has no attribute " ++ name) |}.

(** A provider that fails every request matching [bad]. *)
Definition failing (bad : Call -> bool) (e : exn) : Provider :=
  {| service_fault := fun _ c => if bad c then Some e else None;
     key_error := fun _ _ => false;
     etag_of := etag_of reliable;
     job_id_of := job_id_of reliable;
     absent := absent reliable;
     rejection := rejection reliable;
     no_exception_class := no_exception_class reliable |}.

Definition boom : exn := Exn ClientError "An error occurred (SlowDown)".

(** A runtime whose clock stands at instant 1000; a scheduled-deletion
    body is read as the decimal instant it spells, here only the two
    bodies the examples use. *)
Definition runtime : Runtime :=
  {| utcnow_stamp := "20250101-000000";
     utcnow_iso := "2025-01-01T00:00:00";
     now := 1000;
     date_key := "2025-01-01";
     parse_delete_on := fun body =>
       if String.eqb body "due" then inr 900%Z
       else if String.eqb body "later" then inr 1100%Z
       else inl (Exn PythonError "Expecting value");
     decode_error := fun _ => Exn PythonError "'utf-8' codec can't decode bytes";
     json_dumps := fun _ => "{}" |}.

Definition development : Config := default_config "development" "123456789012".
Definition production : Config := default_config "production" "123456789012".

Definition with_threshold (threshold : Z) : Config :=
  {| ENVIRONMENT := "development"; BUCKET_NAME := "photolala-dev";
     DELETION_THRESHOLD := threshold; ACCOUNT_ID := "123456789012" |}.

Definition bucket (objs : list (string * string)) : World :=
  {| objects := objs; jobs := []; trace := [] |}.

(** [n] photos of user [u1]. *)
Definition photos (n : nat) : list (string * string) :=
  map (fun i => ("photos/u1/" ++ PyStr.str_of_Z (10000 + Z.of_nat i), "jpeg"))
      (seq 0 n).

Definition immediate (user_id : string) : Event :=
  {| ev_type := Some "immediate"; ev_userId := Some user_id; ev_jobId := None |}.

Definition status (job_id : string) : Event :=
  {| ev_type := Some "status"; ev_userId := None; ev_jobId := Some job_id |}.

(** Two photos and one thumbnail of [u1]. *)
Definition small_account : World :=
  bucket [("photos/u1/a.jpg", "jpeg"); ("photos/u1/b.jpg", "jpeg");
          ("thumbnails/u1/a.jpg", "jpeg")].

Definition is_listing_of (prefix : string) (c : Call) : bool :=
  match c with
  | ListObjectsV2 p _ => String.eqb p prefix
  | _ => false
  end.

(** A multi-object delete naming fewer than 1000 keys. *)
Definition is_short_batch (c : Call) : bool :=
  match c with
  | DeleteObjects ks => (length ks <? 1000)%nat
  | _ => false
  end.

(** User [u9] has no object left, but an identity mapping and a
    scheduled-deletion entry; user [u7] has a photo and a mapping. *)
Definition leftover_records : World :=
  bucket [("identities/apple:000123", "u9");
          ("identities/google:777", "u7");
          ("photos/u7/x.jpg", "jpeg");
          ("scheduled-deletions/2025-01-01/u9.json", "due")].


(** The sweep scenario: under today's bucket, [u1] is due and [u2] is
    not yet due. *)
Definition two_entries : World :=
  bucket [("scheduled-deletions/2025-01-01/u1.json", "due");
          ("scheduled-deletions/2025-01-01/u2.json", "later")].

(** Users with numeric ids: [00] is not yet due, [01] is due; the id
    [01] also occurs in the date of today's bucket. *)
Definition numeric_ids : World :=
  bucket [("scheduled-deletions/2025-01-01/00.json", "later");
          ("scheduled-deletions/2025-01-01/01.json", "due")].




Definition is_batch_delete (c : Call) : bool :=
  match c with
  | DeleteObjects _ => true
  | _ => false
  end.

(** The result a run returned, empty when it raised. *)
Definition returned (out : Res dict * World) : dict :=
  match fst out with
  | Ok result => result
  | Raise _ => []
  end.

End Scenario.
Section Handler.

Variable cfg : Config.
Variable prov : Provider.
Variable rt : Runtime.

(** *** Requests to the services *)

(** Issue request [c]: it is recorded in the trace whether or not it
    succeeds; the result is its number. *)
Definition request (c : Call) : M nat :=
  fun w =>
    let n := length (trace w) in
    let w' := {| objects := objects w; jobs := jobs w; trace := c :: trace w |} in
    match fault prov n c with
    | Some e => (Raise e, w')
    | None => (Ok n, w')
    end.

Definition update_objects (f : list (string * string) -> list (string * string))
  : M unit :=
  fun w => (Ok tt, {| objects := f (objects w); jobs := jobs w; trace := trace w |}).

(** [s3.get_object(Bucket=BUCKET_NAME, Key=key)['Body'].read()] *)
Definition get_object (key : string) : M string :=
  _ <- request (GetObject key) ;;
  fun w =>
    match assoc key (objects w) with
    | Some body => (Ok body, w)
    | None => (Raise (absent prov (GetObject key)), w)
    end.

(** [s3.put_object(Bucket=BUCKET_NAME, Key=key, Body=body)] *)
Definition put_object (key body : string) : M unit :=
  _ <- request (PutObject key body) ;;
  update_objects (store_put key body).

(** [s3.head_object(Bucket=BUCKET_NAME, Key=key)['ETag']] *)
Definition head_object (key : string) : M string :=
  _ <- request (HeadObject key) ;;
  fun w =>
    match assoc key (objects w) with
    | Some body => (Ok (etag_of prov body), w)
    | None => (Raise (absent prov (HeadObject key)), w)
    end.

(** [s3.delete_object(Bucket=BUCKET_NAME, Key=key)]: deleting an
    absent key is not an error. *)
Definition delete_object (key : string) : M unit :=
  _ <- request (DeleteObject key) ;;
  update_objects (remove_key key).

(** [s3.delete_objects(...)]: the response's ['Deleted'] and ['Errors']
    key lists. *)
Definition delete_objects (keys : list string) : M (list string * list string) :=
  n <- request (DeleteObjects keys) ;;
  let deleted := filter (fun k => negb (key_error prov n k)) keys in
  let errors := filter (key_error prov n) keys in
  _ <- update_objects (remove_keys deleted) ;;
  ret (deleted, errors).

(** [s3control.create_job(...)['JobId']].  The client refuses a request
    whose [Operation] the interface does not define (see [fault]); the
    job is registered only when the request goes through. *)
Definition create_job (req : JobRequest) : M string :=
  n <- request (CreateJob req) ;;
  let job_id := job_id_of prov n in
  fun w =>
    (Ok job_id,
     {| objects := objects w;
        jobs := assoc_set job_id
                  {| Status := "New"; CreationTime := Some (utcnow_iso rt);
                     Priority := Some 10%Z; ProgressSummary := None |}
                  (jobs w);
        trace := trace w |}).

(** [s3control.describe_job(AccountId=ACCOUNT_ID, JobId=job_id)['Job']] *)
Definition describe_job (job_id : string) : M Job :=
  _ <- request (DescribeJob job_id) ;;
  fun w =>
    match assoc job_id (jobs w) with
    | Some job => (Ok job, w)
    | None => (Raise (absent prov (DescribeJob job_id)), w)
    end.

(** [s3.list_objects_v2(Bucket=BUCKET_NAME, Prefix=prefix)]: one page. *)
Definition list_objects_v2 (prefix : string) : M (list string) :=
  _ <- request (ListObjectsV2 prefix 0) ;;
  fun w => (Ok (firstn PAGE_SIZE (list_keys prefix (objects w))), w).

(** [for page in paginator.paginate(Bucket=BUCKET_NAME, Prefix=prefix)].
    Pages are fetched one by one, each fetch a request of its own.  The
    keys are those present when the loop starts: the store resumes a
    listing after the last key returned, and the loops below delete
    only keys they have already been given. *)
Fixpoint fetch_pages {St : Type} (prefix : string) (i : nat)
    (pages : list (list string)) (body : list string -> St -> M St) (s : St) : M St :=
  match pages with
  | [] => ret s
  | page :: rest =>
      _ <- request (ListObjectsV2 prefix i) ;;
      s' <- body page s ;;
      fetch_pages prefix (S i) rest body s'
  end.

Definition paginate {St : Type} (prefix : string)
    (body : list string -> St -> M St) (s : St) : M St :=
  fun w => fetch_pages prefix 0 (pages_of (list_keys prefix (objects w))) body s w.

Fixpoint fetch_pages_until (prefix : string) (i : nat)
    (pages : list (list string)) (body : list string -> M bool) : M bool :=
  match pages with
  | [] => ret false
  | page :: rest =>
      _ <- request (ListObjectsV2 prefix i) ;;
      stop <- body page ;;
      if stop then ret true else fetch_pages_until prefix (S i) rest body
  end.

Definition paginate_until (prefix : string) (body : list string -> M bool) : M bool :=
  fun w => fetch_pages_until prefix 0 (pages_of (list_keys prefix (objects w))) body w.

(** *** count_and_list_objects *)

Definition user_prefixes (user_id : string) : list string :=
  ["photos/" ++ user_id ++ "/";
   "thumbnails/" ++ user_id ++ "/";
   "catalogs/" ++ user_id ++ "/";
   "users/" ++ user_id ++ "/"].

Definition count_and_list_objects (user_id : string) : M (Z * inventory) :=
  for_each (user_prefixes user_id)
    (fun prefix '(total_count, objects_by_prefix) =>
       '(keys, total_count) <-
         paginate prefix
           (fun page (acc : list string * Z) =>
              if has_contents page
              then ret (fold_left
                          (fun '(keys, total_count) key =>
                             ((keys ++ [key])%list, (total_count + 1)%Z))
                          page acc)
              else ret acc)
           ([], total_count) ;;
       match keys with
       | [] => ret (total_count, objects_by_prefix)
       | _ => ret (total_count, assoc_set prefix keys objects_by_prefix)
       end)
    (0%Z, []).

(** *** perform_direct_deletion *)

Definition perform_direct_deletion (objects_by_prefix : inventory) : M Z :=
  for_each objects_by_prefix
    (fun '(prefix, keys) total_deleted =>
       for_each (py_range 0 (length keys) DELETE_BATCH)
         (fun i total_deleted =>
            let batch := slice keys i (i + DELETE_BATCH) in
            try_catch
              ('(deleted, errors) <- delete_objects batch ;;
               ret (total_deleted + Z.of_nat (length deleted))%Z)
              (fun e => ret total_deleted))
         total_deleted)
    0%Z.

(** *** create_deletion_manifest *)

Definition manifest_lines (objects_by_prefix : inventory) : list string :=
  flat_map
    (fun '(prefix, keys) => map (fun key => BUCKET_NAME cfg ++ "," ++ key) keys)
    objects_by_prefix.

Definition create_deletion_manifest (objects_by_prefix : inventory) : string :=
  String.concat newline (manifest_lines objects_by_prefix).

(** *** create_batch_operations_job *)

Definition manifest_key_of (user_id : string) : string :=
  "batch-jobs/manifests/" ++ utcnow_stamp rt ++ "/" ++ user_id ++ "-manifest.csv".

Definition report_prefix_of (user_id : string) : string :=
  "batch-jobs/reports/" ++ utcnow_stamp rt ++ "/" ++ user_id.

Definition job_request (user_id manifest_key manifest_etag : string) : JobRequest :=
  {| Operation := "S3DeleteObject";
     ManifestObjectArn := "arn:aws:s3:::" ++ BUCKET_NAME cfg ++ "/" ++ manifest_key;
     ManifestETag := manifest_etag;
     ReportBucket := "arn:aws:s3:::" ++ BUCKET_NAME cfg;
     ReportPrefix := report_prefix_of user_id;
     RoleArn := "arn:aws:iam::" ++ ACCOUNT_ID cfg ++ ":role/S3BatchOperationsRole";
     Tags := [("UserId", user_id);
              ("Type", "AccountDeletion");
              ("Environment", ENVIRONMENT cfg)];
     Description := "Delete account data for user " ++ user_id |}.

Definition create_batch_operations_job (user_id : string)
    (objects_by_prefix : inventory) : M string :=
  let manifest_key := manifest_key_of user_id in
  let manifest_content := create_deletion_manifest objects_by_prefix in
  _ <- put_object manifest_key manifest_content ;;
  etag <- head_object manifest_key ;;
  let manifest_etag := PyStr.strip_quotes etag in
  let report_prefix := report_prefix_of user_id in
  job_id <- create_job (job_request user_id manifest_key manifest_etag) ;;
  let metadata :=
    VDict [("jobId", VStr job_id);
           ("userId", VStr user_id);
           ("objectCount",
            VInt (fold_left Z.add
                    (map (fun pk => Z.of_nat (length (snd pk))) objects_by_prefix)
                    0%Z));
           ("createdAt", VStr (utcnow_iso rt));
           ("manifestKey", VStr manifest_key);
           ("reportPrefix", VStr report_prefix)] in
  _ <- put_object ("batch-jobs/metadata/" ++ job_id ++ ".json")
         (json_dumps rt metadata) ;;
  ret job_id.

(** *** get_batch_job_status *)

Definition opt_int (o : option Z) : value :=
  match o with
  | Some n => VInt n
  | None => VNone
  end.

Definition int_or_zero (o : option Z) : value :=
  match o with
  | Some n => VInt n
  | None => VInt 0
  end.

(** The first handler of the [try] names [s3control.exceptions.NoSuchJob].
    The client's [exceptions] defines no class of that name, so when
    [describe_job] raises, evaluating the handler's class raises in its
    turn; that exception leaves the function, and the second handler,
    [except Exception as e], which would return status ['Error'] with
    [str(e)], is never tried. *)
Definition get_batch_job_status (job_id : string) : M dict :=
  try_catch
    (job <- describe_job job_id ;;
     let result :=
       [("jobId", VStr job_id);
        ("status", VStr (Status job));
        ("createdAt", match CreationTime job with
                      | Some t => VStr t
                      | None => VNone
                      end);
        ("priority", opt_int (Priority job));
        ("progressSummary", VDict [])] in
     match ProgressSummary job with
     | Some progress =>
         ret (assoc_set "progressSummary"
                (VDict [("totalTasks", int_or_zero (TotalNumberOfTasks progress));
                        ("succeeded", int_or_zero (NumberOfTasksSucceeded progress));
                        ("failed", int_or_zero (NumberOfTasksFailed progress))])
                result)
     | None => ret result
     end)
    (fun e => raise (no_exception_class prov "NoSuchJob")).

(** *** remove_identity_mappings *)

(** [body.decode('utf-8')] *)
Definition decode_utf8 (body : string) : exn + PyStr.text :=
  match PyStr.utf8_decode body with
  | Some text => inr text
  | None => inl (decode_error rt body)
  end.

Definition remove_identity_mappings (user_id : string) : M unit :=
  let prefix := "identities/" in
  _ <- paginate prefix
         (fun page removed_count =>
            if negb (has_contents page) then ret removed_count
            else
              for_each page
                (fun key removed_count =>
                   if String.eqb key prefix then ret removed_count
                   else
                     try_catch
                       (body <- get_object key ;;
                        match decode_utf8 body with
                        | inl e => raise e
                        | inr text =>
                            let content := PyStr.strip text in
                            if PyStr.text_eqb content (PyStr.code_points user_id)
                            then _ <- delete_object key ;;
                                 ret (removed_count + 1)%Z
                            else ret removed_count
                        end)
                       (fun e => ret removed_count))
                removed_count)
         0%Z ;;
  ret tt.

(** *** remove_scheduled_deletion *)

Definition remove_scheduled_deletion (user_id : string) : M unit :=
  let prefix := "scheduled-deletions/" in
  _ <- paginate_until prefix
         (fun page =>
            if negb (has_contents page) then ret false
            else
              for_each_until page
                (fun key =>
                   if PyStr.contains user_id key
                   then try_catch
                          (_ <- delete_object key ;; ret true)
                          (fun e => ret false)
                   else ret false)) ;;
  ret tt.

(** *** delete_user_account *)

Definition empty_result (user_id : string) : dict :=
  [("status", VStr "completed");
   ("userId", VStr user_id);
   ("objectCount", VInt 0);
   ("method", VStr "none");
   ("message", VStr "No objects to delete")].

Definition direct_result (user_id : string) (object_count deleted_count : Z) : dict :=
  [("status", VStr "completed");
   ("userId", VStr user_id);
   ("objectCount", VInt object_count);
   ("deletedCount", VInt deleted_count);
   ("method", VStr "direct");
   ("message", VStr "Account deleted successfully")].

Definition batch_result (user_id job_id : string) (object_count : Z) : dict :=
  [("status", VStr "batch_job_created");
   ("userId", VStr user_id);
   ("jobId", VStr job_id);
   ("objectCount", VInt object_count);
   ("method", VStr "batch");
   ("message", VStr ("Batch job " ++ job_id ++ " created for "
                     ++ PyStr.str_of_Z object_count ++ " objects"))].

Definition delete_user_account (user_id : string) : M dict :=
  '(object_count, objects_by_prefix) <- count_and_list_objects user_id ;;
  if (object_count =? 0)%Z then
    _ <- remove_identity_mappings user_id ;;
    _ <- remove_scheduled_deletion user_id ;;
    ret (empty_result user_id)
  else
    _ <- try_catch
           (_ <- remove_identity_mappings user_id ;;
            remove_scheduled_deletion user_id)
           (fun e => ret tt) ;;
    if (object_count <=? DELETION_THRESHOLD cfg)%Z then
      deleted_count <- perform_direct_deletion objects_by_prefix ;;
      ret (direct_result user_id object_count deleted_count)
    else
      job_id <- create_batch_operations_job user_id objects_by_prefix ;;
      ret (batch_result user_id job_id object_count).

(** *** process_scheduled_deletions *)

Definition error_entry (user_id : string) (e : exn) : value :=
  VDict [("userId", VStr user_id);
         ("status", VStr "error");
         ("error", VStr (exn_str e))].

(** One turn of the loop over the listed entries. *)
Definition process_entry (key : string) (results : list value) : M (list value) :=
  let filename := PyStr.last_segment key in
  let user_id := PyStr.replace ".json" "" filename in
  try_catch
    (body <- get_object key ;;
     match parse_delete_on rt body with
     | inl e => raise e
     | inr delete_on =>
         if (delete_on <=? now rt)%Z then
           result <- delete_user_account user_id ;;
           ret (results ++ [VDict (dict_merge [("userId", VStr user_id)] result)])%list
         else ret results
     end)
    (fun e => ret (results ++ [error_entry user_id e])%list).

Definition process_scheduled_deletions : M dict :=
  let prefix := "scheduled-deletions/" ++ date_key rt ++ "/" in
  try_catch
    (contents <- list_objects_v2 prefix ;;
     if negb (has_contents contents) then
       ret [("processed", VInt 0);
            ("message", VStr "No scheduled deletions for today")]
     else
       results <- for_each contents process_entry [] ;;
       ret [("processed", VInt (Z.of_nat (length results)));
            ("results", VList results)])
    (fun e => ret [("processed", VInt 0); ("error", VStr (exn_str e))]).

(** *** handler *)

Definition response (status_code : Z) (body : dict) : dict :=
  [("statusCode", VInt status_code); ("body", VStr (json_dumps rt (VDict body)))].

(** [not s] for an optional string. *)
Definition falsy (s : option string) : bool :=
  match s with
  | None => true
  | Some s => String.eqb s ""
  end.

Definition handler (event : Event) : M dict :=
  try_catch
    (let action := match ev_type event with
                   | Some a => a
                   | None => "scheduled"
                   end in
     if String.eqb action "immediate" then
       if negb (String.eqb (ENVIRONMENT cfg) "development") then
         ret (response 403
                [("error", VStr "Immediate deletion only allowed in development")])
       else if falsy (ev_userId event) then
         ret (response 400 [("error", VStr "userId required")])
       else
         result <- delete_user_account
                     (match ev_userId event with Some u => u | None => "" end) ;;
         ret (response 200 result)
     else if String.eqb action "scheduled" then
       result <- process_scheduled_deletions ;;
       ret (response 200 result)
     else if String.eqb action "status" then
       if falsy (ev_jobId event) then
         ret (response 400 [("error", VStr "jobId required")])
       else
         result <- get_batch_job_status
                     (match ev_jobId event with Some j => j | None => "" end) ;;
         ret (response 200 result)
     else
       ret (response 400 [("error", VStr ("Unknown action: " ++ action))]))
    (fun e => ret (response 500 [("error", VStr (exn_str e))])).

(** ** Notions used to state the properties *)

(** The requests issued between world [w] and a later world [w'], in
    the order they were made. *)
Definition new_calls (w w' : World) : list Call :=
  rev (firstn (length (trace w') - length (trace w)) (trace w')).

(** Request [c] writes or deletes key [k]. *)
Definition touches (c : Call) (k : string) : bool :=
  match c with
  | PutObject k' _ => String.eqb k k'
  | DeleteObject k' => String.eqb k k'
  | DeleteObjects ks => existsb (String.eqb k) ks
  | _ => false
  end.

(** [m] only issues requests satisfying [P], leaves every key that none
    of its requests touches as it was, and raises only exceptions
    satisfying [E]. *)
Definition sound {A : Type} (P : Call -> Prop) (E : exn -> Prop) (m : M A) : Prop :=
  forall w, exists cs,
    trace (snd (m w)) = (rev cs ++ trace w)%list /\
    Forall P cs /\
    (forall k, Forall (fun c => touches c k = false) cs ->
               assoc k (objects (snd (m w))) = assoc k (objects w)) /\
    (forall e, fst (m w) = Raise e -> E e).

(** Any exception. *)
Definition any_exn (e : exn) : Prop := True.

(** No exception. *)
Definition no_exn (e : exn) : Prop := False.

(** The exception of a failed request satisfying [Q]. *)
Definition fault_of (Q : Call -> Prop) (e : exn) : Prop :=
  exists n c, Q c /\ fault prov n c = Some e.

(** No request is failed by a service. *)
Definition no_fault : Prop := forall n c, service_fault prov n c = None.

(** The batches [perform_direct_deletion] sends, in order. *)
Definition deletion_batches (objects_by_prefix : inventory) : list (list string) :=
  flat_map (fun pk => batches_of DELETE_BATCH (snd pk)) objects_by_prefix.

(** All keys of an inventory, in order. *)
Definition inventory_keys (objects_by_prefix : inventory) : list string :=
  concat (map snd objects_by_prefix).

(** What the scan of one prefix adds to the running total and to the
    inventory. *)
Definition scan_step (prefix : string) (keys : list string)
    (acc : Z * inventory) : Z * inventory :=
  ((fst acc + Z.of_nat (length keys))%Z,
   match keys with
   | [] => snd acc
   | _ => assoc_set prefix keys (snd acc)
   end).

(** The count and inventory of a user over a given bucket content. *)
Definition scan_result (user_id : string) (objs : list (string * string))
  : Z * inventory :=
  fold_left (fun acc prefix => scan_step prefix (list_keys prefix objs) acc)
    (user_prefixes user_id) (0%Z, []).

(** Request [c] lists one of the prefixes [ps]. *)
Definition listing_of (ps : list string) (c : Call) : Prop :=
  exists p j, In p ps /\ c = ListObjectsV2 p j.

(** The loop body of the scan over one page. *)
Definition scan_page (page : list string) (acc : list string * Z)
  : list string * Z :=
  fold_left
    (fun '(keys, total_count) key => ((keys ++ [key])%list, (total_count + 1)%Z))
    page acc.

(** The loop body of [count_and_list_objects] for one prefix. *)
Definition scan_prefix (prefix : string) (acc : Z * inventory)
  : M (Z * inventory) :=
  let '(total_count, objects_by_prefix) := acc in
  '(keys, total_count) <-
    paginate prefix
      (fun page (acc : list string * Z) =>
         if has_contents page then ret (scan_page page acc) else ret acc)
      ([], total_count) ;;
  match keys with
  | [] => ret (total_count, objects_by_prefix)
  | _ => ret (total_count, assoc_set prefix keys objects_by_prefix)
  end.

(** One turn of the inner loop of [perform_direct_deletion]. *)
Definition delete_batch (batch : list string) (total_deleted : Z) : M Z :=
  try_catch
    ('(deleted, errors) <- delete_objects batch ;;
     ret (total_deleted + Z.of_nat (length deleted))%Z)
    (fun e => ret total_deleted).

(** The number of keys the store confirms deleted when [batch] is sent
    as request number [n]. *)
Definition batch_confirmed (n : nat) (batch : list string) : Z :=
  match fault prov n (DeleteObjects batch) with
  | Some _ => 0%Z
  | None => Z.of_nat (length (filter (fun k => negb (key_error prov n k)) batch))
  end.

(** The keys of [batch] not confirmed deleted when it is sent as
    request number [n]. *)
Definition batch_failed (n : nat) (batch : list string) : list string :=
  match fault prov n (DeleteObjects batch) with
  | Some _ => batch
  | None => filter (key_error prov n) batch
  end.

Fixpoint confirmed_total (n : nat) (bs : list (list string)) : Z :=
  match bs with
  | [] => 0%Z
  | b :: rest => (batch_confirmed n b + confirmed_total (S n) rest)%Z
  end.

(** Requests the clean-up of auxiliary records may issue. *)
Definition identity_call (c : Call) : Prop :=
  match c with
  | ListObjectsV2 p _ => p = "identities/"
  | GetObject k => PyStr.startswith "identities/" k = true
  | DeleteObject k => PyStr.startswith "identities/" k = true
  | _ => False
  end.

Definition scheduled_call (user_id : string) (c : Call) : Prop :=
  match c with
  | ListObjectsV2 p _ => p = "scheduled-deletions/"
  | DeleteObject k =>
      PyStr.startswith "scheduled-deletions/" k = true
      /\ PyStr.contains user_id k = true
  | _ => False
  end.

Definition cleanup_call (user_id : string) (c : Call) : Prop :=
  identity_call c \/ scheduled_call user_id c.

(** Requests the direct deletion of an inventory may issue. *)
Definition direct_call (objects_by_prefix : inventory) (c : Call) : Prop :=
  match c with
  | DeleteObjects ks => incl ks (inventory_keys objects_by_prefix)
  | _ => False
  end.

(** Requests the bulk-job path may issue. *)
Definition bulk_call (c : Call) : Prop :=
  match c with
  | PutObject k _ => PyStr.startswith "batch-jobs/" k = true
  | HeadObject k => PyStr.startswith "batch-jobs/" k = true
  | CreateJob _ => True
  | _ => False
  end.

(** Key [k] lies in one of the user's four namespaces. *)
Definition in_user_namespace (user_id : string) (k : string) : Prop :=
  exists p, In p (user_prefixes user_id) /\ PyStr.startswith p k = true.

(** A multi-object delete naming only keys of the user's namespaces. *)
Definition user_delete_call (user_id : string) (c : Call) : Prop :=
  match c with
  | DeleteObjects ks => Forall (in_user_namespace user_id) ks
  | _ => False
  end.

(** Every request [delete_user_account] may issue. *)
Definition account_call (user_id : string) (c : Call) : Prop :=
  listing_of (user_prefixes user_id) c
  \/ cleanup_call user_id c
  \/ user_delete_call user_id c
  \/ bulk_call c.

(** The body of an identity record names [user_id]. *)
Definition maps_to (user_id : string) (body : string) : bool :=
  match decode_utf8 body with
  | inl _ => false
  | inr text => PyStr.text_eqb (PyStr.strip text) (PyStr.code_points user_id)
  end.

(** [key] holds an identity record of [user_id] in [objs]. *)
Definition identity_matches (user_id : string) (objs : list (string * string))
    (key : string) : bool :=
  negb (String.eqb key "identities/")
  && match assoc key objs with
     | Some body => maps_to user_id body
     | None => false
     end.

(** The scheduled-deletion record [remove_scheduled_deletion] picks. *)
Definition scheduled_entry (user_id : string) (objs : list (string * string))
  : option string :=
  find (PyStr.contains user_id) (list_keys "scheduled-deletions/" objs).

(** The exception of the first failing request among [cs], issued as
    requests number [n], [n + 1], ... *)
Fixpoint first_fault (n : nat) (cs : list Call) : option exn :=
  match cs with
  | [] => None
  | c :: rest =>
      match fault prov n c with
      | Some e => Some e
      | None => first_fault (S n) rest
      end
  end.

(** The exception a result carries, if any. *)
Definition raised {A : Type} (r : Res A) : option exn :=
  match r with
  | Ok _ => None
  | Raise e => Some e
  end.

(** One turn of the loop of [remove_identity_mappings] over the records
    of a page. *)
Definition identity_step (user_id key : string) (removed_count : Z) : M Z :=
  if String.eqb key "identities/" then ret removed_count
  else
    try_catch
      (body <- get_object key ;;
       match decode_utf8 body with
       | inl e => raise e
       | inr text =>
           let content := PyStr.strip text in
           if PyStr.text_eqb content (PyStr.code_points user_id)
           then _ <- delete_object key ;;
                ret (removed_count + 1)%Z
           else ret removed_count
       end)
      (fun e => ret removed_count).

(** What a fault-free pass of the identity clean-up over [keys] does
    between [w] and [w']: it removes some of these keys, each one an
    identity record of the user; afterwards none of [keys] is such a
    record; and every delete request it issued was for a removed key. *)
Definition identity_run (user_id : string) (keys : list string)
    (w w' : World) : Prop :=
  jobs w' = jobs w
  /\ exists removed cs,
       objects w' = remove_keys removed (objects w)
       /\ Forall (fun k => In k keys
                           /\ identity_matches user_id (objects w) k = true)
                 removed
       /\ (forall k, In k keys ->
                     identity_matches user_id (objects w') k = false)
       /\ trace w' = (rev cs ++ trace w)%list
       /\ (forall k, In (DeleteObject k) cs -> In k removed).

(** The clean-up of auxiliary records as [delete_user_account] runs it:
    the identity mappings, then the scheduled-deletion entry. *)
Definition cleanup_auxiliary_records (user_id : string) : M unit :=
  _ <- remove_identity_mappings user_id ;;
  remove_scheduled_deletion user_id.


(** The user id the sweep derives from the key of an entry. *)
Definition entry_user_id (key : string) : string :=
  PyStr.replace ".json" "" (PyStr.last_segment key).

(** The entries the sweep is given: the first page of today's bucket. *)
Definition todays_entries (objs : list (string * string)) : list string :=
  firstn PAGE_SIZE
    (list_keys ("scheduled-deletions/" ++ date_key rt ++ "/") objs).

(** Requests handling one entry may issue. *)
Definition entry_call (key : string) (c : Call) : Prop :=
  c = GetObject key \/ account_call (entry_user_id key) c.

(** The listing requests of one prefix over bucket content [objs]: one
    per page the paginator yields. *)
Definition prefix_requests (objs : list (string * string)) (prefix : string)
  : list Call :=
  map (ListObjectsV2 prefix)
      (seq 0 (length (pages_of (list_keys prefix objs)))).

(** The listing requests a complete scan of [user_id] makes over bucket
    content [objs], in order. *)
Definition scan_requests (user_id : string) (objs : list (string * string))
  : list Call :=
  flat_map (prefix_requests objs) (user_prefixes user_id).

(** What is issued of the requests [cs], attempted in order as requests
    number [n], [n + 1], ...: the requests up to and including the
    first that fails, and nothing after it. *)
Fixpoint issued_until_fault (n : nat) (cs : list Call) : list Call :=
  match cs with
  | [] => []
  | c :: rest =>
      match fault prov n c with
      | Some _ => [c]
      | None => c :: issued_until_fault (S n) rest
      end
  end.

(** ** Further notions, for the remaining properties *)

(** [event.get('type', 'scheduled')] *)
Definition event_action (event : Event) : string :=
  match ev_type event with
  | Some a => a
  | None => "scheduled"
  end.

(** [event.get('userId')] or [event.get('jobId')] once known to be truthy. *)
Definition field_text (field : option string) : string :=
  match field with
  | Some s => s
  | None => ""
  end.

(** No key comes back under ['Errors'] in a multi-object delete. *)
Definition no_key_error : Prop := forall n k, key_error prov n k = false.

(** No multi-object delete fails as a whole. *)
Definition deletes_succeed : Prop :=
  forall n keys, fault prov n (DeleteObjects keys) = None.

(** The keys the store confirms deleted when [batch] is sent as request
    number [n]: none when the request fails, else the keys without a
    per-key error. *)
Definition batch_deleted (n : nat) (batch : list string) : list string :=
  match fault prov n (DeleteObjects batch) with
  | Some _ => []
  | None => filter (fun k => negb (key_error prov n k)) batch
  end.

(** The keys confirmed deleted when the batches [bs] are sent as
    requests number [n], [n + 1], ... *)
Fixpoint confirmed_keys (n : nat) (bs : list (list string)) : list string :=
  match bs with
  | [] => []
  | b :: rest => (batch_deleted n b ++ confirmed_keys (S n) rest)%list
  end.

(** The tracking record [create_batch_operations_job] stores for a job. *)
Definition job_metadata (user_id job_id : string)
    (objects_by_prefix : inventory) : value :=
  VDict [("jobId", VStr job_id);
         ("userId", VStr user_id);
         ("objectCount",
          VInt (fold_left Z.add
                  (map (fun pk => Z.of_nat (length (snd pk))) objects_by_prefix)
                  0%Z));
         ("createdAt", VStr (utcnow_iso rt));
         ("manifestKey", VStr (manifest_key_of user_id));
         ("reportPrefix", VStr (report_prefix_of user_id))].

(** The four requests of [create_batch_operations_job], when the job
    is given the id [job_id]. *)
Definition bulk_requests (user_id job_id : string)
    (objects_by_prefix : inventory) : list Call :=
  [PutObject (manifest_key_of user_id)
     (create_deletion_manifest objects_by_prefix);
   HeadObject (manifest_key_of user_id);
   CreateJob
     (job_request user_id (manifest_key_of user_id)
        (PyStr.strip_quotes
           (etag_of prov (create_deletion_manifest objects_by_prefix))));
   PutObject ("batch-jobs/metadata/" ++ job_id ++ ".json")
     (json_dumps rt (job_metadata user_id job_id objects_by_prefix))].

(** Between [w] and [w'] only keys among [keys] that satisfy [matches]
    were removed from the bucket, and nothing else changed in it. *)
Definition removes_only (matches : string -> bool) (keys : list string)
    (w w' : World) : Prop :=
  jobs w' = jobs w
  /\ exists removed,
       objects w' = remove_keys removed (objects w)
       /\ Forall (fun k => In k keys /\ matches k = true) removed.

(** The loop body of [remove_scheduled_deletion] for one record. *)
Definition scheduled_step (user_id key : string) : M bool :=
  if PyStr.contains user_id key
  then try_catch
         (_ <- delete_object key ;; ret true)
         (fun e => ret false)
  else ret false.

(** * Properties *)

(** ** Lists: ranges, slices and batches *)

Lemma range_fuel_slices {A : Type} (l : list A) (n : nat) :
  0 < n ->
  forall fuel start,
    length l - start <= fuel ->
    concat (map (fun i => slice l i (i + n)) (range_fuel fuel start (length l) n))
    = skipn start l.
Proof.
  intros Hn fuel; induction fuel as [|fuel IH]; intros start Hfuel.
  - cbn [range_fuel map concat]. symmetry. apply skipn_all2. lia.
  - cbn [range_fuel].
    destruct (Nat.ltb_spec start (length l)) as [Hlt|Hge].
    + cbn [map concat]. rewrite IH by lia.
      unfold slice. replace (start + n - start) with n by lia.
      rewrite Nat.add_comm, <- skipn_skipn.
      apply firstn_skipn.
    + cbn [map concat]. symmetry. apply skipn_all2. lia.
Qed.

Lemma batches_of_concat {A : Type} (n : nat) (l : list A) :
  0 < n -> concat (batches_of n l) = l.
Proof.
  intros Hn. unfold batches_of, py_range.
  rewrite range_fuel_slices by lia. reflexivity.
Qed.

Lemma slice_length_le {A : Type} (l : list A) (i n : nat) :
  length (slice l i (i + n)) <= n.
Proof.
  unfold slice. replace (i + n - i) with n by lia. apply firstn_le_length.
Qed.

Lemma batches_of_bounded {A : Type} (n : nat) (l : list A) :
  Forall (fun b => length b <= n) (batches_of n l).
Proof.
  unfold batches_of. apply Forall_map, Forall_forall.
  intros i _. apply slice_length_le.
Qed.

Lemma in_firstn {A : Type} (n : nat) (l : list A) (x : A) :
  In x (firstn n l) -> In x l.
Proof.
  intros H. rewrite <- (firstn_skipn n l). apply in_or_app. left. exact H.
Qed.

Lemma slice_incl {A : Type} (l : list A) (i j : nat) (x : A) :
  In x (slice l i j) -> In x l.
Proof.
  unfold slice. intros H.
  apply in_firstn in H.
  rewrite <- (firstn_skipn i l). apply in_or_app. right. exact H.
Qed.

Lemma batches_of_incl {A : Type} (n : nat) (l b : list A) (x : A) :
  In b (batches_of n l) -> In x b -> In x l.
Proof.
  unfold batches_of. rewrite in_map_iff.
  intros [i [<- _]]. apply slice_incl.
Qed.

Lemma batches_of_Forall {A : Type} (Q : A -> Prop) (n : nat) (l : list A) :
  Forall Q l -> Forall (Forall Q) (batches_of n l).
Proof.
  intros H. apply Forall_forall. intros b Hb.
  apply Forall_forall. intros x Hx.
  rewrite Forall_forall in H. eauto using batches_of_incl.
Qed.

Lemma pages_of_Forall (Q : string -> Prop) (keys : list string) :
  Forall Q keys -> Forall (Forall Q) (pages_of keys).
Proof.
  intros H. unfold pages_of. destruct keys as [|k keys].
  - repeat constructor.
  - apply batches_of_Forall, H.
Qed.

Lemma pages_of_concat (keys : list string) :
  concat (pages_of keys) = keys.
Proof.
  unfold pages_of. destruct keys as [|k keys]; [reflexivity|].
  apply batches_of_concat. unfold PAGE_SIZE. lia.
Qed.

Lemma list_keys_prefixed (prefix : string) (objs : list (string * string)) :
  Forall (fun k => PyStr.startswith prefix k = true) (list_keys prefix objs).
Proof.
  unfold list_keys. apply Forall_forall. intros k Hk.
  apply filter_In in Hk. tauto.
Qed.

(** ** Strings: prefixes *)

Lemma prefix_first_char (a b : ascii) (p q k : string) :
  PyStr.startswith (String a p) k = true ->
  PyStr.startswith (String b q) k = true ->
  a = b.
Proof.
  unfold PyStr.startswith. destruct k as [|c k]; cbn; [discriminate|].
  destruct (ascii_dec a c), (ascii_dec b c); congruence.
Qed.

(** ** The store: lookups after deletions and writes *)

Lemma assoc_remove_keys_out (k : string) (ks : list string)
    (objs : list (string * string)) :
  existsb (String.eqb k) ks = false ->
  assoc k (remove_keys ks objs) = assoc k objs.
Proof.
  intros Hk. unfold remove_keys.
  induction objs as [|[k' v] objs IH]; [reflexivity|].
  cbn [filter fst assoc].
  destruct (String.eqb_spec k k') as [->|Hne].
  - rewrite Hk. cbn [negb assoc]. rewrite String.eqb_refl. reflexivity.
  - destruct (negb (existsb (String.eqb k') ks)); cbn [assoc].
    + destruct (String.eqb_spec k k'); [contradiction|]. exact IH.
    + exact IH.
Qed.

Lemma assoc_remove_keys_in (k : string) (ks : list string)
    (objs : list (string * string)) :
  existsb (String.eqb k) ks = true ->
  assoc k (remove_keys ks objs) = None.
Proof.
  intros Hk. unfold remove_keys.
  induction objs as [|[k' v] objs IH]; [reflexivity|].
  cbn [filter fst].
  destruct (negb (existsb (String.eqb k') ks)) eqn:E; [|exact IH].
  cbn [assoc]. destruct (String.eqb_spec k k') as [->|Hne]; [|exact IH].
  rewrite Hk in E. discriminate.
Qed.

Lemma assoc_remove_keys_some (k v : string) (ks : list string)
    (objs : list (string * string)) :
  assoc k (remove_keys ks objs) = Some v -> assoc k objs = Some v.
Proof.
  destruct (existsb (String.eqb k) ks) eqn:E.
  - rewrite assoc_remove_keys_in by exact E. discriminate.
  - rewrite assoc_remove_keys_out by exact E. tauto.
Qed.

Lemma existsb_subset (k : string) (f : string -> bool) (ks : list string) :
  existsb (String.eqb k) ks = false ->
  existsb (String.eqb k) (filter f ks) = false.
Proof.
  induction ks as [|x ks IH]; [reflexivity|].
  cbn [existsb filter]. intros H. apply orb_false_iff in H as [H1 H2].
  destruct (f x); cbn [existsb]; rewrite ?H1, IH; auto.
Qed.

Lemma assoc_store_put_same (k v : string) (objs : list (string * string)) :
  assoc k (store_put k v objs) = Some v.
Proof.
  induction objs as [|[k' v'] objs IH]; cbn [store_put assoc].
  - rewrite String.eqb_refl. reflexivity.
  - destruct (String.eqb_spec k k') as [->|Hne].
    + cbn [assoc]. rewrite String.eqb_refl. reflexivity.
    + destruct (String.ltb k k'); cbn [assoc].
      * rewrite String.eqb_refl. reflexivity.
      * destruct (String.eqb_spec k k'); [contradiction|]. exact IH.
Qed.

Lemma assoc_store_put_other (k k0 v : string) (objs : list (string * string)) :
  String.eqb k k0 = false ->
  assoc k (store_put k0 v objs) = assoc k objs.
Proof.
  intros Hne.
  induction objs as [|[k' v'] objs IH]; cbn [store_put assoc].
  - rewrite Hne. reflexivity.
  - destruct (String.eqb_spec k0 k') as [->|Hne'].
    + cbn [assoc]. rewrite Hne. reflexivity.
    + destruct (String.ltb k0 k'); cbn [assoc].
      * rewrite Hne. reflexivity.
      * destruct (String.eqb k k'); [reflexivity|]. exact IH.
Qed.

(** ** Requests that no service fails *)

Lemma fault_of_request (n : nat) (c : Call) :
  (forall req, c <> CreateJob req) -> fault prov n c = service_fault prov n c.
Proof.
  intros Hc. unfold fault. destruct c; try reflexivity.
  destruct (Hc req eq_refl).
Qed.

Lemma no_fault_request (n : nat) (c : Call) :
  no_fault -> (forall req, c <> CreateJob req) -> fault prov n c = None.
Proof.
  intros Hnf Hc. rewrite fault_of_request by exact Hc. apply Hnf.
Qed.

(** The client refuses every [create_job] for ['S3DeleteObject']. *)
Lemma create_job_refused (n : nat) (req : JobRequest) :
  Operation req = "S3DeleteObject" ->
  fault prov n (CreateJob req) = Some (rejection prov req).
Proof.
  intros Hop. unfold fault. rewrite Hop. reflexivity.
Qed.


(** ** Running the monad *)

Lemma bind_ok {A B : Type} (m : M A) (k : A -> M B) (w w1 : World) (a : A) :
  m w = (Ok a, w1) -> bind m k w = k a w1.
Proof. intros H. unfold bind. rewrite H. reflexivity. Qed.

Lemma bind_raise {A B : Type} (m : M A) (k : A -> M B) (w w1 : World) (e : exn) :
  m w = (Raise e, w1) -> bind m k w = (Raise e, w1).
Proof. intros H. unfold bind. rewrite H. reflexivity. Qed.

Lemma run_fst {A : Type} (m : M A) (w : World) (r : Res A) :
  fst (m w) = r -> m w = (r, snd (m w)).
Proof. intros <-. apply surjective_pairing. Qed.

Lemma try_catch_ok {A : Type} (m : M A) (h : exn -> M A) (w w1 : World) (a : A) :
  m w = (Ok a, w1) -> try_catch m h w = (Ok a, w1).
Proof. intros H. unfold try_catch. rewrite H. reflexivity. Qed.

Lemma try_catch_raise {A : Type} (m : M A) (h : exn -> M A) (w w1 : World)
    (e : exn) :
  m w = (Raise e, w1) -> try_catch m h w = h e w1.
Proof. intros H. unfold try_catch. rewrite H. reflexivity. Qed.

(** ** The requests a computation issues, and the keys it leaves alone *)

Lemma new_calls_app (w w' : World) (cs : list Call) :
  trace w' = (rev cs ++ trace w)%list -> new_calls w w' = cs.
Proof.
  intros H. unfold new_calls. rewrite H, length_app, length_rev.
  replace (length cs + length (trace w) - length (trace w)) with (length (rev cs))
    by (rewrite length_rev; lia).
  rewrite firstn_app, Nat.sub_diag, firstn_O, app_nil_r, firstn_all.
  apply rev_involutive.
Qed.

Lemma sound_weaken {A : Type} (P Q : Call -> Prop) (E F : exn -> Prop) (m : M A) :
  (forall c, P c -> Q c) -> (forall e, E e -> F e) ->
  sound P E m -> sound Q F m.
Proof.
  intros HPQ HEF Hm w. destruct (Hm w) as (cs & Ht & Hf & Ho & He).
  exists cs. repeat split; auto.
  eapply Forall_impl; eauto.
Qed.

Lemma sound_read {A : Type} (P : Call -> Prop) (E : exn -> Prop) (m : M A) :
  (forall w, snd (m w) = w) ->
  (forall w e, fst (m w) = Raise e -> E e) ->
  sound P E m.
Proof.
  intros H He w. exists []. rewrite H. repeat split; eauto.
Qed.

Lemma sound_ret {A : Type} (P : Call -> Prop) (E : exn -> Prop) (a : A) :
  sound P E (ret a).
Proof. apply sound_read; [reflexivity|]. cbn. discriminate. Qed.

Lemma sound_raise {A : Type} (P : Call -> Prop) (E : exn -> Prop) (e : exn) :
  E e -> sound P E (@raise A e).
Proof.
  intros He. apply sound_read; [reflexivity|]. cbn. intros _ e' H.
  inversion H; subst. exact He.
Qed.

Lemma sound_seq (P : Call -> Prop) (w w1 w2 : World)
    (cs1 cs2 : list Call) :
  trace w1 = (rev cs1 ++ trace w)%list -> Forall P cs1 ->
  (forall k, Forall (fun c => touches c k = false) cs1 ->
             assoc k (objects w1) = assoc k (objects w)) ->
  trace w2 = (rev cs2 ++ trace w1)%list -> Forall P cs2 ->
  (forall k, Forall (fun c => touches c k = false) cs2 ->
             assoc k (objects w2) = assoc k (objects w1)) ->
  trace w2 = (rev (cs1 ++ cs2) ++ trace w)%list /\
  Forall P (cs1 ++ cs2) /\
  (forall k, Forall (fun c => touches c k = false) (cs1 ++ cs2) ->
             assoc k (objects w2) = assoc k (objects w)).
Proof.
  intros T1 F1 O1 T2 F2 O2. repeat split.
  - rewrite T2, T1, rev_app_distr, app_assoc. reflexivity.
  - apply Forall_app. split; assumption.
  - intros k Hk. apply Forall_app in Hk as [Hk1 Hk2].
    rewrite O2, O1 by assumption. reflexivity.
Qed.

Lemma sound_bind {A B : Type} (P : Call -> Prop) (E : exn -> Prop)
    (m : M A) (k : A -> M B) :
  sound P E m -> (forall a, sound P E (k a)) -> sound P E (bind m k).
Proof.
  intros Hm Hk w. unfold bind.
  destruct (Hm w) as (cs1 & T1 & F1 & O1 & E1).
  destruct (m w) as [[a|e] w1]; cbn [fst snd] in *.
  - destruct (Hk a w1) as (cs2 & T2 & F2 & O2 & E2).
    exists (cs1 ++ cs2)%list.
    destruct (sound_seq P w w1 _ cs1 cs2 T1 F1 O1 T2 F2 O2) as (T & F & O).
    split; [exact T|]. split; [exact F|]. split; [exact O|]. assumption.
  - exists cs1. split; [exact T1|]. split; [exact F1|]. split; [exact O1|].
    intros e0 H. apply E1. inversion H. reflexivity.
Qed.

Lemma sound_try_catch {A : Type} (P : Call -> Prop) (E E' : exn -> Prop)
    (m : M A) (h : exn -> M A) :
  sound P E' m -> (forall e, sound P E (h e)) -> sound P E (try_catch m h).
Proof.
  intros Hm Hh w. unfold try_catch.
  destruct (Hm w) as (cs1 & T1 & F1 & O1 & E1).
  destruct (m w) as [[a|e] w1]; cbn [fst snd] in *.
  - exists cs1. split; [exact T1|]. split; [exact F1|]. split; [exact O1|].
    discriminate.
  - destruct (Hh e w1) as (cs2 & T2 & F2 & O2 & E2).
    exists (cs1 ++ cs2)%list.
    destruct (sound_seq P w w1 _ cs1 cs2 T1 F1 O1 T2 F2 O2) as (T & F & O).
    split; [exact T|]. split; [exact F|]. split; [exact O|]. assumption.
Qed.

Lemma sound_request (P : Call -> Prop) (c : Call) :
  P c -> sound P (fault_of (eq c)) (request c).
Proof.
  intros Hc w. exists [c]. unfold request.
  destruct (fault prov (length (trace w)) c) as [e|] eqn:F; cbn.
  - repeat split; auto. intros e' H. inversion H; subst.
    exists (length (trace w)), c. auto.
  - repeat split; auto. discriminate.
Qed.

Lemma sound_request_any (P : Call -> Prop) (c : Call) :
  P c -> sound P any_exn (request c).
Proof.
  intros Hc. eapply sound_weaken; [| |apply sound_request, Hc]; auto.
  intros; exact I.
Qed.

Lemma sound_get_object (P : Call -> Prop) (key : string) :
  P (GetObject key) -> sound P any_exn (get_object key).
Proof.
  intros Hc. unfold get_object. apply sound_bind.
  - apply sound_request_any, Hc.
  - intros _. apply sound_read; [|intros; exact I]. intros w.
    destruct (assoc key (objects w)); reflexivity.
Qed.

Lemma sound_head_object (P : Call -> Prop) (key : string) :
  P (HeadObject key) -> sound P any_exn (head_object key).
Proof.
  intros Hc. unfold head_object. apply sound_bind.
  - apply sound_request_any, Hc.
  - intros _. apply sound_read; [|intros; exact I]. intros w.
    destruct (assoc key (objects w)); reflexivity.
Qed.

Lemma sound_describe_job (P : Call -> Prop) (job_id : string) :
  P (DescribeJob job_id) -> sound P any_exn (describe_job job_id).
Proof.
  intros Hc. unfold describe_job. apply sound_bind.
  - apply sound_request_any, Hc.
  - intros _. apply sound_read; [|intros; exact I]. intros w.
    destruct (assoc job_id (jobs w)); reflexivity.
Qed.

Lemma sound_list_objects_v2 (P : Call -> Prop) (prefix : string) :
  P (ListObjectsV2 prefix 0) -> sound P any_exn (list_objects_v2 prefix).
Proof.
  intros Hc. unfold list_objects_v2. apply sound_bind.
  - apply sound_request_any, Hc.
  - intros _. apply sound_read; [reflexivity|intros; exact I].
Qed.

Lemma sound_create_job (P : Call -> Prop) (req : JobRequest) :
  P (CreateJob req) -> sound P any_exn (create_job req).
Proof.
  intros Hc w. exists [CreateJob req]. unfold create_job, bind, request.
  destruct (fault prov (length (trace w)) (CreateJob req)); cbn;
    repeat split; auto.
Qed.

Lemma sound_put_object (P : Call -> Prop) (key body : string) :
  P (PutObject key body) -> sound P any_exn (put_object key body).
Proof.
  intros Hc w. exists [PutObject key body].
  unfold put_object, bind, request, update_objects.
  destruct (fault prov (length (trace w)) (PutObject key body)); cbn;
    repeat split; auto.
  intros k Hk. inversion Hk as [|? ? Hk1 _]; subst.
  cbn in Hk1. apply assoc_store_put_other, Hk1.
Qed.

Lemma sound_delete_object (P : Call -> Prop) (key : string) :
  P (DeleteObject key) -> sound P any_exn (delete_object key).
Proof.
  intros Hc w. exists [DeleteObject key].
  unfold delete_object, bind, request, update_objects.
  destruct (fault prov (length (trace w)) (DeleteObject key)); cbn;
    repeat split; auto.
  intros k Hk. inversion Hk as [|? ? Hk1 _]; subst.
  cbn in Hk1. apply (assoc_remove_keys_out k [key] (objects w)).
  cbn. rewrite Hk1. reflexivity.
Qed.

Lemma sound_delete_objects (P : Call -> Prop) (keys : list string) :
  P (DeleteObjects keys) -> sound P any_exn (delete_objects keys).
Proof.
  intros Hc w. exists [DeleteObjects keys].
  unfold delete_objects, bind, request, update_objects, ret.
  destruct (fault prov (length (trace w)) (DeleteObjects keys)); cbn;
    repeat split; auto.
  intros k Hk. inversion Hk as [|? ? Hk1 _]; subst.
  cbn [touches] in Hk1.
  apply (assoc_remove_keys_out k
           (filter (fun k0 => negb (key_error prov (length (trace w)) k0)) keys)
           (objects w)).
  apply existsb_subset, Hk1.
Qed.

Lemma sound_for_each {A St : Type} (P : Call -> Prop) (E : exn -> Prop)
    (Q : A -> Prop) (l : list A) (body : A -> St -> M St) :
  Forall Q l ->
  (forall x s, Q x -> sound P E (body x s)) ->
  forall s, sound P E (for_each l body s).
Proof.
  intros Hl Hbody. induction Hl as [|x l Hx Hl IH]; intros s; cbn [for_each].
  - apply sound_ret.
  - apply sound_bind; auto.
Qed.

Lemma sound_for_each_until {A : Type} (P : Call -> Prop) (E : exn -> Prop)
    (Q : A -> Prop) (l : list A) (body : A -> M bool) :
  Forall Q l ->
  (forall x, Q x -> sound P E (body x)) ->
  sound P E (for_each_until l body).
Proof.
  intros Hl Hbody. induction Hl as [|x l Hx Hl IH]; cbn [for_each_until].
  - apply sound_ret.
  - apply sound_bind; auto. intros [|]; [apply sound_ret|exact IH].
Qed.

Lemma sound_listing (P : Call -> Prop) (prefix : string) (i : nat) :
  (forall j, P (ListObjectsV2 prefix j)) ->
  sound P (fault_of (listing_of [prefix])) (request (ListObjectsV2 prefix i)).
Proof.
  intros Hlist. eapply sound_weaken; [| |apply sound_request, Hlist]; auto.
  intros e (n & c & <- & Hf). exists n, (ListObjectsV2 prefix i).
  split; [|exact Hf]. exists prefix, i. cbn. auto.
Qed.

Lemma sound_fetch_pages {St : Type} (P : Call -> Prop) (E : exn -> Prop)
    (Q : string -> Prop) (prefix : string) (pages : list (list string))
    (body : list string -> St -> M St) :
  (forall i, P (ListObjectsV2 prefix i)) ->
  (forall e, fault_of (listing_of [prefix]) e -> E e) ->
  Forall (Forall Q) pages ->
  (forall page s, Forall Q page -> sound P E (body page s)) ->
  forall i s, sound P E (fetch_pages prefix i pages body s).
Proof.
  intros Hlist HE Hpages Hbody.
  induction Hpages as [|page pages Hp Hps IH]; intros i s; cbn [fetch_pages].
  - apply sound_ret.
  - apply sound_bind.
    + eapply sound_weaken; [| |apply sound_listing, Hlist]; auto.
    + intros _. apply sound_bind; auto.
Qed.

Lemma sound_paginate {St : Type} (P : Call -> Prop) (E : exn -> Prop)
    (prefix : string) (body : list string -> St -> M St) (s : St) :
  (forall i, P (ListObjectsV2 prefix i)) ->
  (forall e, fault_of (listing_of [prefix]) e -> E e) ->
  (forall page s, Forall (fun k => PyStr.startswith prefix k = true) page ->
                  sound P E (body page s)) ->
  sound P E (paginate prefix body s).
Proof.
  intros Hlist HE Hbody w. unfold paginate.
  eapply sound_fetch_pages; eauto.
  apply pages_of_Forall, list_keys_prefixed.
Qed.

Lemma sound_fetch_pages_until (P : Call -> Prop) (E : exn -> Prop)
    (Q : string -> Prop) (prefix : string) (pages : list (list string))
    (body : list string -> M bool) :
  (forall i, P (ListObjectsV2 prefix i)) ->
  (forall e, fault_of (listing_of [prefix]) e -> E e) ->
  Forall (Forall Q) pages ->
  (forall page, Forall Q page -> sound P E (body page)) ->
  forall i, sound P E (fetch_pages_until prefix i pages body).
Proof.
  intros Hlist HE Hpages Hbody.
  induction Hpages as [|page pages Hp Hps IH]; intros i; cbn [fetch_pages_until].
  - apply sound_ret.
  - apply sound_bind.
    + eapply sound_weaken; [| |apply sound_listing, Hlist]; auto.
    + intros _. apply sound_bind; auto. intros [|]; [apply sound_ret|apply IH].
Qed.

Lemma sound_paginate_until (P : Call -> Prop) (E : exn -> Prop)
    (prefix : string) (body : list string -> M bool) :
  (forall i, P (ListObjectsV2 prefix i)) ->
  (forall e, fault_of (listing_of [prefix]) e -> E e) ->
  (forall page, Forall (fun k => PyStr.startswith prefix k = true) page ->
                sound P E (body page)) ->
  sound P E (paginate_until prefix body).
Proof.
  intros Hlist HE Hbody w. unfold paginate_until.
  eapply sound_fetch_pages_until; eauto.
  apply pages_of_Forall, list_keys_prefixed.
Qed.

(** ** The inventory scan *)

Lemma scan_page_spec (page : list string) (acc : list string * Z) :
  scan_page page acc
  = ((fst acc ++ page)%list, (snd acc + Z.of_nat (length page))%Z).
Proof.
  unfold scan_page. revert acc.
  induction page as [|k page IH]; intros [keys total]; cbn [fold_left fst snd].
  - rewrite app_nil_r, Z.add_0_r. reflexivity.
  - rewrite IH. cbn [fst snd length]. rewrite <- app_assoc. f_equal. lia.
Qed.

Lemma fetch_pages_scan (prefix : string) (pages : list (list string)) :
  forall i acc w r w',
    fetch_pages prefix i pages
      (fun page (acc : list string * Z) =>
         if has_contents page then ret (scan_page page acc) else ret acc)
      acc w = (r, w') ->
    objects w' = objects w /\
    jobs w' = jobs w /\
    (exists cs, trace w' = (rev cs ++ trace w)%list /\
                Forall (listing_of [prefix]) cs /\
                first_fault (length (trace w)) cs = raised r) /\
    match r with
    | Ok r => r = ((fst acc ++ concat pages)%list,
                   (snd acc + Z.of_nat (length (concat pages)))%Z)
    | Raise e => exists n j, fault prov n (ListObjectsV2 prefix j) = Some e
    end.
Proof.
  induction pages as [|page pages IH]; intros i acc w r w' H; cbn [fetch_pages] in H.
  - inversion H; subst. split; [reflexivity|]. split; [reflexivity|]. split.
    + exists []. auto.
    + destruct acc. cbn. rewrite app_nil_r, Z.add_0_r. reflexivity.
  - unfold bind at 1 in H. unfold request in H.
    destruct (fault prov (length (trace w)) (ListObjectsV2 prefix i)) as [e|] eqn:F.
    + inversion H; subst. cbn. split; [reflexivity|]. split; [reflexivity|]. split.
      * exists [ListObjectsV2 prefix i]. split; [reflexivity|]. split.
        -- repeat constructor. exists prefix, i. cbn. auto.
        -- cbn. rewrite F. reflexivity.
      * eauto.
    + unfold bind at 1 in H.
      assert (Hbody : forall w0,
                 (if has_contents page then ret (scan_page page acc) else ret acc) w0
                 = (Ok (scan_page page acc), w0)).
      { intros w0. destruct page; reflexivity. }
      rewrite Hbody in H.
      apply IH in H. destruct H as (Ho & Hj & (cs & Ht & Hf & Hff) & Hr).
      split; [rewrite Ho; reflexivity|].
      split; [rewrite Hj; reflexivity|]. split.
      * exists (ListObjectsV2 prefix i :: cs). split; [|split].
        -- rewrite Ht. cbn [trace rev]. rewrite <- app_assoc. reflexivity.
        -- constructor; [|exact Hf]. exists prefix, i. cbn. auto.
        -- cbn [first_fault]. rewrite F. exact Hff.
      * destruct r as [r|e]; [|exact Hr].
        rewrite Hr, scan_page_spec. cbn [fst snd concat].
        rewrite length_app, <- app_assoc. f_equal. lia.
Qed.

Lemma count_and_list_objects_unfold (user_id : string) :
  count_and_list_objects user_id
  = for_each (user_prefixes user_id) scan_prefix (0%Z, []).
Proof. reflexivity. Qed.

Lemma listing_of_incl (ps qs : list string) (c : Call) :
  incl ps qs -> listing_of ps c -> listing_of qs c.
Proof.
  intros Hi (p & j & Hp & Hc). exists p, j. auto.
Qed.

Lemma scan_prefix_spec (prefix : string) (acc : Z * inventory) :
  forall w r w',
    scan_prefix prefix acc w = (r, w') ->
    objects w' = objects w /\
    jobs w' = jobs w /\
    (exists cs, trace w' = (rev cs ++ trace w)%list /\
                Forall (listing_of [prefix]) cs /\
                first_fault (length (trace w)) cs = raised r) /\
    match r with
    | Ok res => res = scan_step prefix (list_keys prefix (objects w)) acc
    | Raise e => exists n j, fault prov n (ListObjectsV2 prefix j) = Some e
    end.
Proof.
  intros w r w' H. destruct acc as [total inv].
  unfold scan_prefix, bind, paginate in H.
  destruct (fetch_pages prefix 0 _ _ _ w) as [r1 w1] eqn:E.
  apply fetch_pages_scan in E. destruct E as (Ho & Hj & Hc & Hr).
  rewrite pages_of_concat in Hr. cbn [fst snd app] in Hr.
  destruct r1 as [[keys total']|e].
  - inversion Hr; subst keys total'. clear Hr.
    assert (r = Ok (scan_step prefix (list_keys prefix (objects w)) (total, inv))
            /\ w' = w1) as [-> ->].
    { unfold scan_step; cbn [fst snd].
      destruct (list_keys prefix (objects w)); inversion H; auto. }
    auto.
  - inversion H; subst. auto.
Qed.

Lemma first_fault_app (cs1 cs2 : list Call) :
  forall n,
    first_fault n (cs1 ++ cs2)
    = match first_fault n cs1 with
      | Some e => Some e
      | None => first_fault (n + length cs1) cs2
      end.
Proof.
  induction cs1 as [|c cs1 IH]; intros n; cbn [app first_fault length].
  - rewrite Nat.add_0_r. reflexivity.
  - destruct (fault prov n c); [reflexivity|].
    rewrite IH. replace (S n + length cs1) with (n + S (length cs1)) by lia.
    reflexivity.
Qed.

Lemma scan_loop_spec (ps : list string) :
  forall acc w r w',
    for_each ps scan_prefix acc w = (r, w') ->
    objects w' = objects w /\
    jobs w' = jobs w /\
    (exists cs, trace w' = (rev cs ++ trace w)%list /\
                Forall (listing_of ps) cs /\
                first_fault (length (trace w)) cs = raised r) /\
    match r with
    | Ok res =>
        res = fold_left
                (fun acc p => scan_step p (list_keys p (objects w)) acc) ps acc
    | Raise e =>
        exists n p j, In p ps /\ fault prov n (ListObjectsV2 p j) = Some e
    end.
Proof.
  induction ps as [|p ps IH]; intros acc w r w' H; cbn [for_each] in H.
  - inversion H; subst. split; [reflexivity|]. split; [reflexivity|]. split.
    + exists []. auto.
    + reflexivity.
  - unfold bind in H. destruct (scan_prefix p acc w) as [r1 w1] eqn:E.
    apply scan_prefix_spec in E.
    destruct E as (Ho & Hj & (cs1 & Ht1 & Hf1 & Hff1) & Hr).
    destruct r1 as [res1|e].
    + apply IH in H. destruct H as (Ho2 & Hj2 & (cs2 & Ht2 & Hf2 & Hff2) & Hr2).
      split; [congruence|]. split; [congruence|]. split.
      * exists (cs1 ++ cs2)%list. split; [|split].
        -- rewrite Ht2, Ht1, rev_app_distr, app_assoc. reflexivity.
        -- apply Forall_app. split.
           ++ eapply Forall_impl; [|exact Hf1].
              intros c. apply listing_of_incl. intros x [<-|[]]. left. reflexivity.
           ++ eapply Forall_impl; [|exact Hf2].
              intros c. apply listing_of_incl. intros x Hx. right. exact Hx.
        -- rewrite first_fault_app, Hff1. cbn [raised].
           rewrite <- Hff2, Ht1, length_app, length_rev.
           f_equal. lia.
      * destruct r as [res|e].
        -- cbn [fold_left]. rewrite Hr2, Ho, Hr. reflexivity.
        -- destruct Hr2 as (n & q & j & Hq & Hfault).
           exists n, q, j. split; [right; exact Hq|exact Hfault].
    + inversion H; subst. split; [exact Ho|]. split; [exact Hj|]. split.
      * exists cs1. split; [exact Ht1|]. split; [|exact Hff1].
        eapply Forall_impl; [|exact Hf1].
        intros c. apply listing_of_incl. intros x [<-|[]]. left. reflexivity.
      * destruct Hr as (n & j & Hfault). exists n, p, j.
        split; [left; reflexivity|exact Hfault].
Qed.

Lemma count_and_list_objects_spec (user_id : string) :
  forall w r w',
    count_and_list_objects user_id w = (r, w') ->
    objects w' = objects w /\
    jobs w' = jobs w /\
    (exists cs, trace w' = (rev cs ++ trace w)%list /\
                Forall (listing_of (user_prefixes user_id)) cs /\
                first_fault (length (trace w)) cs = raised r) /\
    match r with
    | Ok res => res = scan_result user_id (objects w)
    | Raise e =>
        exists n p j, In p (user_prefixes user_id)
                      /\ fault prov n (ListObjectsV2 p j) = Some e
    end.
Proof.
  intros w r w' H. rewrite count_and_list_objects_unfold in H.
  apply scan_loop_spec in H. exact H.
Qed.

(** The inventory built by the scan holds, prefix after prefix, exactly
    the keys listed under the four prefixes, and the count is their
    number. *)
Lemma scan_result_keys (user_id : string) (objs : list (string * string)) :
  inventory_keys (snd (scan_result user_id objs))
  = concat (map (fun p => list_keys p objs) (user_prefixes user_id)).
Proof.
  unfold scan_result, user_prefixes, scan_step, inventory_keys.
  cbn [fold_left map concat fst snd].
  destruct (list_keys ("photos/" ++ user_id ++ "/") objs) as [|k1 l1];
    destruct (list_keys ("thumbnails/" ++ user_id ++ "/") objs) as [|k2 l2];
    destruct (list_keys ("catalogs/" ++ user_id ++ "/") objs) as [|k3 l3];
    destruct (list_keys ("users/" ++ user_id ++ "/") objs) as [|k4 l4];
    cbn; rewrite ?app_nil_r; reflexivity.
Qed.

Lemma scan_result_count (user_id : string) (objs : list (string * string)) :
  fst (scan_result user_id objs)
  = Z.of_nat (length (inventory_keys (snd (scan_result user_id objs)))).
Proof.
  rewrite scan_result_keys.
  unfold scan_result, user_prefixes, scan_step.
  cbn [fold_left map concat fst snd].
  rewrite !length_app. cbn [length]. lia.
Qed.

Lemma scan_result_prefixed (user_id : string) (objs : list (string * string)) :
  Forall (fun k => exists p, In p (user_prefixes user_id)
                             /\ PyStr.startswith p k = true)
         (inventory_keys (snd (scan_result user_id objs))).
Proof.
  rewrite scan_result_keys. apply Forall_forall. intros k Hk.
  apply in_concat in Hk as (l & Hl & Hk).
  apply in_map_iff in Hl as (p & <- & Hp).
  exists p. split; [exact Hp|].
  pose proof (list_keys_prefixed p objs) as H.
  rewrite Forall_forall in H. auto.
Qed.

Lemma scan_result_empty (user_id : string) (objs : list (string * string)) :
  fst (scan_result user_id objs) = 0%Z ->
  snd (scan_result user_id objs) = []
  /\ forall p, In p (user_prefixes user_id) -> list_keys p objs = [].
Proof.
  unfold scan_result, user_prefixes, scan_step.
  cbn [fold_left map concat fst snd].
  destruct (list_keys ("photos/" ++ user_id ++ "/") objs) as [|k1 l1] eqn:E1;
    destruct (list_keys ("thumbnails/" ++ user_id ++ "/") objs) as [|k2 l2] eqn:E2;
    destruct (list_keys ("catalogs/" ++ user_id ++ "/") objs) as [|k3 l3] eqn:E3;
    destruct (list_keys ("users/" ++ user_id ++ "/") objs) as [|k4 l4] eqn:E4;
    cbn [length]; intros H; try lia.
  split; [reflexivity|].
  intros p [<-|[<-|[<-|[<-|[]]]]]; assumption.
Qed.

(** ** The requests of a scan, one by one *)

Lemma issued_until_fault_app (cs1 cs2 : list Call) :
  forall n,
    issued_until_fault n (cs1 ++ cs2)
    = match first_fault n cs1 with
      | Some _ => issued_until_fault n cs1
      | None => (cs1 ++ issued_until_fault (n + length cs1) cs2)%list
      end.
Proof.
  induction cs1 as [|c cs1 IH]; intros n;
    cbn [app issued_until_fault first_fault length].
  - rewrite Nat.add_0_r. reflexivity.
  - destruct (fault prov n c); [reflexivity|].
    rewrite IH. replace (S n + length cs1) with (n + S (length cs1)) by lia.
    destruct (first_fault (S n) cs1); reflexivity.
Qed.

Lemma issued_until_fault_all (cs : list Call) :
  forall n, first_fault n cs = None -> issued_until_fault n cs = cs.
Proof.
  induction cs as [|c cs IH]; intros n; cbn [issued_until_fault first_fault];
    [reflexivity|].
  destruct (fault prov n c); [discriminate|].
  intros H. rewrite (IH _ H). reflexivity.
Qed.

(** The failing request is the last one issued. *)
Lemma issued_until_fault_last (cs : list Call) :
  forall n e,
    first_fault n cs = Some e ->
    exists earlier c,
      issued_until_fault n cs = (earlier ++ [c])%list
      /\ first_fault n earlier = None
      /\ fault prov (n + length earlier) c = Some e.
Proof.
  induction cs as [|c cs IH]; intros n e;
    cbn [issued_until_fault first_fault]; [discriminate|].
  destruct (fault prov n c) as [e0|] eqn:F.
  - intros H. inversion H; subst. exists [], c.
    cbn [app length first_fault]. rewrite Nat.add_0_r. auto.
  - intros H. destruct (IH (S n) e H) as (earlier & c' & Hi & Hn & Hf).
    exists (c :: earlier), c'. cbn [app length first_fault].
    rewrite Hi, F.
    replace (n + S (length earlier)) with (S n + length earlier) by lia.
    auto.
Qed.

Lemma first_fault_issued (cs : list Call) :
  forall n, first_fault n (issued_until_fault n cs) = first_fault n cs.
Proof.
  induction cs as [|c cs IH]; intros n; cbn [issued_until_fault first_fault];
    [reflexivity|].
  destruct (fault prov n c) eqn:F; cbn [first_fault]; rewrite F;
    [reflexivity|apply IH].
Qed.

Lemma fetch_pages_trace (prefix : string) (pages : list (list string)) :
  forall i acc w r w',
    fetch_pages prefix i pages
      (fun page (acc : list string * Z) =>
         if has_contents page then ret (scan_page page acc) else ret acc)
      acc w = (r, w') ->
    let cs := map (ListObjectsV2 prefix) (seq i (length pages)) in
    trace w' = (rev (issued_until_fault (length (trace w)) cs) ++ trace w)%list
    /\ raised r = first_fault (length (trace w)) cs.
Proof.
  induction pages as [|page pages IH]; intros i acc w r w' H;
    cbn [fetch_pages length seq map issued_until_fault first_fault] in *.
  - unfold ret in H. inversion H; subst. split; reflexivity.
  - unfold bind at 1 in H. unfold request in H.
    destruct (fault prov (length (trace w)) (ListObjectsV2 prefix i)) as [e|].
    + inversion H; subst. split; reflexivity.
    + assert (Hbody :
        exists acc',
          (if has_contents page then ret (scan_page page acc) else ret acc)
            {| objects := objects w; jobs := jobs w;
               trace := ListObjectsV2 prefix i :: trace w |}
          = (Ok acc', {| objects := objects w; jobs := jobs w;
                         trace := ListObjectsV2 prefix i :: trace w |})).
      { destruct (has_contents page); eexists; reflexivity. }
      destruct Hbody as (acc' & Hbody).
      erewrite bind_ok in H by exact Hbody.
      apply IH in H. cbv zeta in H. cbn [trace length] in H.
      destruct H as (Ht & Hr). split; [|exact Hr].
      rewrite Ht. cbn [rev]. rewrite <- app_assoc. reflexivity.
Qed.

Lemma scan_prefix_trace (prefix : string) (acc : Z * inventory) :
  forall w r w',
    scan_prefix prefix acc w = (r, w') ->
    trace w'
    = (rev (issued_until_fault (length (trace w))
              (prefix_requests (objects w) prefix)) ++ trace w)%list
    /\ raised r
       = first_fault (length (trace w)) (prefix_requests (objects w) prefix).
Proof.
  intros w r w' H. destruct acc as [total inv].
  unfold scan_prefix, paginate in H. unfold bind in H.
  destruct (fetch_pages prefix 0 (pages_of (list_keys prefix (objects w))) _
              ([], total) w) as [[[keys total']|e] w1] eqn:F.
  - apply fetch_pages_trace in F. cbv zeta in F.
    assert (Hw : w' = w1 /\ raised r = None).
    { destruct keys; unfold ret in H; inversion H; split; reflexivity. }
    destruct Hw as (-> & ->). exact F.
  - apply fetch_pages_trace in F. cbv zeta in F.
    inversion H; subst. exact F.
Qed.

Lemma scan_loop_trace (ps : list string) :
  forall acc w r w',
    for_each ps scan_prefix acc w = (r, w') ->
    trace w'
    = (rev (issued_until_fault (length (trace w))
              (flat_map (prefix_requests (objects w)) ps)) ++ trace w)%list
    /\ raised r
       = first_fault (length (trace w))
           (flat_map (prefix_requests (objects w)) ps).
Proof.
  induction ps as [|p ps IH]; intros acc w r w' H;
    cbn [for_each flat_map] in *.
  - unfold ret in H. inversion H; subst. split; reflexivity.
  - unfold bind in H.
    destruct (scan_prefix p acc w) as [[acc'|e] w1] eqn:Ep.
    + pose proof (scan_prefix_spec _ _ _ _ _ Ep) as (Ho & _).
      apply scan_prefix_trace in Ep. destruct Ep as (Ht1 & Hr1).
      cbn [raised] in Hr1.
      apply IH in H. destruct H as (Ht & Hr).
      rewrite Ho in Ht, Hr.
      rewrite issued_until_fault_app, first_fault_app, <- Hr1.
      rewrite (issued_until_fault_all _ _ (eq_sym Hr1)) in Ht1.
      assert (Hlen : length (trace w1)
                     = length (trace w)
                       + length (prefix_requests (objects w) p)).
      { rewrite Ht1, length_app, length_rev. lia. }
      rewrite Hlen in Ht, Hr. split; [|exact Hr].
      rewrite Ht, Ht1, rev_app_distr, app_assoc. reflexivity.
    + inversion H; subst.
      apply scan_prefix_trace in Ep. destruct Ep as (Ht1 & Hr1).
      cbn [raised] in Hr1.
      rewrite issued_until_fault_app, first_fault_app, <- Hr1.
      split; [exact Ht1|reflexivity].
Qed.

(** The requests of a scan are the listing requests of the four
    prefixes in order, page by page, up to and including the first that
    fails; the scan raises the exception of that request. *)
Lemma count_and_list_objects_trace (user_id : string) :
  forall w r w',
    count_and_list_objects user_id w = (r, w') ->
    new_calls w w'
    = issued_until_fault (length (trace w)) (scan_requests user_id (objects w))
    /\ raised r
       = first_fault (length (trace w)) (scan_requests user_id (objects w)).
Proof.
  intros w r w' H. rewrite count_and_list_objects_unfold in H.
  apply scan_loop_trace in H. destruct H as (Ht & Hr).
  split; [apply new_calls_app; exact Ht|exact Hr].
Qed.


(** ** Direct deletion *)

Lemma for_each_map {A B St : Type} (f : A -> B) (l : list A)
    (body : B -> St -> M St) :
  forall s w,
    for_each (map f l) body s w = for_each l (fun x => body (f x)) s w.
Proof.
  induction l as [|x l IH]; intros s w; cbn [map for_each]; [reflexivity|].
  unfold bind. destruct (body (f x) s w) as [[s'|e] w1]; [apply IH|reflexivity].
Qed.

Lemma delete_batch_run (batch : list string) (total : Z) (w : World) :
  exists w',
    delete_batch batch total w
    = (Ok (total + batch_confirmed (length (trace w)) batch)%Z, w')
    /\ trace w' = DeleteObjects batch :: trace w
    /\ jobs w' = jobs w.
Proof.
  unfold delete_batch, delete_objects, try_catch, bind, request, update_objects,
    ret, batch_confirmed. cbv beta.
  destruct (fault prov (length (trace w)) (DeleteObjects batch)); cbn.
  - eexists. rewrite Z.add_0_r. repeat split.
  - eexists. repeat split.
Qed.

Lemma delete_batches_run (bs : list (list string)) :
  forall total w,
  exists w',
    for_each bs delete_batch total w
    = (Ok (total + confirmed_total (length (trace w)) bs)%Z, w')
    /\ trace w' = (rev (map DeleteObjects bs) ++ trace w)%list
    /\ jobs w' = jobs w.
Proof.
  induction bs as [|b bs IH]; intros total w; cbn [for_each confirmed_total].
  - exists w. rewrite Z.add_0_r. repeat split.
  - unfold bind. destruct (delete_batch_run b total w) as (w1 & E1 & T1 & J1).
    rewrite E1.
    destruct (IH (total + batch_confirmed (length (trace w)) b)%Z w1)
      as (w2 & E2 & T2 & J2).
    exists w2. rewrite E2, T2, T1, J2, J1. cbn [length map rev].
    rewrite <- app_assoc, Z.add_assoc. repeat split.
Qed.

Lemma confirmed_total_app (bs1 bs2 : list (list string)) :
  forall n,
    confirmed_total n (bs1 ++ bs2)
    = (confirmed_total n bs1 + confirmed_total (n + length bs1) bs2)%Z.
Proof.
  induction bs1 as [|b bs1 IH]; intros n; cbn [app confirmed_total length].
  - rewrite Nat.add_0_r. reflexivity.
  - rewrite IH. replace (S n + length bs1) with (n + S (length bs1)) by lia. lia.
Qed.

Lemma direct_loop_run (inv : inventory) :
  forall total w,
  exists w',
    for_each inv
      (fun '(prefix, keys) total_deleted =>
         for_each (py_range 0 (length keys) DELETE_BATCH)
           (fun i total_deleted =>
              let batch := slice keys i (i + DELETE_BATCH) in
              try_catch
                ('(deleted, errors) <- delete_objects batch ;;
                 ret (total_deleted + Z.of_nat (length deleted))%Z)
                (fun e => ret total_deleted))
           total_deleted)
      total w
    = (Ok (total + confirmed_total (length (trace w)) (deletion_batches inv))%Z, w')
    /\ trace w' = (rev (map DeleteObjects (deletion_batches inv)) ++ trace w)%list
    /\ jobs w' = jobs w.
Proof.
  induction inv as [|[prefix keys] inv IH]; intros total w;
    cbn [for_each deletion_batches flat_map snd].
  - exists w. rewrite Z.add_0_r. repeat split.
  - destruct (delete_batches_run (batches_of DELETE_BATCH keys) total w)
      as (w1 & E1 & T1 & J1).
    unfold batches_of in E1 at 1. rewrite for_each_map in E1.
    destruct (IH (total + confirmed_total (length (trace w))
                            (batches_of DELETE_BATCH keys))%Z w1)
      as (w2 & E2 & T2 & J2).
    exists w2. split; [|split].
    + erewrite bind_ok by exact E1. cbv beta.
      etransitivity; [exact E2|].
      f_equal. f_equal. fold (deletion_batches inv).
      rewrite confirmed_total_app, T1, length_app, length_rev, length_map.
      rewrite (Nat.add_comm (length (batches_of DELETE_BATCH keys))). lia.
    + fold (deletion_batches inv).
      rewrite T2, T1, map_app, rev_app_distr, app_assoc. reflexivity.
    + congruence.
Qed.

Lemma perform_direct_deletion_run (inv : inventory) (w : World) :
  exists w',
    perform_direct_deletion inv w
    = (Ok (confirmed_total (length (trace w)) (deletion_batches inv)), w')
    /\ trace w' = (rev (map DeleteObjects (deletion_batches inv)) ++ trace w)%list
    /\ jobs w' = jobs w.
Proof.
  destruct (direct_loop_run inv 0%Z w) as (w' & E & T & J).
  exists w'. split; [exact E|]. auto.
Qed.

Lemma deletion_batches_concat (inv : inventory) :
  concat (deletion_batches inv) = inventory_keys inv.
Proof.
  unfold deletion_batches, inventory_keys.
  induction inv as [|[prefix keys] inv IH]; cbn [flat_map map concat snd].
  - reflexivity.
  - rewrite concat_app, IH, batches_of_concat; [reflexivity|].
    unfold DELETE_BATCH. lia.
Qed.

Lemma deletion_batches_bounded (inv : inventory) :
  Forall (fun b => length b <= DELETE_BATCH) (deletion_batches inv).
Proof.
  unfold deletion_batches.
  induction inv as [|[prefix keys] inv IH]; cbn [flat_map snd].
  - constructor.
  - apply Forall_app. split; [apply batches_of_bounded|exact IH].
Qed.

Lemma two_batches_of_1500 (keys : list string) :
  length keys = 1500 ->
  batches_of DELETE_BATCH keys = [firstn 1000 keys; skipn 1000 keys].
Proof.
  intros Hlen. unfold batches_of. rewrite Hlen.
  change (py_range 0 1500 DELETE_BATCH) with [0; 1000] at 1.
  cbn [map]. unfold slice, DELETE_BATCH.
  replace (0 + 1000 - 0) with 1000 by lia.
  replace (1000 + 1000 - 1000) with 1000 by lia.
  rewrite skipn_O. f_equal. f_equal.
  apply firstn_all2. rewrite length_skipn, Hlen. lia.
Qed.

(** ** Which requests each operation issues *)

Lemma sound_bind_post {A B : Type} (P : Call -> Prop) (E : exn -> Prop)
    (R : A -> Prop) (m : M A) (k : A -> M B) :
  sound P E m ->
  (forall w a w', m w = (Ok a, w') -> R a) ->
  (forall a, R a -> sound P E (k a)) ->
  sound P E (bind m k).
Proof.
  intros Hm HR Hk w. unfold bind.
  destruct (Hm w) as (cs1 & T1 & F1 & O1 & E1).
  destruct (m w) as [[a|e] w1] eqn:Em; cbn [fst snd] in *.
  - destruct (Hk a (HR _ _ _ Em) w1) as (cs2 & T2 & F2 & O2 & E2).
    exists (cs1 ++ cs2)%list.
    destruct (sound_seq P w w1 _ cs1 cs2 T1 F1 O1 T2 F2 O2) as (T & F & O).
    split; [exact T|]. split; [exact F|]. split; [exact O|]. assumption.
  - exists cs1. split; [exact T1|]. split; [exact F1|]. split; [exact O1|].
    intros e0 H. apply E1. inversion H. reflexivity.
Qed.

Lemma count_and_list_objects_sound (user_id : string) :
  sound (listing_of (user_prefixes user_id))
        (fault_of (listing_of (user_prefixes user_id)))
        (count_and_list_objects user_id).
Proof.
  intros w. destruct (count_and_list_objects user_id w) as [r w'] eqn:E.
  apply count_and_list_objects_spec in E.
  destruct E as (Ho & Hj & (cs & Ht & Hf & _) & Hr).
  exists cs. cbn [fst snd]. split; [exact Ht|]. split; [exact Hf|]. split.
  - intros k _. rewrite Ho. reflexivity.
  - intros e ->. destruct Hr as (n & p & j & Hp & Hfault).
    exists n, (ListObjectsV2 p j). split; [|exact Hfault].
    exists p, j. auto.
Qed.

Lemma remove_identity_mappings_sound (user_id : string) :
  sound identity_call (fault_of (listing_of ["identities/"]))
        (remove_identity_mappings user_id).
Proof.
  unfold remove_identity_mappings.
  apply sound_bind; [|intros; apply sound_ret].
  apply sound_paginate; [reflexivity|auto|].
  intros page s Hpage.
  destruct (negb (has_contents page)); [apply sound_ret|].
  eapply sound_for_each; [exact Hpage|].
  intros key s0 Hk. cbv beta in Hk.
  destruct (String.eqb key "identities/"); [apply sound_ret|].
  eapply sound_try_catch; [|intros; apply sound_ret].
  apply sound_bind; [apply sound_get_object; exact Hk|].
  intros body. destruct (decode_utf8 body); [apply sound_raise; exact I|].
  cbv zeta. destruct (PyStr.text_eqb _ _); [|apply sound_ret].
  apply sound_bind; [apply sound_delete_object; exact Hk|].
  intros; apply sound_ret.
Qed.

Lemma remove_scheduled_deletion_sound (user_id : string) :
  sound (scheduled_call user_id) (fault_of (listing_of ["scheduled-deletions/"]))
        (remove_scheduled_deletion user_id).
Proof.
  unfold remove_scheduled_deletion.
  apply sound_bind; [|intros; apply sound_ret].
  apply sound_paginate_until; [reflexivity|auto|].
  intros page Hpage.
  destruct (negb (has_contents page)); [apply sound_ret|].
  eapply sound_for_each_until; [exact Hpage|].
  intros key Hk. cbv beta in Hk.
  destruct (PyStr.contains user_id key) eqn:Hc; [|apply sound_ret].
  eapply sound_try_catch; [|intros; apply sound_ret].
  apply sound_bind; [|intros; apply sound_ret].
  apply sound_delete_object. cbn. auto.
Qed.

Lemma inventory_keys_incl (inv : inventory) (prefix : string) (keys : list string) :
  In (prefix, keys) inv -> incl keys (inventory_keys inv).
Proof.
  intros H k Hk. unfold inventory_keys. apply in_concat.
  exists keys. split; [|exact Hk].
  apply in_map_iff. exists (prefix, keys). auto.
Qed.

Lemma perform_direct_deletion_sound (inv : inventory) :
  sound (direct_call inv) no_exn (perform_direct_deletion inv).
Proof.
  unfold perform_direct_deletion.
  apply (sound_for_each _ _ (fun pk => In pk inv)).
  - apply Forall_forall. auto.
  - intros [prefix keys] s Hin.
    apply (sound_for_each _ _ (fun _ => True)).
    + apply Forall_forall. auto.
    + intros i s0 _. cbv zeta.
      eapply sound_try_catch; [|intros; apply sound_ret].
      apply sound_bind; [|intros [deleted errors]; apply sound_ret].
      apply sound_delete_objects. cbn.
      intros k Hk. apply slice_incl in Hk.
      eapply inventory_keys_incl; eauto.
Qed.

Lemma create_batch_operations_job_sound (user_id : string) (inv : inventory) :
  sound bulk_call any_exn (create_batch_operations_job user_id inv).
Proof.
  unfold create_batch_operations_job. cbv zeta.
  apply sound_bind; [apply sound_put_object; reflexivity|]. intros _.
  apply sound_bind; [apply sound_head_object; reflexivity|]. intros etag.
  apply sound_bind; [apply sound_create_job; exact I|]. intros job_id.
  apply sound_bind; [apply sound_put_object; reflexivity|]. intros _.
  apply sound_ret.
Qed.

Lemma cleanup_sound (user_id : string) :
  sound (cleanup_call user_id) any_exn
        (_ <- remove_identity_mappings user_id ;;
         remove_scheduled_deletion user_id).
Proof.
  apply sound_bind.
  - eapply sound_weaken; [| |apply remove_identity_mappings_sound].
    + intros c Hc. left. exact Hc.
    + intros; exact I.
  - intros _. eapply sound_weaken; [| |apply remove_scheduled_deletion_sound].
    + intros c Hc. right. exact Hc.
    + intros; exact I.
Qed.

Lemma delete_user_account_sound (user_id : string) :
  sound (account_call user_id) any_exn (delete_user_account user_id).
Proof.
  unfold delete_user_account.
  apply (sound_bind_post _ _
           (fun res => Forall (in_user_namespace user_id)
                              (inventory_keys (snd res)))).
  - eapply sound_weaken; [| |apply count_and_list_objects_sound].
    + intros c Hc. left. exact Hc.
    + intros; exact I.
  - intros w res w' H. apply count_and_list_objects_spec in H.
    destruct H as (_ & _ & _ & ->). apply scan_result_prefixed.
  - intros [object_count objects_by_prefix] HR. cbn [snd] in HR.
    destruct (object_count =? 0)%Z.
    + apply sound_bind.
      * eapply sound_weaken; [| |apply remove_identity_mappings_sound].
        -- intros c Hc. right. left. left. exact Hc.
        -- intros; exact I.
      * intros _. apply sound_bind; [|intros; apply sound_ret].
        eapply sound_weaken; [| |apply remove_scheduled_deletion_sound].
        -- intros c Hc. right. left. right. exact Hc.
        -- intros; exact I.
    + apply sound_bind.
      * apply (sound_try_catch _ _ any_exn); [|intros; apply sound_ret].
        eapply sound_weaken; [| |apply cleanup_sound]; [|auto].
        intros c Hc. right. left. exact Hc.
      * intros _. destruct (object_count <=? DELETION_THRESHOLD cfg)%Z.
        -- apply sound_bind; [|intros; apply sound_ret].
           eapply sound_weaken; [| |apply perform_direct_deletion_sound].
           ++ intros c Hc. right. right. left.
              destruct c; try contradiction. cbn in Hc |- *.
              rewrite Forall_forall in HR |- *. auto.
           ++ intros e [].
        -- apply sound_bind; [|intros; apply sound_ret].
           eapply sound_weaken; [| |apply create_batch_operations_job_sound].
           ++ intros c Hc. right. right. right. exact Hc.
           ++ intros; exact I.
Qed.

(** A scheduled-deletion record whose key does not contain the user's
    id is out of reach of every request of [delete_user_account]. *)
Lemma account_call_untouched (user_id k : string) (c : Call) :
  account_call user_id c ->
  PyStr.startswith "scheduled-deletions/" k = true ->
  PyStr.contains user_id k = false ->
  touches c k = false.
Proof.
  intros Hc Hk Hu.
  destruct Hc as [(p & j & _ & ->)|[[Hc|Hc]|[Hc|Hc]]]; [reflexivity| | | |].
  - destruct c; cbn in Hc |- *; try reflexivity; try contradiction.
    destruct (String.eqb_spec k key) as [->|]; [|reflexivity].
    pose proof (prefix_first_char _ _ _ _ _ Hk Hc). discriminate.
  - destruct c; cbn in Hc |- *; try reflexivity; try contradiction.
    destruct (String.eqb_spec k key) as [->|]; [|reflexivity].
    destruct Hc as [_ Hc]. congruence.
  - destruct c; cbn in Hc |- *; try reflexivity; try contradiction.
    destruct (existsb (String.eqb k) keys) eqn:Ex; [|reflexivity].
    apply existsb_exists in Ex as (k' & Hin & Heq).
    apply String.eqb_eq in Heq. subst k'.
    rewrite Forall_forall in Hc. destruct (Hc k Hin) as (p & Hp & Hpk).
    destruct Hp as [<-|[<-|[<-|[<-|[]]]]];
      pose proof (prefix_first_char _ _ _ _ _ Hk Hpk); discriminate.
  - destruct c; cbn in Hc |- *; try reflexivity; try contradiction.
    destruct (String.eqb_spec k key) as [->|]; [|reflexivity].
    pose proof (prefix_first_char _ _ _ _ _ Hk Hc). discriminate.
Qed.

(** ** The single-user workflow, branch by branch *)



(** The guarded clean-up of the non-empty branches never raises. *)
Lemma guarded_cleanup_run (user_id : string) (w : World) :
  exists w' cs,
    try_catch
      (_ <- remove_identity_mappings user_id ;;
       remove_scheduled_deletion user_id)
      (fun e => ret tt) w = (Ok tt, w')
    /\ trace w' = (rev cs ++ trace w)%list
    /\ Forall (cleanup_call user_id) cs.
Proof.
  destruct (cleanup_sound user_id w) as (cs & Ht & Hf & _).
  unfold try_catch.
  destruct ((_ <- remove_identity_mappings user_id ;;
             remove_scheduled_deletion user_id) w) as [[[]|e] w1];
    cbn [snd] in Ht; exists w1, cs; auto.
Qed.


Lemma delete_user_account_after_scan (user_id : string) (w w1 : World)
    (object_count : Z) (objects_by_prefix : inventory) :
  count_and_list_objects user_id w = (Ok (object_count, objects_by_prefix), w1) ->
  delete_user_account user_id w
  = (if (object_count =? 0)%Z then
       _ <- remove_identity_mappings user_id ;;
       _ <- remove_scheduled_deletion user_id ;;
       ret (empty_result user_id)
     else
       _ <- try_catch
              (_ <- remove_identity_mappings user_id ;;
               remove_scheduled_deletion user_id)
              (fun e => ret tt) ;;
       if (object_count <=? DELETION_THRESHOLD cfg)%Z then
         deleted_count <- perform_direct_deletion objects_by_prefix ;;
         ret (direct_result user_id object_count deleted_count)
       else
         job_id <- create_batch_operations_job user_id objects_by_prefix ;;
         ret (batch_result user_id job_id object_count)) w1.
Proof.
  intros E. unfold delete_user_account. erewrite bind_ok by exact E. reflexivity.
Qed.



(** ** The bulk-job path *)




Lemma has_char_app (c : ascii) (s1 s2 : string) :
  PyStr.has_char c (s1 ++ s2) = PyStr.has_char c s1 || PyStr.has_char c s2.
Proof.
  induction s1 as [|c1 s1 IH]; cbn [String.append PyStr.has_char]; [reflexivity|].
  rewrite IH. apply orb_assoc.
Qed.


Lemma manifest_key_not_metadata (user_id job_id : string) :
  String.eqb (manifest_key_of user_id)
             ("batch-jobs/metadata/" ++ job_id ++ ".json") = false.
Proof. reflexivity. Qed.

Lemma sum_of_lengths (inv : inventory) :
  forall acc,
    fold_left Z.add (map (fun pk => Z.of_nat (length (snd pk))) inv) acc
    = (acc + Z.of_nat (length (inventory_keys inv)))%Z.
Proof.
  unfold inventory_keys.
  induction inv as [|[prefix keys] inv IH]; intros acc;
    cbn [map fold_left concat snd length].
  - lia.
  - rewrite IH, length_app. lia.
Qed.

(** The run of [create_batch_operations_job], request by request. *)
Lemma create_batch_operations_job_run (user_id : string) (inv : inventory)
    (w : World) :
  let n := length (trace w) in
  let job_id := job_id_of prov (S (S n)) in
  let cs := bulk_requests user_id job_id inv in
  exists issued w',
    create_batch_operations_job user_id inv w
    = (match first_fault n cs with
       | Some e => Raise e
       | None => Ok job_id
       end, w')
    /\ trace w' = (rev issued ++ trace w)%list
    /\ issued = firstn (length issued) cs
    /\ first_fault n issued = first_fault n cs
    /\ (first_fault n cs = None ->
        issued = cs
        /\ objects w'
           = store_put ("batch-jobs/metadata/" ++ job_id ++ ".json")
               (json_dumps rt (job_metadata user_id job_id inv))
               (store_put (manifest_key_of user_id)
                  (create_deletion_manifest inv) (objects w)))
    /\ (first_fault n (firstn 1 cs) <> None ->
        objects w' = objects w /\ jobs w' = jobs w /\ length issued = 1)
    /\ (forall e, first_fault n cs = Some e ->
                  exists c earlier,
                    issued = (earlier ++ [c])%list
                    /\ fault prov (n + length earlier) c = Some e).
Proof.
  cbv zeta.
  unfold create_batch_operations_job, put_object, head_object, create_job,
    bind, request, update_objects, ret, bulk_requests.
  cbv beta zeta. cbn [first_fault firstn].
  fold (job_metadata user_id (job_id_of prov (S (S (length (trace w))))) inv).
  destruct (fault prov (length (trace w)) (PutObject _ _)) as [e1|] eqn:F1.
  { eexists [_]. eexists. split; [reflexivity|]. cbn [rev app length firstn].
    split; [reflexivity|]. split; [reflexivity|].
    cbn [first_fault]. rewrite F1.
    split; [reflexivity|]. split; [discriminate|].
    split; [intros _; repeat split|].
    intros e He. inversion He; subst.
    eexists. exists []. split; [reflexivity|].
    cbn [length]. rewrite Nat.add_0_r. exact F1. }
  cbn [trace objects jobs length].
  destruct (fault prov (S (length (trace w))) (HeadObject _)) as [e2|] eqn:F2.
  { eexists [_; _]. eexists. split; [reflexivity|]. cbn [rev app length firstn].
    split; [reflexivity|]. split; [reflexivity|].
    cbn [first_fault]. rewrite F1, F2.
    split; [reflexivity|]. split; [discriminate|].
    split; [intros H; contradiction H; reflexivity|].
    intros e He. inversion He; subst.
    eexists. eexists [_]. split; [reflexivity|].
    cbn [length]. rewrite Nat.add_1_r. exact F2. }
  cbn [trace objects jobs length]. rewrite assoc_store_put_same.
  cbv beta iota. cbn [trace objects jobs length].
  destruct (fault prov (S (S (length (trace w)))) (CreateJob _)) as [e3|] eqn:F3.
  { eexists [_; _; _]. eexists. split; [reflexivity|].
    cbn [rev app length firstn].
    split; [reflexivity|]. split; [reflexivity|].
    cbn [first_fault]. rewrite F1, F2, F3.
    split; [reflexivity|]. split; [discriminate|].
    split; [intros H; contradiction H; reflexivity|].
    intros e He. inversion He; subst.
    eexists. eexists [_; _]. split; [reflexivity|].
    cbn [length]. replace (length (trace w) + 2) with (S (S (length (trace w))))
      by lia. exact F3. }
  cbn [trace objects jobs length].
  destruct (fault prov (S (S (S (length (trace w))))) (PutObject _ _))
    as [e4|] eqn:F4.
  { eexists [_; _; _; _]. eexists. split; [reflexivity|].
    cbn [rev app length firstn].
    split; [reflexivity|]. split; [reflexivity|].
    cbn [first_fault]. rewrite F1, F2, F3, F4.
    split; [reflexivity|]. split; [discriminate|].
    split; [intros H; contradiction H; reflexivity|].
    intros e He. inversion He; subst.
    eexists. eexists [_; _; _]. split; [reflexivity|].
    cbn [length].
    replace (length (trace w) + 3) with (S (S (S (length (trace w))))) by lia.
    exact F4. }
  eexists [_; _; _; _]. eexists. split; [reflexivity|].
  cbn [rev app length firstn].
  split; [reflexivity|]. split; [reflexivity|].
  cbn [first_fault]. rewrite F1, F2, F3, F4.
  split; [reflexivity|]. split; [intros _; split; reflexivity|].
  split; [intros H; contradiction H; reflexivity|].
  discriminate.
Qed.

(** The client refuses the [create_job] of the bulk path: it is for
    ['S3DeleteObject'], which is no operation of the interface. *)
Lemma bulk_job_refused (user_id manifest_key manifest_etag : string) (n : nat) :
  fault prov n (CreateJob (job_request user_id manifest_key manifest_etag))
  = Some (rejection prov (job_request user_id manifest_key manifest_etag)).
Proof. apply create_job_refused. reflexivity. Qed.

Lemma bulk_requests_fail (user_id job_id : string) (inv : inventory) (n : nat) :
  first_fault n (bulk_requests user_id job_id inv) <> None.
Proof.
  unfold bulk_requests. cbn [first_fault].
  destruct (fault prov n _); [discriminate|].
  destruct (fault prov (S n) _); [discriminate|].
  rewrite bulk_job_refused. discriminate.
Qed.

(** When the manifest is uploaded and its ETag read back, the job's
    creation is the third and last request of the bulk path. *)
Lemma create_batch_operations_job_stops (user_id : string) (inv : inventory)
    (w : World) :
  fault prov (length (trace w))
    (PutObject (manifest_key_of user_id) (create_deletion_manifest inv)) = None ->
  fault prov (S (length (trace w))) (HeadObject (manifest_key_of user_id))
  = None ->
  create_batch_operations_job user_id inv w
  = (Raise (rejection prov
              (job_request user_id (manifest_key_of user_id)
                 (PyStr.strip_quotes
                    (etag_of prov (create_deletion_manifest inv))))),
     {| objects := store_put (manifest_key_of user_id)
                     (create_deletion_manifest inv) (objects w);
        jobs := jobs w;
        trace := [CreateJob
                    (job_request user_id (manifest_key_of user_id)
                       (PyStr.strip_quotes
                          (etag_of prov (create_deletion_manifest inv))));
                  HeadObject (manifest_key_of user_id);
                  PutObject (manifest_key_of user_id)
                    (create_deletion_manifest inv)] ++ trace w |}).
Proof.
  intros F1 F2.
  unfold create_batch_operations_job, put_object, head_object, create_job,
    bind, request, update_objects, ret.
  cbv beta zeta. rewrite F1. cbn [trace objects jobs length].
  rewrite F2. cbn [trace objects jobs length].
  rewrite assoc_store_put_same. cbv beta iota.
  cbn [trace objects jobs length].
  rewrite bulk_job_refused. reflexivity.
Qed.



(** ** The clean-up of auxiliary records when no request fails *)

Lemma remove_keys_nil (objs : list (string * string)) :
  remove_keys [] objs = objs.
Proof.
  unfold remove_keys. induction objs as [|kv objs IH]; cbn; [reflexivity|].
  f_equal. exact IH.
Qed.

Lemma remove_keys_twice (d1 d2 : list string) (objs : list (string * string)) :
  remove_keys d2 (remove_keys d1 objs) = remove_keys (d1 ++ d2) objs.
Proof.
  unfold remove_keys. induction objs as [|kv objs IH]; cbn [filter]; [reflexivity|].
  rewrite existsb_app.
  destruct (existsb (String.eqb (fst kv)) d1); cbn [negb orb filter].
  - exact IH.
  - destruct (existsb (String.eqb (fst kv)) d2); cbn [negb]; rewrite IH;
      reflexivity.
Qed.

Lemma assoc_in_keys {B : Type} (k : string) (v : B) (d : list (string * B)) :
  assoc k d = Some v -> In k (map fst d).
Proof.
  induction d as [|[k' v'] d IH]; cbn [assoc map fst]; [discriminate|].
  destruct (String.eqb_spec k k') as [->|_]; [left; reflexivity|].
  intros H. right. exact (IH H).
Qed.

Lemma in_keys_assoc {B : Type} (k : string) (d : list (string * B)) :
  In k (map fst d) -> exists v, assoc k d = Some v.
Proof.
  induction d as [|[k' v'] d IH]; cbn [assoc map fst]; [intros []|].
  intros H. destruct (String.eqb_spec k k') as [->|Hne]; [eauto|].
  destruct H as [H|H]; [congruence|exact (IH H)].
Qed.



(** *** remove_scheduled_deletion *)

Lemma scheduled_keys_run (user_id : string) (keys : list string) :
  no_fault ->
  forall w,
    for_each_until keys
      (fun key =>
         if PyStr.contains user_id key
         then try_catch
                (_ <- delete_object key ;; ret true)
                (fun e => ret false)
         else ret false) w
    = match find (PyStr.contains user_id) keys with
      | Some k =>
          (Ok true,
           {| objects := remove_key k (objects w);
              jobs := jobs w;
              trace := DeleteObject k :: trace w |})
      | None => (Ok false, w)
      end.
Proof.
  intros Hnf. induction keys as [|key keys IH]; intros w;
    cbn [for_each_until find]; [reflexivity|].
  destruct (PyStr.contains user_id key).
  - unfold try_catch, delete_object, bind, request, update_objects, ret.
    cbv beta. rewrite (no_fault_request _ _ Hnf) by (intros req H; discriminate H). reflexivity.
  - unfold bind at 1. cbn [ret]. apply IH.
Qed.

Lemma find_app {A : Type} (f : A -> bool) (l1 l2 : list A) :
  find f (l1 ++ l2)
  = match find f l1 with
    | Some x => Some x
    | None => find f l2
    end.
Proof.
  induction l1 as [|x l1 IH]; cbn [app find]; [reflexivity|].
  destruct (f x); [reflexivity|exact IH].
Qed.

Lemma scheduled_pages_run (user_id prefix : string) (pages : list (list string)) :
  no_fault ->
  forall i w,
  exists w' cs,
    fetch_pages_until prefix i pages
      (fun page =>
         if negb (has_contents page) then ret false
         else
           for_each_until page
             (fun key =>
                if PyStr.contains user_id key
                then try_catch
                       (_ <- delete_object key ;; ret true)
                       (fun e => ret false)
                else ret false)) w
    = (Ok (match find (PyStr.contains user_id) (concat pages) with
           | Some _ => true
           | None => false
           end), w')
    /\ objects w'
       = match find (PyStr.contains user_id) (concat pages) with
         | Some k => remove_key k (objects w)
         | None => objects w
         end
    /\ jobs w' = jobs w
    /\ trace w' = (rev cs ++ trace w)%list
    /\ forall k, In (DeleteObject k) cs ->
                 find (PyStr.contains user_id) (concat pages) = Some k.
Proof.
  intros Hnf. induction pages as [|page pages IH]; intros i w;
    cbn [fetch_pages_until concat].
  - exists w, []. cbn. repeat split; auto. intros k [].
  - unfold bind at 1. unfold request. rewrite (no_fault_request _ _ Hnf) by (intros req H; discriminate H).
    set (w0 := {| objects := objects w; jobs := jobs w;
                  trace := ListObjectsV2 prefix i :: trace w |}).
    assert (Hpage :
      (if negb (has_contents page) then ret false
       else
         for_each_until page
           (fun key =>
              if PyStr.contains user_id key
              then try_catch
                     (_ <- delete_object key ;; ret true)
                     (fun e => ret false)
              else ret false)) w0
      = match find (PyStr.contains user_id) page with
        | Some k =>
            (Ok true,
             {| objects := remove_key k (objects w0);
                jobs := jobs w0;
                trace := DeleteObject k :: trace w0 |})
        | None => (Ok false, w0)
        end).
    { destruct page as [|key page]; [reflexivity|].
      cbn [has_contents negb]. apply scheduled_keys_run, Hnf. }
    rewrite find_app.
    destruct (find (PyStr.contains user_id) page) as [k|] eqn:Ef.
    + erewrite bind_ok by exact Hpage.
      eexists. exists [ListObjectsV2 prefix i; DeleteObject k].
      split; [reflexivity|]. cbn. repeat split; auto.
      intros k0 [H|[H|[]]]; [discriminate|]. inversion H. reflexivity.
    + erewrite bind_ok by exact Hpage.
      destruct (IH (S i) w0) as (w' & cs & E & Ho & Hj & Ht & Hd).
      exists w', (ListObjectsV2 prefix i :: cs).
      split; [exact E|]. split; [exact Ho|]. split; [exact Hj|]. split.
      * rewrite Ht. cbn [rev trace w0]. rewrite <- app_assoc. reflexivity.
      * intros k0 [H|H]; [discriminate|]. exact (Hd k0 H).
Qed.

Lemma remove_scheduled_deletion_no_fault (user_id : string) (w : World) :
  no_fault ->
  exists w' cs,
    remove_scheduled_deletion user_id w = (Ok tt, w')
    /\ objects w'
       = match scheduled_entry user_id (objects w) with
         | Some k => remove_key k (objects w)
         | None => objects w
         end
    /\ jobs w' = jobs w
    /\ trace w' = (rev cs ++ trace w)%list
    /\ forall k, In (DeleteObject k) cs ->
                 scheduled_entry user_id (objects w) = Some k.
Proof.
  intros Hnf. unfold remove_scheduled_deletion, paginate_until, scheduled_entry.
  destruct (scheduled_pages_run user_id "scheduled-deletions/"
              (pages_of (list_keys "scheduled-deletions/" (objects w)))
              Hnf 0 w) as (w' & cs & E & Ho & Hj & Ht & Hd).
  rewrite pages_of_concat in *.
  exists w', cs. split.
  - unfold bind at 1. cbv beta. rewrite E. reflexivity.
  - auto.
Qed.

(** *** remove_identity_mappings *)

Lemma identity_matches_mono (user_id key : string)
    (objs objs' : list (string * string)) :
  (forall b, assoc key objs' = Some b -> assoc key objs = Some b) ->
  identity_matches user_id objs' key = true ->
  identity_matches user_id objs key = true.
Proof.
  unfold identity_matches. intros Hm H.
  apply andb_true_iff in H as [Hk Hb]. rewrite Hk. cbn [andb].
  destruct (assoc key objs') as [b|]; [|discriminate].
  rewrite (Hm b eq_refl). exact Hb.
Qed.

(** One turn of the loop of [remove_identity_mappings] over the keys of
    a page. *)
Lemma identity_key_run (user_id key : string) (count : Z) (w : World) :
  no_fault ->
  exists count' w',
    (if String.eqb key "identities/" then ret count
     else
       try_catch
         (body <- get_object key ;;
          match decode_utf8 body with
          | inl e => raise e
          | inr text =>
              let content := PyStr.strip text in
              if PyStr.text_eqb content (PyStr.code_points user_id)
              then _ <- delete_object key ;;
                   ret (count + 1)%Z
              else ret count
          end)
         (fun e => ret count)) w
    = (Ok count', w')
    /\ jobs w' = jobs w
    /\ (if identity_matches user_id (objects w) key
        then objects w' = remove_key key (objects w)
             /\ trace w' = DeleteObject key :: GetObject key :: trace w
        else objects w' = objects w
             /\ (trace w' = trace w \/ trace w' = GetObject key :: trace w)).
Proof.
  intros Hnf. unfold identity_matches, maps_to.
  destruct (String.eqb key "identities/"); cbn [negb andb].
  - exists count, w. cbn. auto.
  - unfold try_catch, get_object, delete_object, bind, request, update_objects,
      ret, raise.
    cbv beta. rewrite (no_fault_request _ _ Hnf) by (intros req H; discriminate H). cbn [objects jobs trace].
    destruct (assoc key (objects w)) as [body|].
    + destruct (decode_utf8 body) as [e|text].
      * eexists. eexists. split; [reflexivity|]. cbn. auto.
      * cbv zeta. destruct (PyStr.text_eqb (PyStr.strip text) (PyStr.code_points user_id)).
        -- rewrite (no_fault_request _ _ Hnf) by (intros req H; discriminate H). eexists. eexists. split; [reflexivity|]. cbn. auto.
        -- eexists. eexists. split; [reflexivity|]. cbn. auto.
    + eexists. eexists. split; [reflexivity|]. cbn. auto.
Qed.

Lemma identity_matches_absent (user_id key : string)
    (objs : list (string * string)) :
  assoc key objs = None -> identity_matches user_id objs key = false.
Proof.
  unfold identity_matches. intros ->. apply andb_false_r.
Qed.

Lemma identity_matches_removed (user_id key : string) (removed : list string)
    (objs : list (string * string)) :
  identity_matches user_id (remove_keys removed objs) key = true ->
  identity_matches user_id objs key = true.
Proof.
  apply identity_matches_mono. intros b. apply assoc_remove_keys_some.
Qed.

Lemma identity_run_idle (user_id : string) (w w' : World) :
  objects w' = objects w -> jobs w' = jobs w ->
  (exists cs, trace w' = (rev cs ++ trace w)%list
              /\ forall k, ~ In (DeleteObject k) cs) ->
  identity_run user_id [] w w'.
Proof.
  intros Ho Hj (cs & Ht & Hd). split; [exact Hj|].
  exists [], cs. rewrite remove_keys_nil.
  split; [exact Ho|]. split; [constructor|]. split; [intros k []|].
  split; [exact Ht|]. intros k Hk. exact (Hd k Hk).
Qed.

Lemma identity_run_app (user_id : string) (keys1 keys2 : list string)
    (w w1 w2 : World) :
  identity_run user_id keys1 w w1 ->
  identity_run user_id keys2 w1 w2 ->
  identity_run user_id (keys1 ++ keys2) w w2.
Proof.
  intros (Hj1 & d1 & cs1 & Ho1 & Hf1 & Hp1 & Ht1 & Hd1)
         (Hj2 & d2 & cs2 & Ho2 & Hf2 & Hp2 & Ht2 & Hd2).
  split; [congruence|].
  exists (d1 ++ d2)%list, (cs1 ++ cs2)%list.
  split; [rewrite Ho2, Ho1; apply remove_keys_twice|].
  split.
  { apply Forall_app. split.
    - eapply Forall_impl; [|exact Hf1]. cbv beta. intros k [Hin Hm].
      split; [apply in_or_app; left; exact Hin|exact Hm].
    - eapply Forall_impl; [|exact Hf2]. cbv beta. intros k [Hin Hm].
      split; [apply in_or_app; right; exact Hin|].
      rewrite Ho1 in Hm. eapply identity_matches_removed. exact Hm. }
  split.
  { intros k Hin. apply in_app_or in Hin as [Hin|Hin]; [|exact (Hp2 k Hin)].
    destruct (identity_matches user_id (objects w2) k) eqn:Em; [|reflexivity].
    rewrite Ho2 in Em. apply identity_matches_removed in Em.
    rewrite (Hp1 k Hin) in Em. discriminate. }
  split.
  { rewrite Ht2, Ht1, rev_app_distr, app_assoc. reflexivity. }
  intros k Hin. apply in_or_app.
  apply in_app_or in Hin as [Hin|Hin]; [left; exact (Hd1 k Hin)|].
  right. exact (Hd2 k Hin).
Qed.

Lemma identity_step_run (user_id key : string) (count : Z) (w : World) :
  no_fault ->
  exists count' w',
    identity_step user_id key count w = (Ok count', w')
    /\ identity_run user_id [key] w w'.
Proof.
  intros Hnf.
  destruct (identity_key_run user_id key count w Hnf)
    as (count' & w' & E & Hj & Hcase).
  exists count', w'. split; [exact E|]. split; [exact Hj|].
  destruct (identity_matches user_id (objects w) key) eqn:Em.
  - destruct Hcase as [Ho Ht].
    exists [key], [GetObject key; DeleteObject key].
    split; [exact Ho|]. split; [repeat constructor; exact Em|]. split.
    + intros k [<-|[]]. apply identity_matches_absent. rewrite Ho.
      apply (assoc_remove_keys_in key [key]). cbn.
      rewrite String.eqb_refl. reflexivity.
    + split; [exact Ht|].
      intros k [H|[H|[]]]; [discriminate|]. inversion H. left. reflexivity.
  - destruct Hcase as [Ho [Ht|Ht]].
    + exists [], []. rewrite remove_keys_nil.
      split; [exact Ho|]. split; [constructor|]. split.
      * intros k [<-|[]]. rewrite Ho. exact Em.
      * split; [exact Ht|]. intros k [].
    + exists [], [GetObject key]. rewrite remove_keys_nil.
      split; [exact Ho|]. split; [constructor|]. split.
      * intros k [<-|[]]. rewrite Ho. exact Em.
      * split; [exact Ht|]. intros k [H|[]]. discriminate.
Qed.

Lemma identity_keys_run (user_id : string) (keys : list string) :
  no_fault ->
  forall count w,
  exists count' w',
    for_each keys (identity_step user_id) count w = (Ok count', w')
    /\ identity_run user_id keys w w'.
Proof.
  intros Hnf. induction keys as [|key keys IH]; intros count w; cbn [for_each].
  - exists count, w. split; [reflexivity|].
    apply identity_run_idle; auto. exists []. split; [reflexivity|]. intros k [].
  - destruct (identity_step_run user_id key count w Hnf)
      as (c1 & w1 & E1 & R1).
    destruct (IH c1 w1) as (c2 & w2 & E2 & R2).
    exists c2, w2. split.
    + erewrite bind_ok by exact E1. exact E2.
    + apply (identity_run_app user_id [key] keys w w1 w2 R1 R2).
Qed.

Lemma identity_pages_run (user_id prefix : string) (pages : list (list string)) :
  no_fault ->
  forall i count w,
  exists count' w',
    fetch_pages prefix i pages
      (fun page removed_count =>
         if negb (has_contents page) then ret removed_count
         else for_each page (identity_step user_id) removed_count)
      count w
    = (Ok count', w')
    /\ identity_run user_id (concat pages) w w'.
Proof.
  intros Hnf. induction pages as [|page pages IH]; intros i count w;
    cbn [fetch_pages concat].
  - exists count, w. split; [reflexivity|].
    apply identity_run_idle; auto. exists []. split; [reflexivity|]. intros k [].
  - set (w0 := {| objects := objects w; jobs := jobs w;
                  trace := ListObjectsV2 prefix i :: trace w |}).
    assert (E0 : request (ListObjectsV2 prefix i) w = (Ok (length (trace w)), w0)).
    { unfold request. rewrite (no_fault_request _ _ Hnf) by (intros req H; discriminate H). reflexivity. }
    assert (R0 : identity_run user_id [] w w0).
    { apply identity_run_idle; auto. exists [ListObjectsV2 prefix i].
      split; [reflexivity|]. intros k [H|[]]. discriminate. }
    destruct (identity_keys_run user_id page Hnf count w0)
      as (c1 & w1 & E1 & R1).
    assert (E1' :
      (if negb (has_contents page) then ret count
       else for_each page (identity_step user_id) count) w0 = (Ok c1, w1)).
    { destruct page; exact E1. }
    destruct (IH (S i) c1 w1) as (c2 & w2 & E2 & R2).
    exists c2, w2. split.
    + erewrite bind_ok by exact E0. cbv beta.
      erewrite bind_ok by exact E1'. exact E2.
    + apply (identity_run_app user_id page (concat pages) w w1 w2); [|exact R2].
      apply (identity_run_app user_id [] page w w0 w1 R0 R1).
Qed.

Lemma remove_identity_mappings_no_fault (user_id : string) (w : World) :
  no_fault ->
  exists w',
    remove_identity_mappings user_id w = (Ok tt, w')
    /\ identity_run user_id (list_keys "identities/" (objects w)) w w'.
Proof.
  intros Hnf.
  destruct (identity_pages_run user_id "identities/"
              (pages_of (list_keys "identities/" (objects w))) Hnf 0 0%Z w)
    as (count' & w' & E & R).
  rewrite pages_of_concat in R.
  exists w'. split; [|exact R].
  unfold remove_identity_mappings. cbv zeta.
  erewrite bind_ok; [reflexivity|]. exact E.
Qed.

Lemma filter_all {A : Type} (f : A -> bool) (l : list A) :
  (forall x, In x l -> f x = true) -> filter f l = l.
Proof.
  induction l as [|x l IH]; cbn [filter]; [reflexivity|].
  intros H. rewrite (H x (or_introl eq_refl)). f_equal.
  apply IH. intros y Hy. apply H. right. exact Hy.
Qed.





(** No clean-up request writes or deletes a key of a per-user object
    namespace, of this user or of any other. *)
Lemma cleanup_call_outside_namespaces (user_id other k : string) (c : Call) :
  listing_of (user_prefixes user_id) c \/ cleanup_call user_id c ->
  in_user_namespace other k ->
  touches c k = false.
Proof.
  intros Hc (p & Hp & Hpk).
  destruct Hc as [(q & j & _ & ->)|[Hc|Hc]]; [reflexivity| |].
  - destruct c; cbn in Hc |- *; try reflexivity; try contradiction.
    destruct (String.eqb_spec k key) as [->|]; [|reflexivity].
    destruct Hp as [<-|[<-|[<-|[<-|[]]]]];
      pose proof (prefix_first_char _ _ _ _ _ Hpk Hc); discriminate.
  - destruct c; cbn in Hc |- *; try reflexivity; try contradiction.
    destruct (String.eqb_spec k key) as [->|]; [|reflexivity].
    destruct Hc as [Hc _].
    destruct Hp as [<-|[<-|[<-|[<-|[]]]]];
      pose proof (prefix_first_char _ _ _ _ _ Hpk Hc); discriminate.
Qed.

(** ** Running the clean-up twice *)









(** ** The user's own scheduled-deletion entry *)









(** ** The sweep of scheduled deletions *)

Lemma process_entry_sound (key : string) (results : list value) :
  sound (entry_call key) no_exn (process_entry key results).
Proof.
  unfold process_entry. cbv zeta.
  apply (sound_try_catch _ _ any_exn); [|intros; apply sound_ret].
  apply sound_bind.
  - apply sound_get_object. left. reflexivity.
  - intros body. destruct (parse_delete_on rt body) as [e|delete_on];
      [apply sound_raise; exact I|].
    destruct (delete_on <=? now rt)%Z; [|apply sound_ret].
    apply sound_bind; [|intros; apply sound_ret].
    eapply sound_weaken; [| |apply delete_user_account_sound]; [|auto].
    intros c Hc. right. exact Hc.
Qed.

Lemma process_entry_returns (key : string) (results : list value) (w : World) :
  exists results', fst (process_entry key results w) = Ok results'.
Proof.
  destruct (process_entry_sound key results w) as (_ & _ & _ & _ & He).
  destruct (fst (process_entry key results w)) as [r|e]; [eauto|].
  destruct (He e eq_refl).
Qed.

(** Handling an entry that is not yet due: its body is read, and that
    is all. *)
Lemma process_entry_not_due (key body : string) (delete_on : Z)
    (results : list value) (w : World) :
  fst (get_object key w) = Ok body ->
  parse_delete_on rt body = inr delete_on ->
  (now rt < delete_on)%Z ->
  process_entry key results w = (Ok results, snd (get_object key w))
  /\ objects (snd (get_object key w)) = objects w
  /\ new_calls w (snd (get_object key w)) = [GetObject key].
Proof.
  intros Hget Hparse Hlater.
  destruct (get_object key w) as [r w0] eqn:E. cbn [fst snd] in *. subst r.
  split.
  - unfold process_entry. cbv zeta.
    erewrite try_catch_ok; [reflexivity|].
    erewrite bind_ok by exact E. rewrite Hparse.
    destruct (Z.leb_spec delete_on (now rt)); [lia|reflexivity].
  - unfold get_object, bind, request in E.
    destruct (fault prov (length (trace w)) (GetObject key)); [discriminate|].
    cbn [objects] in E.
    destruct (assoc key (objects w)); inversion E; subst.
    split; [reflexivity|].
    apply (new_calls_app _ _ [GetObject key]). reflexivity.
Qed.

(** Handling an entry that is due: the single-user workflow is run for
    the user id of its key and its outcome, result or error, is
    recorded. *)
Lemma process_entry_due (key body : string) (delete_on : Z)
    (results : list value) (w : World) :
  fst (get_object key w) = Ok body ->
  parse_delete_on rt body = inr delete_on ->
  (delete_on <= now rt)%Z ->
  process_entry key results w
  = match delete_user_account (entry_user_id key) (snd (get_object key w)) with
    | (Ok result, w') =>
        (Ok (results
             ++ [VDict (dict_merge [("userId", VStr (entry_user_id key))]
                          result)])%list, w')
    | (Raise e, w') =>
        (Ok (results ++ [error_entry (entry_user_id key) e])%list, w')
    end.
Proof.
  intros Hget Hparse Hdue.
  destruct (get_object key w) as [r w0] eqn:E. cbn [fst snd] in *. subst r.
  unfold process_entry. cbv zeta. unfold try_catch at 1.
  erewrite bind_ok by exact E. rewrite Hparse.
  destruct (Z.leb_spec delete_on (now rt)); [|lia].
  fold (entry_user_id key). unfold bind.
  destruct (delete_user_account (entry_user_id key) w0) as [[result|e] w'];
    reflexivity.
Qed.

(** An entry that cannot be read or parsed is recorded as an error. *)
Lemma process_entry_unreadable (key : string) (results : list value) (w : World)
    (e : exn) :
  fst (get_object key w) = Raise e
  \/ (exists body, fst (get_object key w) = Ok body
                   /\ parse_delete_on rt body = inl e) ->
  process_entry key results w
  = (Ok (results ++ [error_entry (entry_user_id key) e])%list,
     snd (get_object key w)).
Proof.
  intros H. destruct (get_object key w) as [r w0] eqn:E. cbn [fst snd] in *.
  unfold process_entry. cbv zeta. unfold try_catch.
  destruct H as [->|(body & -> & Hparse)].
  - erewrite bind_raise by exact E. reflexivity.
  - erewrite bind_ok by exact E. rewrite Hparse. reflexivity.
Qed.

Lemma get_object_spec (key : string) (w : World) :
  objects (snd (get_object key w)) = objects w
  /\ forall body, fst (get_object key w) = Ok body ->
                  assoc key (objects w) = Some body.
Proof.
  unfold get_object, bind, request.
  destruct (fault prov (length (trace w)) (GetObject key)); cbn [objects];
    [split; [reflexivity|discriminate]|].
  destruct (assoc key (objects w)); cbn; split; try reflexivity;
    intros b H; inversion H; reflexivity.
Qed.

(** Handling one entry leaves a not-yet-due entry in place, unless the
    key of that entry contains the user id of the entry handled. *)
Lemma process_entry_keeps (key k body : string) (delete_on : Z)
    (results : list value) (w : World) :
  PyStr.startswith "scheduled-deletions/" k = true ->
  assoc k (objects w) = Some body ->
  parse_delete_on rt body = inr delete_on ->
  (now rt < delete_on)%Z ->
  (key <> k -> PyStr.contains (entry_user_id key) k = false) ->
  assoc k (objects (snd (process_entry key results w))) = Some body.
Proof.
  intros Hk Hb Hparse Hlater Hother.
  destruct (string_dec key k) as [->|Hne].
  - destruct (get_object_spec k w) as [Ho Hget].
    destruct (fst (get_object k w)) as [b|e] eqn:E.
    + specialize (Hget b eq_refl). rewrite Hb in Hget. inversion Hget; subst b.
      destruct (process_entry_not_due k body delete_on results w E Hparse Hlater)
        as (Hrun & _ & _).
      rewrite Hrun. cbn [snd]. rewrite Ho. exact Hb.
    + rewrite (process_entry_unreadable k results w e) by (left; exact E).
      cbn [snd]. rewrite Ho. exact Hb.
  - destruct (process_entry_sound key results w) as (cs & _ & Hf & Hframe & _).
    rewrite Hframe; [exact Hb|].
    eapply Forall_impl; [|exact Hf]. intros c [->|Hc]; [reflexivity|].
    eapply account_call_untouched; eauto.
Qed.

Lemma sweep_loop_keeps (k body : string) (delete_on : Z) (keys : list string) :
  PyStr.startswith "scheduled-deletions/" k = true ->
  parse_delete_on rt body = inr delete_on ->
  (now rt < delete_on)%Z ->
  (forall key, In key keys -> key <> k ->
               PyStr.contains (entry_user_id key) k = false) ->
  forall results w,
    assoc k (objects w) = Some body ->
    assoc k (objects (snd (for_each keys process_entry results w))) = Some body.
Proof.
  intros Hk Hparse Hlater. induction keys as [|key keys IH];
    intros Hother results w Hb; cbn [for_each]; [exact Hb|].
  destruct (process_entry_returns key results w) as (results' & Hr).
  pose proof (process_entry_keeps key k body delete_on results w Hk Hb Hparse
                Hlater (Hother key (or_introl eq_refl))) as Hkeep.
  erewrite bind_ok by (apply run_fst; exact Hr).
  apply IH; [|exact Hkeep].
  intros key' Hin. apply Hother. right. exact Hin.
Qed.

Lemma sweep_loop_returns (keys : list string) (results : list value) (w : World) :
  exists results', fst (for_each keys process_entry results w) = Ok results'.
Proof.
  assert (Hs : sound (fun _ => True) no_exn (for_each keys process_entry results)).
  { apply (sound_for_each _ _ (fun _ => True)); [apply Forall_forall; auto|].
    intros key s _. eapply sound_weaken; [| |apply process_entry_sound]; auto. }
  destruct (Hs w) as (_ & _ & _ & _ & He).
  destruct (fst (for_each keys process_entry results w)) as [r|e]; [eauto|].
  destruct (He e eq_refl).
Qed.

Lemma list_objects_v2_spec (prefix : string) (w : World) :
  objects (snd (list_objects_v2 prefix w)) = objects w
  /\ forall contents,
       fst (list_objects_v2 prefix w) = Ok contents ->
       contents = firstn PAGE_SIZE (list_keys prefix (objects w)).
Proof.
  unfold list_objects_v2, bind, request.
  destruct (fault prov (length (trace w)) (ListObjectsV2 prefix 0)); cbn;
    split; try reflexivity; try discriminate.
  intros contents H. inversion H. reflexivity.
Qed.

(** The sweep as a whole: it lists today's bucket, handles the entries
    in turn starting from no outcome, and reports their number. *)
Lemma process_scheduled_deletions_run (w : World) :
  let listed := list_objects_v2 ("scheduled-deletions/" ++ date_key rt ++ "/") w in
  process_scheduled_deletions w
  = match listed with
    | (Raise e, w0) =>
        (Ok [("processed", VInt 0); ("error", VStr (exn_str e))], w0)
    | (Ok contents, w0) =>
        if negb (has_contents contents) then
          (Ok [("processed", VInt 0);
               ("message", VStr "No scheduled deletions for today")], w0)
        else
          match for_each contents process_entry [] w0 with
          | (Ok results, w') =>
              (Ok [("processed", VInt (Z.of_nat (length results)));
                   ("results", VList results)], w')
          | (Raise e, w') =>
              (Ok [("processed", VInt 0); ("error", VStr (exn_str e))], w')
          end
    end.
Proof.
  cbv zeta. unfold process_scheduled_deletions. cbv zeta.
  unfold try_catch, bind.
  destruct (list_objects_v2 _ w) as [[contents|e] w0]; [|reflexivity].
  destruct (negb (has_contents contents)); [reflexivity|].
  destruct (for_each contents process_entry [] w0) as [[results|e] w'];
    reflexivity.
Qed.

(** * The claims *)

(** C2.  For every inventory, the requests [perform_direct_deletion]
    issues are exactly the multi-object deletes of [deletion_batches]:
    each names at most 1000 keys, and together, in order, they name the
    keys of the inventory, so that every key occurs in the batches as
    often as in the inventory (once, for the distinct keys of a
    listing): none is skipped, none is sent twice. *)
Theorem direct_deletion_batches_cover_inventory
    (objects_by_prefix : inventory) (w : World) :
  let w' := snd (perform_direct_deletion objects_by_prefix w) in
  new_calls w w' = map DeleteObjects (deletion_batches objects_by_prefix)
  /\ Forall (fun batch => length batch <= 1000)
            (deletion_batches objects_by_prefix)
  /\ concat (deletion_batches objects_by_prefix)
     = inventory_keys objects_by_prefix
  /\ forall key,
       count_occ string_dec (concat (deletion_batches objects_by_prefix)) key
       = count_occ string_dec (inventory_keys objects_by_prefix) key.
Proof.
  cbv zeta.
  destruct (perform_direct_deletion_run objects_by_prefix w) as (w' & E & T & _).
  rewrite E. cbn [snd].
  split; [apply new_calls_app; exact T|].
  split; [apply deletion_batches_bounded|].
  split; [apply deletion_batches_concat|].
  intros key. rewrite deletion_batches_concat. reflexivity.
Qed.

(** C5 (amended).  The scan only lists and never writes.  Its requests
    are the listing requests of the four prefixes in order, page by
    page, up to and including the first one that fails: after a failed
    listing the scan does not continue, no further request is issued.
    It then raises the exception of that failed request, which is the
    last request made, and returns neither a count nor an inventory:
    what was counted for earlier prefixes is dropped.
    [delete_user_account] raises the same exception without issuing
    any further request.  A scan in which no listing fails makes all
    the listing requests and returns the count and the inventory of
    all four prefixes. *)
Theorem scan_failure_discards_partial_counts (user_id : string) (w : World) :
  let out := count_and_list_objects user_id w in
  let n := length (trace w) in
  let planned := scan_requests user_id (objects w) in
  objects (snd out) = objects w
  /\ Forall (listing_of (user_prefixes user_id)) (new_calls w (snd out))
  /\ first_fault n (new_calls w (snd out)) = raised (fst out)
  /\ (forall e, fst out = Raise e ->
        delete_user_account user_id w = (Raise e, snd out))
  /\ (forall res, fst out = Ok res -> res = scan_result user_id (objects w))
  /\ new_calls w (snd out) = issued_until_fault n planned
  /\ raised (fst out) = first_fault n planned
  /\ (forall e, fst out = Raise e ->
        exists earlier c,
          new_calls w (snd out) = (earlier ++ [c])%list
          /\ first_fault n earlier = None
          /\ fault prov (n + length earlier) c = Some e)
  /\ (forall res, fst out = Ok res -> new_calls w (snd out) = planned).
Proof.
  cbv zeta. destruct (count_and_list_objects user_id w) as [r w'] eqn:E.
  pose proof E as H. apply count_and_list_objects_spec in H.
  destruct H as (Ho & _ & (cs & Ht & Hf & Hff) & Hr).
  pose proof (count_and_list_objects_trace _ _ _ _ E) as (Hcalls & Hraised).
  cbn [fst snd].
  assert (Hcs : new_calls w w' = cs) by (apply new_calls_app; exact Ht).
  split; [exact Ho|]. split; [rewrite Hcs; exact Hf|].
  split; [rewrite Hcs; exact Hff|]. split; [|split].
  - intros e ->. unfold delete_user_account. apply bind_raise. exact E.
  - intros res ->. exact Hr.
  - split; [exact Hcalls|]. split; [exact Hraised|]. split.
    + intros e ->. cbn [raised] in Hraised. rewrite Hcalls.
      apply issued_until_fault_last. symmetry. exact Hraised.
    + intros res ->. cbn [raised] in Hraised. rewrite Hcalls.
      apply issued_until_fault_all. symmetry. exact Hraised.
Qed.

(** C9 (the code falls short of the claim).  [get_batch_job_status]
    returns a result exactly when [describe_job] does, and the result
    then carries the status of the job found.  Whenever the lookup
    raises, for an id the service does not know as for any other
    failure, the function raises in its turn, always the same
    exception: the one of looking up [NoSuchJob] among the client's
    exception classes, which the first handler does before anything
    else.  So neither the ['NotFound'] nor the ['Error'] result of the
    handlers is ever returned. *)
Theorem job_status_raises_when_the_lookup_fails (job_id : string) (w : World) :
  let out := get_batch_job_status job_id w in
  (forall e,
      fst (describe_job job_id w) = Raise e ->
      fst out = Raise (no_exception_class prov "NoSuchJob"))
  /\ (fault prov (length (trace w)) (DescribeJob job_id) = None ->
      assoc job_id (jobs w) = None ->
      fst out = Raise (no_exception_class prov "NoSuchJob"))
  /\ (forall e,
        fault prov (length (trace w)) (DescribeJob job_id) = Some e ->
        fst out = Raise (no_exception_class prov "NoSuchJob"))
  /\ (forall result,
        fst out = Ok result ->
        exists job,
          fst (describe_job job_id w) = Ok job
          /\ dict_get "jobId" result = Some (VStr job_id)
          /\ dict_get "status" result = Some (VStr (Status job))
          /\ dict_get "error" result = None).
Proof.
  cbv zeta.
  assert (Hraise : forall e,
            fst (describe_job job_id w) = Raise e ->
            fst (get_batch_job_status job_id w)
            = Raise (no_exception_class prov "NoSuchJob")).
  { intros e D. apply run_fst in D. unfold get_batch_job_status.
    erewrite try_catch_raise by (erewrite bind_raise by exact D; reflexivity).
    reflexivity. }
  split; [exact Hraise|]. split; [|split].
  - intros F N. apply (Hraise (absent prov (DescribeJob job_id))).
    unfold describe_job, bind, request. rewrite F. cbn [jobs fst].
    rewrite N. reflexivity.
  - intros e F. apply (Hraise e).
    unfold describe_job, bind, request. rewrite F. reflexivity.
  - intros result Hres. clear Hraise.
    unfold get_batch_job_status, try_catch, bind in Hres.
    destruct (describe_job job_id w) as [[job|e] w1] eqn:D.
    + exists job. split; [reflexivity|]. cbv zeta in Hres.
      destruct (ProgressSummary job); unfold ret in Hres; cbn [fst] in Hres;
        inversion Hres; subst; repeat split.
    + unfold raise in Hres. cbn [fst] in Hres. discriminate.
Qed.

(** C10.  An ['immediate'] event outside the development environment is
    answered with status 403 and the message below, and nothing else
    happens: the world is unchanged, so no request was issued.  Hence an
    ['immediate'] event that leads to any request at all was handled in
    the development environment. *)
Theorem immediate_refused_outside_development (event : Event) (w : World) :
  ev_type event = Some "immediate" ->
  (ENVIRONMENT cfg <> "development" ->
   handler event w
   = (Ok (response 403
            [("error", VStr "Immediate deletion only allowed in development")]),
      w))
  /\ (new_calls w (snd (handler event w)) <> [] ->
      ENVIRONMENT cfg = "development").
Proof.
  intros Ht.
  assert (Hrefuse : ENVIRONMENT cfg <> "development" ->
            handler event w
            = (Ok (response 403
                     [("error",
                       VStr "Immediate deletion only allowed in development")]),
               w)).
  { intros Hne. unfold handler, try_catch. rewrite Ht. cbn [String.eqb].
    change (String.eqb "immediate" "immediate") with true. cbv iota.
    destruct (String.eqb_spec (ENVIRONMENT cfg) "development") as [He|_];
      [contradiction|].
    reflexivity. }
  split; [exact Hrefuse|].
  intros Hcalls.
  destruct (string_dec (ENVIRONMENT cfg) "development") as [He|Hne]; [exact He|].
  exfalso. apply Hcalls. rewrite (Hrefuse Hne). cbn [snd].
  unfold new_calls. rewrite Nat.sub_diag. reflexivity.
Qed.



(** C4 (amended).  On the direct path [perform_direct_deletion] returns
    one number, the count of keys the store confirmed deleted, summed
    over the batches sent (a batch whose request fails counts 0); keys
    that failed are not returned.  The overall result is ['completed']
    with that number as ['deletedCount'] and has no ['failedKeys']
    entry.  For an inventory of 1500 keys under one prefix, when the
    first batch is confirmed in full and the second fails entirely, the
    number is 1000. *)
Theorem direct_deletion_reports_only_the_count (user_id : string) (w : World)
    (object_count : Z) (objects_by_prefix : inventory) :
  fst (count_and_list_objects user_id w)
  = Ok (object_count, objects_by_prefix) ->
  (0 < object_count <= DELETION_THRESHOLD cfg)%Z ->
  let w1 := snd (count_and_list_objects user_id w) in
  let w2 := snd (try_catch
                   (_ <- remove_identity_mappings user_id ;;
                    remove_scheduled_deletion user_id)
                   (fun e => ret tt) w1) in
  let n := length (trace w2) in
  let deleted_count := confirmed_total n (deletion_batches objects_by_prefix) in
  let result := direct_result user_id object_count deleted_count in
  fst (perform_direct_deletion objects_by_prefix w2) = Ok deleted_count
  /\ fst (delete_user_account user_id w) = Ok result
  /\ dict_get "status" result = Some (VStr "completed")
  /\ dict_get "deletedCount" result = Some (VInt deleted_count)
  /\ dict_get "failedKeys" result = None
  /\ forall prefix keys,
       objects_by_prefix = [(prefix, keys)] ->
       length keys = 1500 ->
       batch_confirmed n (firstn 1000 keys) = 1000%Z ->
       batch_confirmed (S n) (skipn 1000 keys) = 0%Z ->
       deleted_count = 1000%Z.
Proof.
  intros Hscan [Hpos Hle]. cbv zeta.
  destruct (count_and_list_objects user_id w) as [r w1] eqn:E.
  cbn [fst snd] in Hscan |- *. subst r.
  rewrite (delete_user_account_after_scan _ _ _ _ _ E).
  destruct (Z.eqb_spec object_count 0) as [->|_]; [lia|].
  destruct (guarded_cleanup_run user_id w1) as (w2 & cs & Ec & Tc & Fc).
  erewrite bind_ok by exact Ec. rewrite Ec. cbn [snd].
  destruct (Z.leb_spec object_count (DELETION_THRESHOLD cfg)) as [_|]; [|lia].
  destruct (perform_direct_deletion_run objects_by_prefix w2)
    as (w3 & Ed & Td & _).
  erewrite bind_ok by exact Ed. rewrite Ed. cbn [ret fst snd].
  split; [reflexivity|]. split; [reflexivity|].
  split; [reflexivity|]. split; [reflexivity|]. split; [reflexivity|].
  intros prefix keys -> Hlen Hfirst Hsecond.
  unfold deletion_batches. cbn [flat_map snd]. rewrite app_nil_r.
  rewrite (two_batches_of_1500 _ Hlen). cbn [confirmed_total].
  rewrite Hfirst, Hsecond. reflexivity.
Qed.



(** C7 (amended).  The sweep always returns, and its ['processed'] count
    is the number of outcomes it recorded.  When the listing of today's
    bucket succeeds and is not empty, the listed entries are handled in
    turn by [process_entry].  An entry whose body is read and parsed is
    driven through [delete_user_account] if and only if its [deleteOn]
    is at most [now]: when due, the outcome of the workflow (result or
    error) is recorded; when not yet due, nothing is recorded and
    handling it issues the read of its body and no other request, the
    bucket staying as it was.  A not-yet-due entry is still stored with
    the same body after the sweep, provided its key does not contain the
    user id of another listed entry. *)
Theorem sweep_handles_due_entries_only (w : World) :
  let prefix := "scheduled-deletions/" ++ date_key rt ++ "/" in
  let out := process_scheduled_deletions w in
  (exists result outcomes,
      fst out = Ok result
      /\ dict_get "processed" result
         = Some (VInt (Z.of_nat (length outcomes)))
      /\ (dict_get "results" result = Some (VList outcomes)
          \/ (outcomes = [] /\ dict_get "results" result = None)))
  /\ (forall contents,
        fst (list_objects_v2 prefix w) = Ok contents ->
        contents <> [] ->
        contents = todays_entries (objects w)
        /\ exists results,
             fst (for_each contents process_entry []
                    (snd (list_objects_v2 prefix w))) = Ok results
             /\ fst out = Ok [("processed", VInt (Z.of_nat (length results)));
                              ("results", VList results)])
  /\ (forall key body delete_on results w0,
        fst (get_object key w0) = Ok body ->
        parse_delete_on rt body = inr delete_on ->
        ((delete_on <= now rt)%Z ->
         process_entry key results w0
         = match delete_user_account (entry_user_id key)
                   (snd (get_object key w0)) with
           | (Ok result, w') =>
               (Ok (results
                    ++ [VDict (dict_merge
                                 [("userId", VStr (entry_user_id key))]
                                 result)])%list, w')
           | (Raise e, w') =>
               (Ok (results ++ [error_entry (entry_user_id key) e])%list, w')
           end)
        /\ ((now rt < delete_on)%Z ->
            process_entry key results w0 = (Ok results, snd (get_object key w0))
            /\ objects (snd (get_object key w0)) = objects w0
            /\ new_calls w0 (snd (get_object key w0)) = [GetObject key]))
  /\ (forall k body delete_on,
        PyStr.startswith "scheduled-deletions/" k = true ->
        assoc k (objects w) = Some body ->
        parse_delete_on rt body = inr delete_on ->
        (now rt < delete_on)%Z ->
        (forall key, In key (todays_entries (objects w)) -> key <> k ->
                     PyStr.contains (entry_user_id key) k = false) ->
        assoc k (objects (snd out)) = Some body).
Proof.
  cbv zeta. pose proof (process_scheduled_deletions_run w) as Hrun.
  cbv zeta in Hrun.
  destruct (list_objects_v2_spec ("scheduled-deletions/" ++ date_key rt ++ "/") w)
    as [Hlo Hlc].
  destruct (list_objects_v2 ("scheduled-deletions/" ++ date_key rt ++ "/") w)
    as [[contents|e] w0] eqn:El; cbn [fst snd] in *.
  - specialize (Hlc contents eq_refl).
    destruct (sweep_loop_returns contents [] w0) as (results & Hloop).
    destruct (for_each contents process_entry [] w0) as [r w'] eqn:Ef.
    cbn [fst] in Hloop. subst r.
    split; [|split; [|split]].
    + destruct contents as [|key contents]; cbn [has_contents negb] in Hrun;
        rewrite Hrun; cbn [fst].
      * eexists. exists []. split; [reflexivity|]. split; [reflexivity|].
        right. split; reflexivity.
      * eexists. exists results. split; [reflexivity|]. split; [reflexivity|].
        left. reflexivity.
    + intros contents' Hc Hne. inversion Hc; subst contents'.
      split; [exact Hlc|]. exists results. split; [rewrite Ef; reflexivity|].
      destruct contents as [|key contents]; [contradiction|].
      cbn [has_contents negb] in Hrun. rewrite Hrun. reflexivity.
    + intros key body delete_on results0 w1 Hget Hparse. split.
      * intros Hdue. eapply process_entry_due; eassumption.
      * intros Hlater. eapply process_entry_not_due; eassumption.
    + intros k body delete_on Hk Hb Hparse Hlater Hother.
      assert (Hkeep : assoc k (objects w') = Some body).
      { replace w' with (snd (for_each contents process_entry [] w0))
          by (rewrite Ef; reflexivity).
        eapply sweep_loop_keeps; try eassumption.
        - rewrite Hlc. exact Hother.
        - rewrite Hlo. exact Hb. }
      destruct contents as [|key contents]; cbn [has_contents negb] in Hrun;
        rewrite Hrun; cbn [snd]; [rewrite Hlo; exact Hb|exact Hkeep].
  - rewrite Hrun. cbn [fst snd].
    split; [|split; [|split]].
    + eexists. exists []. split; [reflexivity|]. split; [reflexivity|].
      right. split; reflexivity.
    + intros contents Hc. discriminate.
    + intros key body delete_on results0 w1 Hget Hparse. split.
      * intros Hdue. eapply process_entry_due; eassumption.
      * intros Hlater. eapply process_entry_not_due; eassumption.
    + intros k body delete_on Hk Hb Hparse Hlater Hother.
      rewrite Hlo. exact Hb.
Qed.

(** * Further properties of the handler *)

(** ** The entry point *)

Lemma describe_job_run (job_id : string) (w : World) :
  exists r,
    describe_job job_id w
    = (r, {| objects := objects w; jobs := jobs w;
             trace := DescribeJob job_id :: trace w |}).
Proof.
  unfold describe_job, bind, request.
  destruct (fault prov (length (trace w)) (DescribeJob job_id)) as [e|].
  - eexists; reflexivity.
  - cbn [jobs]. destruct (assoc job_id (jobs w)); eexists; reflexivity.
Qed.

(** A status query sends one request; it returns when the lookup does,
    and raises the failed look-up of [NoSuchJob] otherwise. *)
Lemma get_batch_job_status_run (job_id : string) (w : World) :
  exists r,
    get_batch_job_status job_id w
    = (r, {| objects := objects w; jobs := jobs w;
             trace := DescribeJob job_id :: trace w |})
    /\ match fst (describe_job job_id w) with
       | Ok _ => exists result, r = Ok result
       | Raise _ => r = Raise (no_exception_class prov "NoSuchJob")
       end.
Proof.
  destruct (describe_job_run job_id w) as ([job|e] & D);
    unfold get_batch_job_status; rewrite D; cbn [fst].
  - destruct (ProgressSummary job) eqn:P; eexists;
      (split; [apply try_catch_ok; erewrite bind_ok by exact D; cbv zeta;
               rewrite P; reflexivity|eexists; reflexivity]).
  - eexists. split; [|reflexivity].
    erewrite try_catch_raise by (erewrite bind_raise by exact D; reflexivity).
    reflexivity.
Qed.

Lemma process_scheduled_deletions_returns (w : World) :
  exists result, fst (process_scheduled_deletions w) = Ok result.
Proof.
  pose proof (process_scheduled_deletions_run w) as Hrun. cbv zeta in Hrun.
  rewrite Hrun.
  destruct (list_objects_v2 _ w) as [[contents|e] w0]; [|eexists; reflexivity].
  destruct (negb (has_contents contents)); [eexists; reflexivity|].
  destruct (sweep_loop_returns contents [] w0) as (results & Hr).
  destruct (for_each contents process_entry [] w0) as [r w'].
  cbn [fst] in Hr. subst r. eexists; reflexivity.
Qed.

(** X1.  Whatever the event and whatever fails, [handler] returns a
    response: a status code among 200, 400, 403 and 500 with a body.  No
    exception leaves it. *)
Theorem handler_always_answers (event : Event) (w : World) :
  exists status_code body,
    fst (handler event w)
    = Ok [("statusCode", VInt status_code); ("body", VStr body)]
    /\ In status_code [200; 400; 403; 500]%Z.
Proof.
  unfold handler, try_catch, response.
  destruct (String.eqb (event_action event) "immediate") eqn:Ei;
    unfold event_action in Ei; rewrite Ei.
  - destruct (negb (String.eqb (ENVIRONMENT cfg) "development")).
    + eexists. eexists. split; [reflexivity|]. cbn. auto.
    + destruct (falsy (ev_userId event)).
      * eexists. eexists. split; [reflexivity|]. cbn. auto.
      * unfold bind.
        destruct (delete_user_account _ w) as [[result|e] w'];
          eexists; eexists; (split; [reflexivity|]); cbn; auto.
  - destruct (String.eqb _ "scheduled").
    + unfold bind.
      destruct (process_scheduled_deletions w) as [[result|e] w'];
        eexists; eexists; (split; [reflexivity|]); cbn; auto.
    + destruct (String.eqb _ "status").
      * destruct (falsy (ev_jobId event)).
        -- eexists. eexists. split; [reflexivity|]. cbn. auto.
        -- unfold bind.
           destruct (get_batch_job_status _ w) as [[result|e] w'];
             eexists; eexists; (split; [reflexivity|]); cbn; auto.
      * eexists. eexists. split; [reflexivity|]. cbn. auto.
Qed.

(** X2.  Input validation answers 400 before anything is requested: an
    ['immediate'] event in development without a user id (absent or
    empty), a ['status'] event without a job id, and an event whose type
    is none of the three actions.  In each case the world is returned
    unchanged. *)
Theorem handler_rejects_incomplete_events (event : Event) (w : World) :
  (event_action event = "immediate" ->
   ENVIRONMENT cfg = "development" ->
   falsy (ev_userId event) = true ->
   handler event w
   = (Ok (response 400 [("error", VStr "userId required")]), w))
  /\ (event_action event = "status" ->
      falsy (ev_jobId event) = true ->
      handler event w
      = (Ok (response 400 [("error", VStr "jobId required")]), w))
  /\ (event_action event <> "immediate" ->
      event_action event <> "scheduled" ->
      event_action event <> "status" ->
      handler event w
      = (Ok (response 400
               [("error", VStr ("Unknown action: " ++ event_action event))]),
         w)).
Proof.
  unfold handler, try_catch. fold (event_action event). cbv zeta.
  split; [|split].
  - intros -> -> Hu. cbn [String.eqb]. rewrite Hu. reflexivity.
  - intros -> Hj. rewrite Hj. reflexivity.
  - intros H1 H2 H3.
    destruct (String.eqb_spec (event_action event) "immediate");
      [contradiction|].
    destruct (String.eqb_spec (event_action event) "scheduled");
      [contradiction|].
    destruct (String.eqb_spec (event_action event) "status");
      [contradiction|].
    reflexivity.
Qed.

(** X3.  A ['scheduled'] event, which is also what an event without a
    type is taken for, is always answered with status 200, even when
    every request fails: the sweep turns failures into results.  A
    ['status'] event with a job id is answered with status 200 and the
    job's status when the lookup of the job returns; when the lookup
    raises, the status query raises too and the answer is status 500
    with the text of that exception. *)
Theorem scheduled_answers_200_and_status_follows_the_lookup
    (event : Event) (w : World) :
  (event_action event = "scheduled" ->
   exists result,
     fst (process_scheduled_deletions w) = Ok result
     /\ handler event w
        = (Ok (response 200 result), snd (process_scheduled_deletions w)))
  /\ (event_action event = "status" ->
      falsy (ev_jobId event) = false ->
      (forall job,
          fst (describe_job (field_text (ev_jobId event)) w) = Ok job ->
          exists result,
            fst (get_batch_job_status (field_text (ev_jobId event)) w)
            = Ok result
            /\ fst (handler event w) = Ok (response 200 result))
      /\ (forall e,
            fst (describe_job (field_text (ev_jobId event)) w) = Raise e ->
            fst (handler event w)
            = Ok (response 500
                    [("error",
                      VStr (exn_str (no_exception_class prov "NoSuchJob")))]))
      /\ snd (handler event w)
         = {| objects := objects w; jobs := jobs w;
              trace := DescribeJob (field_text (ev_jobId event)) :: trace w |}).
Proof.
  split.
  - unfold handler, try_catch. fold (event_action event). cbv zeta.
    intros ->.
    change (String.eqb "scheduled" "immediate") with false.
    change (String.eqb "scheduled" "scheduled") with true. cbv iota.
    destruct (process_scheduled_deletions_returns w) as (result & Hr).
    exists result. split; [exact Hr|].
    erewrite bind_ok by (apply run_fst; exact Hr). reflexivity.
  - intros Ha Hj.
    assert (Hrun :
      handler event w
      = (match fst (get_batch_job_status (field_text (ev_jobId event)) w) with
         | Ok result => Ok (response 200 result)
         | Raise e => Ok (response 500 [("error", VStr (exn_str e))])
         end,
         snd (get_batch_job_status (field_text (ev_jobId event)) w))).
    { unfold handler, try_catch. fold (event_action event). cbv zeta.
      rewrite Ha, Hj.
      change (String.eqb "status" "immediate") with false.
      change (String.eqb "status" "scheduled") with false.
      change (String.eqb "status" "status") with true. cbv iota.
      fold (field_text (ev_jobId event)). unfold bind.
      destruct (get_batch_job_status (field_text (ev_jobId event)) w)
        as [[result|e] w']; reflexivity. }
    rewrite Hrun.
    destruct (get_batch_job_status_run (field_text (ev_jobId event)) w)
      as (r & Hr & Hcase).
    rewrite Hr. cbn [fst snd].
    split; [|split; [|reflexivity]].
    + intros job D. rewrite D in Hcase. destruct Hcase as (result & ->).
      exists result. split; reflexivity.
    + intros e D. rewrite D in Hcase. subst r. reflexivity.
Qed.

(** X4.  An ['immediate'] event with a user id, in development, runs
    [delete_user_account] for that id and wraps its outcome: status 200
    with the result, or status 500 with the text of the exception.  When
    it is the scan that fails, the bucket is left as it was. *)
Theorem immediate_deletion_wraps_the_workflow (event : Event) (w : World) :
  event_action event = "immediate" ->
  ENVIRONMENT cfg = "development" ->
  falsy (ev_userId event) = false ->
  let user_id := field_text (ev_userId event) in
  let out := delete_user_account user_id w in
  handler event w
  = (match fst out with
     | Ok result => Ok (response 200 result)
     | Raise e => Ok (response 500 [("error", VStr (exn_str e))])
     end, snd out)
  /\ forall e,
       fst (count_and_list_objects user_id w) = Raise e ->
       fst (handler event w) = Ok (response 500 [("error", VStr (exn_str e))])
       /\ objects (snd (handler event w)) = objects w.
Proof.
  intros Ha He Hu. cbv zeta.
  assert (Hrun :
    handler event w
    = (match fst (delete_user_account (field_text (ev_userId event)) w) with
       | Ok result => Ok (response 200 result)
       | Raise e => Ok (response 500 [("error", VStr (exn_str e))])
       end, snd (delete_user_account (field_text (ev_userId event)) w))).
  { unfold handler, try_catch. fold (event_action event). cbv zeta.
    rewrite Ha, He, Hu.
    change (String.eqb "immediate" "immediate") with true.
    change (String.eqb "development" "development") with true.
    cbn [negb]. cbv iota. fold (field_text (ev_userId event)).
    unfold bind.
    destruct (delete_user_account (field_text (ev_userId event)) w)
      as [[result|e] w']; reflexivity. }
  split; [exact Hrun|].
  intros e Hscan. rewrite Hrun.
  destruct (count_and_list_objects (field_text (ev_userId event)) w)
    as [r w1] eqn:E.
  cbn [fst] in Hscan. subst r.
  pose proof (count_and_list_objects_spec _ _ _ _ E) as (Ho & _).
  unfold delete_user_account. erewrite bind_raise by exact E.
  cbn [fst snd]. split; [reflexivity|exact Ho].
Qed.

(** ** Whose objects a deletion reaches *)

Lemma prefix_cons_inv (c d : ascii) (p s : string) :
  String.prefix (String c p) (String d s) = true ->
  c = d /\ String.prefix p s = true.
Proof.
  cbn [String.prefix]. destruct (ascii_dec c d); [auto|discriminate].
Qed.

Lemma prefix_of_empty (c : ascii) (p : string) :
  String.prefix (String c p) "" = true -> False.
Proof. cbn [String.prefix]. discriminate. Qed.

Lemma has_char_cons (c d : ascii) (s : string) :
  PyStr.has_char c (String d s) = false ->
  d <> c /\ PyStr.has_char c s = false.
Proof.
  cbn [PyStr.has_char]. intros H. apply orb_false_iff in H as [H1 H2].
  split; [|exact H2]. intros ->. rewrite Ascii.eqb_refl in H1. discriminate.
Qed.

Lemma prefix_app_strip (r x y k : string) :
  String.prefix (r ++ x) k = true ->
  String.prefix (r ++ y) k = true ->
  exists k', String.prefix x k' = true /\ String.prefix y k' = true.
Proof.
  revert k. induction r as [|c r IH]; intros k Hx Hy.
  - exists k. split; assumption.
  - cbn [append] in Hx, Hy. destruct k as [|d k].
    + destruct (prefix_of_empty _ _ Hx).
    + apply prefix_cons_inv in Hx as [_ Hx].
      apply prefix_cons_inv in Hy as [_ Hy].
      eapply IH; eassumption.
Qed.

Lemma prefix_slash_unique (a : string) :
  forall b s,
    PyStr.has_char "/" a = false ->
    PyStr.has_char "/" b = false ->
    String.prefix (a ++ "/") s = true ->
    String.prefix (b ++ "/") s = true ->
    a = b.
Proof.
  induction a as [|c a IH]; intros b s Ha Hb Hp Hq; cbn [append] in Hp.
  - destruct b as [|d b]; [reflexivity|]. cbn [append] in Hq.
    destruct s as [|x s]; [destruct (prefix_of_empty _ _ Hp)|].
    apply prefix_cons_inv in Hp as [<- _].
    apply prefix_cons_inv in Hq as [-> _].
    apply has_char_cons in Hb as [Hb _]. contradiction.
  - destruct s as [|x s]; [destruct (prefix_of_empty _ _ Hp)|].
    apply prefix_cons_inv in Hp as [<- Hp].
    apply has_char_cons in Ha as [Hc Ha].
    destruct b as [|d b]; cbn [append] in Hq.
    + apply prefix_cons_inv in Hq as [<- _]. contradiction.
    + apply prefix_cons_inv in Hq as [-> Hq].
      apply has_char_cons in Hb as [_ Hb].
      f_equal. eapply IH; eassumption.
Qed.

(** A key lies in the namespaces of one user only, as long as user ids
    contain no ['/']. *)
Lemma namespace_owner (a b k : string) :
  PyStr.has_char "/" a = false ->
  PyStr.has_char "/" b = false ->
  in_user_namespace a k ->
  in_user_namespace b k ->
  a = b.
Proof.
  intros Ha Hb (p & Hp & Hpk) (q & Hq & Hqk).
  unfold PyStr.startswith in Hpk, Hqk.
  destruct Hp as [<-|[<-|[<-|[<-|[]]]]];
    destruct Hq as [<-|[<-|[<-|[<-|[]]]]];
    try (pose proof (prefix_first_char _ _ _ _ _ Hpk Hqk); discriminate);
    destruct (prefix_app_strip _ _ _ _ Hpk Hqk) as (k' & H1 & H2);
    eapply prefix_slash_unique; eassumption.
Qed.

Lemma bulk_call_outside_namespaces (other k : string) (c : Call) :
  bulk_call c -> in_user_namespace other k -> touches c k = false.
Proof.
  intros Hc (p & Hp & Hpk).
  destruct c; cbn in Hc |- *; try reflexivity; try contradiction.
  destruct (String.eqb_spec k key) as [->|]; [|reflexivity].
  destruct Hp as [<-|[<-|[<-|[<-|[]]]]];
    pose proof (prefix_first_char _ _ _ _ _ Hpk Hc); discriminate.
Qed.

Lemma user_delete_call_outside (user_id other k : string) (c : Call) :
  PyStr.has_char "/" user_id = false ->
  PyStr.has_char "/" other = false ->
  user_id <> other ->
  user_delete_call user_id c ->
  in_user_namespace other k ->
  touches c k = false.
Proof.
  intros Hu Ho Hne Hc Hk.
  destruct c; cbn in Hc |- *; try reflexivity; try contradiction.
  destruct (existsb (String.eqb k) keys) eqn:Ex; [|reflexivity].
  apply existsb_exists in Ex as (k' & Hin & Heq).
  apply String.eqb_eq in Heq. subst k'.
  rewrite Forall_forall in Hc. exfalso. apply Hne.
  eapply namespace_owner; eauto.
Qed.

(** X5.  Deleting one account leaves the objects of every other account
    as they were, whatever the provider does: a key in a namespace of
    another user keeps its value.  User ids are taken to contain no
    ['/']; otherwise the namespace of one user can lie inside that of
    another. *)
Theorem account_deletion_keeps_other_accounts
    (user_id other k : string) (w : World) :
  PyStr.has_char "/" user_id = false ->
  PyStr.has_char "/" other = false ->
  user_id <> other ->
  in_user_namespace other k ->
  assoc k (objects (snd (delete_user_account user_id w)))
  = assoc k (objects w).
Proof.
  intros Hu Ho Hne Hk.
  destruct (delete_user_account_sound user_id w) as (cs & _ & Hcs & Hframe & _).
  apply Hframe. eapply Forall_impl; [|exact Hcs].
  intros c [Hc|[Hc|[Hc|Hc]]].
  - eapply cleanup_call_outside_namespaces; [left; exact Hc|exact Hk].
  - eapply cleanup_call_outside_namespaces; [right; exact Hc|exact Hk].
  - apply (user_delete_call_outside user_id other); assumption.
  - apply (bulk_call_outside_namespaces other); assumption.
Qed.

(** ** What the direct path leaves in the store *)

Lemma delete_batch_store (batch : list string) (total : Z) (w : World) :
  delete_batch batch total w
  = (Ok (total + Z.of_nat (length (batch_deleted (length (trace w)) batch)))%Z,
     {| objects := remove_keys (batch_deleted (length (trace w)) batch)
                     (objects w);
        jobs := jobs w;
        trace := DeleteObjects batch :: trace w |}).
Proof.
  unfold delete_batch, delete_objects, try_catch, bind, request, update_objects,
    ret, batch_deleted. cbv beta.
  destruct (fault prov (length (trace w)) (DeleteObjects batch)).
  - rewrite remove_keys_nil. cbn [length]. rewrite Z.add_0_r. reflexivity.
  - reflexivity.
Qed.

Lemma delete_batches_store (bs : list (list string)) :
  forall total w,
    for_each bs delete_batch total w
    = (Ok (total + Z.of_nat (length (confirmed_keys (length (trace w)) bs)))%Z,
       {| objects := remove_keys (confirmed_keys (length (trace w)) bs)
                       (objects w);
          jobs := jobs w;
          trace := (rev (map DeleteObjects bs) ++ trace w)%list |}).
Proof.
  induction bs as [|b bs IH]; intros total w;
    cbn [for_each confirmed_keys map rev].
  - unfold ret. rewrite remove_keys_nil. cbn [length app].
    rewrite Z.add_0_r. destruct w; reflexivity.
  - erewrite bind_ok by apply delete_batch_store.
    rewrite IH. cbn [objects jobs trace length].
    rewrite remove_keys_twice, length_app, <- app_assoc.
    f_equal. f_equal. lia.
Qed.

Lemma confirmed_keys_app (bs1 bs2 : list (list string)) :
  forall n,
    confirmed_keys n (bs1 ++ bs2)
    = (confirmed_keys n bs1 ++ confirmed_keys (n + length bs1) bs2)%list.
Proof.
  induction bs1 as [|b bs1 IH]; intros n; cbn [app confirmed_keys length].
  - rewrite Nat.add_0_r. reflexivity.
  - rewrite IH, <- app_assoc.
    replace (S n + length bs1) with (n + S (length bs1)) by lia. reflexivity.
Qed.

Lemma direct_loop_store (inv : inventory) :
  forall total w,
    for_each inv
      (fun '(prefix, keys) total_deleted =>
         for_each (py_range 0 (length keys) DELETE_BATCH)
           (fun i total_deleted =>
              let batch := slice keys i (i + DELETE_BATCH) in
              try_catch
                ('(deleted, errors) <- delete_objects batch ;;
                 ret (total_deleted + Z.of_nat (length deleted))%Z)
                (fun e => ret total_deleted))
           total_deleted)
      total w
    = (Ok (total
           + Z.of_nat (length (confirmed_keys (length (trace w))
                                 (deletion_batches inv))))%Z,
       {| objects := remove_keys (confirmed_keys (length (trace w))
                                    (deletion_batches inv)) (objects w);
          jobs := jobs w;
          trace := (rev (map DeleteObjects (deletion_batches inv))
                    ++ trace w)%list |}).
Proof.
  induction inv as [|[prefix keys] inv IH]; intros total w;
    cbn [for_each deletion_batches flat_map snd].
  - unfold ret. cbn [confirmed_keys map rev app length].
    rewrite remove_keys_nil, Z.add_0_r. destruct w; reflexivity.
  - pose proof (delete_batches_store (batches_of DELETE_BATCH keys) total w)
      as E1.
    unfold batches_of in E1 at 1. rewrite for_each_map in E1.
    erewrite bind_ok by exact E1. cbv beta.
    etransitivity; [apply IH|].
    fold (deletion_batches inv). cbn [objects jobs trace].
    rewrite confirmed_keys_app, remove_keys_twice, map_app, rev_app_distr.
    rewrite !length_app, length_rev, length_map, <- app_assoc.
    rewrite (Nat.add_comm (length (batches_of DELETE_BATCH keys))).
    f_equal. f_equal. lia.
Qed.

Lemma perform_direct_deletion_store (inv : inventory) (w : World) :
  perform_direct_deletion inv w
  = (Ok (Z.of_nat (length (confirmed_keys (length (trace w))
                             (deletion_batches inv)))),
     {| objects := remove_keys (confirmed_keys (length (trace w))
                                  (deletion_batches inv)) (objects w);
        jobs := jobs w;
        trace := (rev (map DeleteObjects (deletion_batches inv))
                  ++ trace w)%list |}).
Proof.
  unfold perform_direct_deletion. rewrite direct_loop_store. reflexivity.
Qed.

Lemma batch_deleted_incl (n : nat) (batch : list string) :
  incl (batch_deleted n batch) batch.
Proof.
  unfold batch_deleted. intros k Hk.
  destruct (fault prov n (DeleteObjects batch)); [destruct Hk|].
  apply filter_In in Hk. tauto.
Qed.

Lemma batch_deleted_length (n : nat) (batch : list string) :
  length (batch_deleted n batch) <= length batch.
Proof.
  unfold batch_deleted.
  destruct (fault prov n (DeleteObjects batch)); cbn [length]; [lia|].
  apply filter_length_le.
Qed.

Lemma confirmed_keys_incl (bs : list (list string)) :
  forall n, incl (confirmed_keys n bs) (concat bs).
Proof.
  induction bs as [|b bs IH]; intros n; cbn [confirmed_keys concat].
  - apply incl_refl.
  - apply incl_app_app; [apply batch_deleted_incl|apply IH].
Qed.

Lemma confirmed_keys_length (bs : list (list string)) :
  forall n, length (confirmed_keys n bs) <= length (concat bs).
Proof.
  induction bs as [|b bs IH]; intros n; cbn [confirmed_keys concat].
  - apply Nat.le_refl.
  - rewrite !length_app. pose proof (batch_deleted_length n b).
    specialize (IH (S n)). lia.
Qed.

Lemma confirmed_keys_reliable (bs : list (list string)) :
  deletes_succeed -> no_key_error ->
  forall n, confirmed_keys n bs = concat bs.
Proof.
  intros Hd Hk. induction bs as [|b bs IH]; intros n;
    cbn [confirmed_keys concat]; [reflexivity|].
  rewrite IH. f_equal. unfold batch_deleted. rewrite Hd.
  apply filter_all. intros k _. rewrite Hk. reflexivity.
Qed.

(** X7.  [perform_direct_deletion] never raises.  The number it returns
    is the number of keys the store confirmed, batch by batch; exactly
    these keys are removed from the bucket, so the keys of a batch whose
    request failed and the keys reported under ['Errors'] stay.  The
    confirmed keys are keys of the inventory, hence the number is at
    most the size of the inventory, and it is the whole inventory when
    no delete request fails and no key is reported in error. *)
Theorem direct_deletion_removes_the_confirmed_keys
    (objects_by_prefix : inventory) (w : World) :
  let confirmed :=
    confirmed_keys (length (trace w)) (deletion_batches objects_by_prefix) in
  let out := perform_direct_deletion objects_by_prefix w in
  fst out = Ok (Z.of_nat (length confirmed))
  /\ objects (snd out) = remove_keys confirmed (objects w)
  /\ jobs (snd out) = jobs w
  /\ incl confirmed (inventory_keys objects_by_prefix)
  /\ length confirmed <= length (inventory_keys objects_by_prefix)
  /\ (deletes_succeed -> no_key_error ->
      confirmed = inventory_keys objects_by_prefix).
Proof.
  cbv zeta. rewrite perform_direct_deletion_store. cbn [fst snd objects jobs].
  rewrite <- (deletion_batches_concat objects_by_prefix).
  split; [reflexivity|]. split; [reflexivity|]. split; [reflexivity|].
  split; [apply confirmed_keys_incl|].
  split; [apply confirmed_keys_length|].
  intros Hd Hk. apply confirmed_keys_reliable; assumption.
Qed.

Lemma guarded_cleanup_sound (user_id : string) :
  sound (cleanup_call user_id) no_exn
        (try_catch
           (_ <- remove_identity_mappings user_id ;;
            remove_scheduled_deletion user_id)
           (fun e => ret tt)).
Proof.
  apply (sound_try_catch _ _ any_exn); [apply cleanup_sound|].
  intros e. apply sound_ret.
Qed.

(** The guarded clean-up returns, and leaves the user namespaces alone. *)
Lemma guarded_cleanup_frame (user_id : string) (w : World) :
  exists w',
    try_catch
      (_ <- remove_identity_mappings user_id ;;
       remove_scheduled_deletion user_id)
      (fun e => ret tt) w = (Ok tt, w')
    /\ forall other k, in_user_namespace other k ->
                       assoc k (objects w') = assoc k (objects w).
Proof.
  destruct (guarded_cleanup_sound user_id w) as (cs & _ & Hcs & Hframe & Hexn).
  destruct (try_catch _ _ w) as [[[]|e] w'] eqn:G; cbn [fst snd] in *.
  - exists w'. split; [reflexivity|].
    intros other k Hk. apply Hframe.
    eapply Forall_impl; [|exact Hcs].
    intros c Hc. eapply cleanup_call_outside_namespaces; [right; exact Hc|exact Hk].
  - destruct (Hexn e eq_refl).
Qed.

Lemma namespace_key_in_inventory (user_id k v : string)
    (objs : list (string * string)) :
  in_user_namespace user_id k ->
  assoc k objs = Some v ->
  In k (inventory_keys (snd (scan_result user_id objs))).
Proof.
  intros (p & Hp & Hpk) Hv. rewrite scan_result_keys.
  apply in_concat. exists (list_keys p objs). split.
  - apply in_map_iff. exists p. split; [reflexivity|exact Hp].
  - unfold list_keys. apply filter_In. split; [|exact Hpk].
    eapply assoc_in_keys; exact Hv.
Qed.

(** X6.  On the direct path, when no delete request fails and no key is
    reported in error, the account is really gone: the result reports as
    many deleted objects as were counted, and afterwards no key of the
    user's four namespaces is left in the bucket.  This holds even when
    the clean-up of the auxiliary records fails. *)
Theorem direct_path_empties_the_namespaces (user_id : string) (w : World)
    (object_count : Z) (objects_by_prefix : inventory) :
  fst (count_and_list_objects user_id w)
  = Ok (object_count, objects_by_prefix) ->
  (0 < object_count <= DELETION_THRESHOLD cfg)%Z ->
  deletes_succeed ->
  no_key_error ->
  let out := delete_user_account user_id w in
  fst out = Ok (direct_result user_id object_count object_count)
  /\ forall k, in_user_namespace user_id k ->
               assoc k (objects (snd out)) = None.
Proof.
  intros Hscan [Hpos Hle] Hd Hk. cbv zeta.
  destruct (count_and_list_objects user_id w) as [r w1] eqn:E.
  cbn [fst] in Hscan. subst r.
  pose proof (count_and_list_objects_spec _ _ _ _ E) as (Ho & _ & _ & Hr).
  rewrite (delete_user_account_after_scan _ _ _ _ _ E).
  destruct (Z.eqb_spec object_count 0) as [Hz|_]; [lia|].
  destruct (guarded_cleanup_frame user_id w1) as (w2 & G & Hframe).
  erewrite bind_ok by exact G.
  destruct (Z.leb_spec object_count (DELETION_THRESHOLD cfg)) as [_|Hgt]; [|lia].
  erewrite bind_ok by apply perform_direct_deletion_store.
  unfold ret. cbn [fst snd objects].
  rewrite (confirmed_keys_reliable _ Hd Hk), deletion_batches_concat.
  assert (Hinv : objects_by_prefix = snd (scan_result user_id (objects w)))
    by (rewrite <- Hr; reflexivity).
  assert (Hcount : object_count
                   = Z.of_nat (length (inventory_keys objects_by_prefix))).
  { rewrite Hinv, <- scan_result_count, <- Hr. reflexivity. }
  split; [rewrite <- Hcount; reflexivity|].
  intros k Hns.
  destruct (existsb (String.eqb k) (inventory_keys objects_by_prefix)) eqn:Ex.
  - apply assoc_remove_keys_in. exact Ex.
  - rewrite assoc_remove_keys_out by exact Ex.
    rewrite (Hframe user_id k Hns), Ho.
    destruct (assoc k (objects w)) as [v|] eqn:Hv; [|reflexivity].
    exfalso.
    pose proof (namespace_key_in_inventory user_id k v (objects w) Hns Hv) as Hin.
    rewrite <- Hinv in Hin.
    assert (Ht : existsb (String.eqb k) (inventory_keys objects_by_prefix) = true).
    { apply existsb_exists. exists k. split; [exact Hin|apply String.eqb_refl]. }
    congruence.
Qed.

Lemma bulk_branch_frame (user_id other k : string) (inv : inventory)
    (w : World) :
  in_user_namespace other k ->
  assoc k (objects (snd (create_batch_operations_job user_id inv w)))
  = assoc k (objects w).
Proof.
  intros Hk.
  destruct (create_batch_operations_job_sound user_id inv w)
    as (cs & _ & Hcs & Hframe & _).
  apply Hframe. eapply Forall_impl; [|exact Hcs].
  intros c Hc. apply (bulk_call_outside_namespaces other); assumption.
Qed.

(** X8.  On the bulk path [delete_user_account] itself deletes no
    object of any account, the user's own included: every key of a user
    namespace has the same value afterwards, whether the job is created
    or its creation fails.  The deletion is left to the bulk job. *)
Theorem bulk_path_deletes_no_user_object (user_id other k : string)
    (w : World) (object_count : Z) (objects_by_prefix : inventory) :
  fst (count_and_list_objects user_id w)
  = Ok (object_count, objects_by_prefix) ->
  (0 < object_count)%Z ->
  (DELETION_THRESHOLD cfg < object_count)%Z ->
  in_user_namespace other k ->
  assoc k (objects (snd (delete_user_account user_id w)))
  = assoc k (objects w).
Proof.
  intros Hscan Hpos Hgt Hk.
  destruct (count_and_list_objects user_id w) as [r w1] eqn:E.
  cbn [fst] in Hscan. subst r.
  pose proof (count_and_list_objects_spec _ _ _ _ E) as (Ho & _).
  rewrite (delete_user_account_after_scan _ _ _ _ _ E).
  destruct (Z.eqb_spec object_count 0) as [Hz|_]; [lia|].
  destruct (guarded_cleanup_frame user_id w1) as (w2 & G & Hframe).
  erewrite bind_ok by exact G.
  destruct (Z.leb_spec object_count (DELETION_THRESHOLD cfg)) as [Hle|_]; [lia|].
  pose proof (bulk_branch_frame user_id other k objects_by_prefix w2 Hk) as Hb.
  unfold bind.
  destruct (create_batch_operations_job user_id objects_by_prefix w2)
    as [[job_id|e] w3]; unfold ret; cbn [fst snd] in *;
    rewrite Hb, (Hframe other k Hk), Ho; reflexivity.
Qed.

(** ** The bulk job and its status *)

(** X9.  [create_batch_operations_job] issues at most four requests and
    raises exactly when one of them fails: the exception is the one of
    that request, which is the last one issued.  In particular a
    manifest that cannot be uploaded ends the function after that one
    request, with nothing stored and no job created. *)
Theorem bulk_job_fails_only_with_a_request (user_id : string)
    (objects_by_prefix : inventory) (w : World) :
  let n := length (trace w) in
  let out := create_batch_operations_job user_id objects_by_prefix w in
  let issued := new_calls w (snd out) in
  raised (fst out) = first_fault n issued
  /\ length issued <= 4
  /\ (forall e, fst out = Raise e ->
        exists c earlier,
          issued = (earlier ++ [c])%list
          /\ fault prov (n + length earlier) c = Some e)
  /\ (forall e,
        fault prov n
          (PutObject (manifest_key_of user_id)
             (create_deletion_manifest objects_by_prefix)) = Some e ->
        fst out = Raise e
        /\ issued = [PutObject (manifest_key_of user_id)
                       (create_deletion_manifest objects_by_prefix)]
        /\ objects (snd out) = objects w
        /\ jobs (snd out) = jobs w).
Proof.
  cbv zeta.
  destruct (create_batch_operations_job_run user_id objects_by_prefix w)
    as (issued & w' & E & T & Hpre & Hff & _ & Hfirst & Hlast).
  cbv zeta in E, Hpre, Hff, Hfirst, Hlast.
  rewrite E. cbn [fst snd].
  rewrite (new_calls_app _ _ _ T).
  split; [|split; [|split]].
  - rewrite Hff. destruct (first_fault _ _); reflexivity.
  - rewrite Hpre, length_firstn. cbn [bulk_requests length]. lia.
  - intros e He. apply Hlast.
    destruct (first_fault _ _) as [e'|]; [|discriminate].
    inversion He; reflexivity.
  - intros e F1.
    assert (H1 : first_fault (length (trace w))
                   (firstn 1 (bulk_requests user_id
                                (job_id_of prov (S (S (length (trace w)))))
                                objects_by_prefix)) = Some e).
    { cbn [bulk_requests firstn first_fault]. rewrite F1. reflexivity. }
    destruct Hfirst as (Ho & Hj & Hlen); [rewrite H1; discriminate|].
    split; [|split; [|split]]; [| |exact Ho|exact Hj].
    + cbn [bulk_requests first_fault]. rewrite F1. reflexivity.
    + rewrite Hpre, Hlen. reflexivity.
Qed.

(** X11.  A status query sends one [describe_job] request and changes
    neither the bucket nor the jobs.  When the request goes through and
    the job exists, the result carries the job's own status and
    priority and no ['error'] entry; its progress summary is empty when
    the job has none, and otherwise holds the three task counts, a
    missing count being reported as 0. *)
Theorem job_status_reports_the_job (job_id : string) (w : World) :
  let out := get_batch_job_status job_id w in
  snd out = {| objects := objects w; jobs := jobs w;
               trace := DescribeJob job_id :: trace w |}
  /\ forall job,
       fault prov (length (trace w)) (DescribeJob job_id) = None ->
       assoc job_id (jobs w) = Some job ->
       exists result,
         fst out = Ok result
         /\ dict_get "jobId" result = Some (VStr job_id)
         /\ dict_get "status" result = Some (VStr (Status job))
         /\ dict_get "priority" result = Some (opt_int (Priority job))
         /\ dict_get "error" result = None
         /\ dict_get "progressSummary" result
            = Some (match ProgressSummary job with
                    | None => VDict []
                    | Some progress =>
                        VDict [("totalTasks",
                                int_or_zero (TotalNumberOfTasks progress));
                               ("succeeded",
                                int_or_zero (NumberOfTasksSucceeded progress));
                               ("failed",
                                int_or_zero (NumberOfTasksFailed progress))]
                    end).
Proof.
  cbv zeta. split.
  - destruct (get_batch_job_status_run job_id w) as (r & Hr & _).
    rewrite Hr. reflexivity.
  - intros job F J.
    assert (D : describe_job job_id w
                = (Ok job, {| objects := objects w; jobs := jobs w;
                              trace := DescribeJob job_id :: trace w |})).
    { unfold describe_job, bind, request. rewrite F. cbn [jobs].
      rewrite J. reflexivity. }
    unfold get_batch_job_status.
    destruct (ProgressSummary job) as [progress|] eqn:P.
    + eexists. split.
      * erewrite try_catch_ok; [reflexivity|].
        erewrite bind_ok by exact D. cbv zeta. rewrite P. reflexivity.
      * repeat split.
    + eexists. split.
      * erewrite try_catch_ok; [reflexivity|].
        erewrite bind_ok by exact D. cbv zeta. rewrite P. reflexivity.
      * repeat split.
Qed.

(** ** The sweep: how much it does, and for whom *)

Lemma process_entry_outcome (key : string) (results : list value) (w : World) :
  exists results',
    fst (process_entry key results w) = Ok results'
    /\ (results' = results
        \/ exists outcome, results' = (results ++ [outcome])%list).
Proof.
  unfold process_entry. cbv zeta. unfold try_catch, bind, raise, ret.
  destruct (get_object key w) as [[body|e] w1];
    [|eexists; split; [reflexivity|right; eexists; reflexivity]].
  destruct (parse_delete_on rt body) as [e|delete_on];
    [eexists; split; [reflexivity|right; eexists; reflexivity]|].
  destruct (delete_on <=? now rt)%Z;
    [|eexists; split; [reflexivity|left; reflexivity]].
  destruct (delete_user_account _ w1) as [[result|e] w2];
    eexists; (split; [reflexivity|right; eexists; reflexivity]).
Qed.

Lemma sweep_loop_outcomes (keys : list string) :
  forall results w,
  exists results',
    fst (for_each keys process_entry results w) = Ok results'
    /\ length results <= length results' <= length results + length keys.
Proof.
  induction keys as [|key keys IH]; intros results w; cbn [for_each length].
  - exists results. split; [reflexivity|lia].
  - destruct (process_entry_outcome key results w) as (r1 & E1 & H1).
    apply run_fst in E1. erewrite bind_ok by exact E1.
    destruct (IH r1 (snd (process_entry key results w))) as (r2 & E2 & H2).
    exists r2. split; [exact E2|].
    destruct H1 as [->|(outcome & ->)]; [lia|].
    rewrite length_app in H2. cbn [length] in H2. lia.
Qed.

(** X12.  One run of the sweep records at most one outcome per listed
    entry, and it is given at most the first 1000 entries of today's
    bucket: the ['processed'] count never exceeds either number. *)
Theorem sweep_processes_at_most_one_page (w : World) :
  exists result processed,
    fst (process_scheduled_deletions w) = Ok result
    /\ dict_get "processed" result = Some (VInt (Z.of_nat processed))
    /\ processed <= length (todays_entries (objects w))
    /\ length (todays_entries (objects w)) <= 1000.
Proof.
  pose proof (process_scheduled_deletions_run w) as Hrun. cbv zeta in Hrun.
  rewrite Hrun.
  assert (Hpage : length (todays_entries (objects w)) <= 1000).
  { unfold todays_entries. apply firstn_le_length. }
  destruct (list_objects_v2_spec ("scheduled-deletions/" ++ date_key rt ++ "/") w)
    as [_ Hlc].
  destruct (list_objects_v2 _ w) as [[contents|e] w0]; cbn [fst] in Hlc.
  - specialize (Hlc contents eq_refl).
    destruct (negb (has_contents contents)).
    + eexists. exists 0. split; [reflexivity|]. split; [reflexivity|].
      split; [lia|exact Hpage].
    + destruct (sweep_loop_outcomes contents [] w0) as (results & Hr & Hlen).
      destruct (for_each contents process_entry [] w0) as [r w'].
      cbn [fst] in Hr. subst r.
      eexists. exists (length results). split; [reflexivity|].
      split; [reflexivity|]. split; [|exact Hpage].
      cbn [length] in Hlen. fold (todays_entries (objects w)) in Hlc.
      rewrite <- Hlc. lia.
  - eexists. exists 0. split; [reflexivity|]. split; [reflexivity|].
    split; [lia|exact Hpage].
Qed.

(** X13.  When the listing of today's bucket fails, or lists nothing,
    the sweep ends after that one request: it reports 0 processed
    entries, with the text of the failure or with a message, and the
    bucket and the jobs are as before. *)
Theorem sweep_without_entries_changes_nothing (w : World) :
  let listing :=
    ListObjectsV2 ("scheduled-deletions/" ++ date_key rt ++ "/") 0 in
  let w0 := {| objects := objects w; jobs := jobs w;
               trace := listing :: trace w |} in
  (forall e,
      fault prov (length (trace w)) listing = Some e ->
      process_scheduled_deletions w
      = (Ok [("processed", VInt 0); ("error", VStr (exn_str e))], w0))
  /\ (fault prov (length (trace w)) listing = None ->
      todays_entries (objects w) = [] ->
      process_scheduled_deletions w
      = (Ok [("processed", VInt 0);
             ("message", VStr "No scheduled deletions for today")], w0)).
Proof.
  cbv zeta.
  pose proof (process_scheduled_deletions_run w) as Hrun. cbv zeta in Hrun.
  split.
  - intros e F. rewrite Hrun. unfold list_objects_v2, bind, request.
    rewrite F. reflexivity.
  - intros F Hempty. rewrite Hrun. unfold list_objects_v2, bind, request.
    rewrite F. cbn [objects]. unfold todays_entries in Hempty.
    rewrite Hempty. reflexivity.
Qed.

(** *** The user id read off an entry's key *)

Lemma prefix_other_char (a c : ascii) (p s : string) :
  a <> c -> String.prefix (String a p) (String c s) = false.
Proof.
  intros Hne. cbn [String.prefix].
  destruct (ascii_dec a c); [contradiction|reflexivity].
Qed.

Lemma after_last_none (sep : ascii) (s : string) :
  PyStr.has_char sep s = false -> PyStr.after_last sep s = None.
Proof.
  induction s as [|c s IH]; intros H; cbn [PyStr.after_last]; [reflexivity|].
  apply has_char_cons in H as [Hc Hs]. rewrite (IH Hs).
  destruct (Ascii.eqb_spec c sep); [contradiction|reflexivity].
Qed.

Lemma after_last_app (sep : ascii) (p s : string) :
  PyStr.has_char sep s = false ->
  PyStr.after_last sep (p ++ String sep s) = Some s.
Proof.
  intros Hs. induction p as [|c p IH]; cbn [append PyStr.after_last].
  - rewrite (after_last_none _ _ Hs), Ascii.eqb_refl. reflexivity.
  - rewrite IH. reflexivity.
Qed.

Lemma replace_json_suffix (uid : string) :
  PyStr.has_char "." uid = false ->
  forall fuel,
    String.length (uid ++ ".json") <= fuel ->
    PyStr.replace_fuel fuel ".json" "" (uid ++ ".json") = uid.
Proof.
  intros Hdot. induction uid as [|c uid IH]; intros fuel Hfuel.
  - cbn [append] in *. destruct fuel as [|fuel]; [cbn in Hfuel; lia|].
    cbn [PyStr.replace_fuel].
    change (String.prefix ".json" ".json") with true. cbv iota.
    change (PyStr.drop (String.length ".json") ".json") with EmptyString.
    destruct fuel; reflexivity.
  - cbn [append String.length] in *.
    destruct fuel as [|fuel]; [lia|].
    apply has_char_cons in Hdot as [Hc Hdot].
    cbn [PyStr.replace_fuel].
    rewrite prefix_other_char by (intros H; apply Hc; symmetry; exact H).
    f_equal. apply IH; [exact Hdot|lia].
Qed.

(** X14.  For a scheduled-deletion key of the form
    [<folder>/<user id>.json] the sweep recovers exactly the user id,
    provided the id contains neither ['/'] nor ['.']: the last path
    segment is taken and its [.json] removed. *)
Theorem entry_user_id_of_a_well_formed_key (folder user_id : string) :
  PyStr.has_char "/" user_id = false ->
  PyStr.has_char "." user_id = false ->
  entry_user_id (folder ++ "/" ++ user_id ++ ".json") = user_id.
Proof.
  intros Hslash Hdot. unfold entry_user_id, PyStr.last_segment.
  change (folder ++ "/" ++ user_id ++ ".json")
    with (folder ++ String "/" (user_id ++ ".json")).
  rewrite after_last_app.
  - unfold PyStr.replace. apply replace_json_suffix; [exact Hdot|lia].
  - rewrite has_char_app, Hslash. reflexivity.
Qed.

(** ** The clean-up of auxiliary records under any provider *)

Lemma removes_only_idle (matches : string -> bool) (keys : list string)
    (w w' : World) :
  objects w' = objects w -> jobs w' = jobs w ->
  removes_only matches keys w w'.
Proof.
  intros Ho Hj. split; [exact Hj|]. exists [].
  rewrite remove_keys_nil. split; [exact Ho|constructor].
Qed.

Lemma removes_only_app (matches : string -> bool) (keys1 keys2 : list string)
    (w w1 w2 : World) :
  removes_only matches keys1 w w1 ->
  removes_only matches keys2 w1 w2 ->
  removes_only matches (keys1 ++ keys2) w w2.
Proof.
  intros (Hj1 & d1 & Ho1 & Hf1) (Hj2 & d2 & Ho2 & Hf2).
  split; [congruence|]. exists (d1 ++ d2)%list.
  split; [rewrite Ho2, Ho1; apply remove_keys_twice|].
  apply Forall_app. split.
  - eapply Forall_impl; [|exact Hf1]. cbv beta. intros k [Hin Hm].
    split; [apply in_or_app; left; exact Hin|exact Hm].
  - eapply Forall_impl; [|exact Hf2]. cbv beta. intros k [Hin Hm].
    split; [apply in_or_app; right; exact Hin|exact Hm].
Qed.

Lemma removes_only_matches (user_id : string) (objs0 : list (string * string))
    (keys : list string) (w w' : World) :
  removes_only (identity_matches user_id objs0) keys w w' ->
  (forall k, identity_matches user_id (objects w) k = true ->
             identity_matches user_id objs0 k = true) ->
  forall k, identity_matches user_id (objects w') k = true ->
            identity_matches user_id objs0 k = true.
Proof.
  intros (_ & d & Ho & _) Hmono k Hm. apply Hmono.
  rewrite Ho in Hm. eapply identity_matches_removed. exact Hm.
Qed.

Lemma identity_step_safe (user_id key : string) (count : Z) (w : World)
    (objs0 : list (string * string)) :
  (forall k, identity_matches user_id (objects w) k = true ->
             identity_matches user_id objs0 k = true) ->
  exists count' w',
    identity_step user_id key count w = (Ok count', w')
    /\ removes_only (identity_matches user_id objs0) [key] w w'.
Proof.
  intros Hmono. unfold identity_step.
  destruct (String.eqb key "identities/") eqn:Emark.
  { exists count, w. split; [reflexivity|].
    apply removes_only_idle; reflexivity. }
  unfold try_catch, get_object, delete_object, bind, request, update_objects,
    raise, ret. cbv beta.
  destruct (fault prov (length (trace w)) (GetObject key)).
  { eexists. eexists. split; [reflexivity|].
    apply removes_only_idle; reflexivity. }
  cbn [objects jobs trace length].
  destruct (assoc key (objects w)) as [body|] eqn:Ebody.
  2:{ eexists. eexists. split; [reflexivity|].
      apply removes_only_idle; reflexivity. }
  destruct (decode_utf8 body) as [e|text] eqn:Edec.
  { eexists. eexists. split; [reflexivity|].
    apply removes_only_idle; reflexivity. }
  cbv zeta.
  destruct (PyStr.text_eqb (PyStr.strip text) (PyStr.code_points user_id)) eqn:Euser.
  2:{ eexists. eexists. split; [reflexivity|].
      apply removes_only_idle; reflexivity. }
  cbn [objects jobs trace length].
  destruct (fault prov (S (length (trace w))) (DeleteObject key)).
  { eexists. eexists. split; [reflexivity|].
    apply removes_only_idle; reflexivity. }
  eexists. eexists. split; [reflexivity|].
  split; [reflexivity|]. exists [key]. cbn [objects].
  split; [reflexivity|]. constructor; [|constructor].
  split; [left; reflexivity|]. apply Hmono.
  unfold identity_matches, maps_to. rewrite Emark, Ebody, Edec, Euser.
  reflexivity.
Qed.

Lemma identity_keys_safe (user_id : string) (objs0 : list (string * string))
    (keys : list string) :
  forall count w,
    (forall k, identity_matches user_id (objects w) k = true ->
               identity_matches user_id objs0 k = true) ->
    exists count' w',
      for_each keys (identity_step user_id) count w = (Ok count', w')
      /\ removes_only (identity_matches user_id objs0) keys w w'.
Proof.
  induction keys as [|key keys IH]; intros count w Hmono; cbn [for_each].
  - exists count, w. split; [reflexivity|].
    apply removes_only_idle; reflexivity.
  - destruct (identity_step_safe user_id key count w objs0 Hmono)
      as (c1 & w1 & E1 & R1).
    destruct (IH c1 w1 (removes_only_matches _ _ _ _ _ R1 Hmono))
      as (c2 & w2 & E2 & R2).
    exists c2, w2. split; [erewrite bind_ok by exact E1; exact E2|].
    apply (removes_only_app _ [key] keys w w1 w2 R1 R2).
Qed.

Lemma identity_pages_safe (user_id prefix : string)
    (objs0 : list (string * string)) (pages : list (list string)) :
  forall i count w,
    (forall k, identity_matches user_id (objects w) k = true ->
               identity_matches user_id objs0 k = true) ->
    exists r w',
      fetch_pages prefix i pages
        (fun page removed_count =>
           if negb (has_contents page) then ret removed_count
           else for_each page (identity_step user_id) removed_count)
        count w
      = (r, w')
      /\ removes_only (identity_matches user_id objs0) (concat pages) w w'.
Proof.
  induction pages as [|page pages IH]; intros i count w Hmono;
    cbn [fetch_pages concat].
  - eexists. exists w. split; [reflexivity|].
    apply removes_only_idle; reflexivity.
  - unfold bind at 1. unfold request.
    destruct (fault prov (length (trace w)) (ListObjectsV2 prefix i)).
    { eexists. eexists. split; [reflexivity|].
      apply removes_only_idle; reflexivity. }
    set (w0 := {| objects := objects w; jobs := jobs w;
                  trace := ListObjectsV2 prefix i :: trace w |}).
    destruct (identity_keys_safe user_id objs0 page count w0 Hmono)
      as (c1 & w1 & E1 & R1).
    assert (E1' :
      (if negb (has_contents page) then ret count
       else for_each page (identity_step user_id) count) w0 = (Ok c1, w1)).
    { destruct page; exact E1. }
    assert (R1' : removes_only (identity_matches user_id objs0) page w w1).
    { destruct R1 as (Hj & d & Ho & Hf). split; [exact Hj|].
      exists d. split; [exact Ho|exact Hf]. }
    destruct (IH (S i) c1 w1 (removes_only_matches _ _ _ _ _ R1' Hmono))
      as (r & w2 & E2 & R2).
    exists r, w2. split.
    + erewrite bind_ok by exact E1'. exact E2.
    + apply (removes_only_app _ page (concat pages) w w1 w2 R1' R2).
Qed.

Lemma remove_identity_mappings_safe (user_id : string) (w : World) :
  removes_only (identity_matches user_id (objects w))
    (list_keys "identities/" (objects w)) w
    (snd (remove_identity_mappings user_id w)).
Proof.
  destruct (identity_pages_safe user_id "identities/" (objects w)
              (pages_of (list_keys "identities/" (objects w))) 0 0%Z w
              (fun k H => H))
    as (r & w' & E & R).
  rewrite pages_of_concat in R.
  assert (Hsnd : snd (remove_identity_mappings user_id w) = w').
  { unfold remove_identity_mappings. cbv zeta. unfold bind, paginate.
    etransitivity; [|exact (f_equal snd E)].
    match goal with
    | |- snd (let (_, _) := ?m in _) = snd ?m' => change m' with m; destruct m as [[c|e] w1]
    end; reflexivity. }
  rewrite Hsnd. exact R.
Qed.

Lemma removed_keys_spared (matches : string -> bool) (keys : list string)
    (w w' : World) (k : string) :
  removes_only matches keys w w' ->
  matches k = false \/ ~ In k keys ->
  assoc k (objects w') = assoc k (objects w).
Proof.
  intros (_ & d & Ho & Hf) Hk. rewrite Ho.
  apply assoc_remove_keys_out.
  destruct (existsb (String.eqb k) d) eqn:Ex; [|reflexivity].
  apply existsb_exists in Ex as (k' & Hin & Heq).
  apply String.eqb_eq in Heq. subst k'.
  rewrite Forall_forall in Hf. destruct (Hf k Hin) as [Hin' Hm].
  destruct Hk as [Hk|Hk]; [congruence|contradiction].
Qed.

(** X15.  Whatever the provider does, the identity clean-up removes
    only identity records that were listed under [identities/] and
    whose body names the user: every other key of the bucket, the
    records of other users and the directory marker included, keeps its
    value.  When no request fails, every listed record of the user is
    gone afterwards. *)
Theorem identity_cleanup_removes_only_the_users_records
    (user_id : string) (w : World) :
  let w' := snd (remove_identity_mappings user_id w) in
  let listed := list_keys "identities/" (objects w) in
  jobs w' = jobs w
  /\ (exists removed,
        objects w' = remove_keys removed (objects w)
        /\ Forall (fun k => In k listed
                            /\ identity_matches user_id (objects w) k = true)
                  removed)
  /\ (forall k, identity_matches user_id (objects w) k = false \/ ~ In k listed ->
                assoc k (objects w') = assoc k (objects w))
  /\ assoc "identities/" (objects w') = assoc "identities/" (objects w)
  /\ (no_fault ->
      forall k, In k listed ->
                identity_matches user_id (objects w) k = true ->
                assoc k (objects w') = None).
Proof.
  cbv zeta. pose proof (remove_identity_mappings_safe user_id w) as R.
  split; [exact (proj1 R)|]. split; [exact (proj2 R)|].
  split; [intros k Hk; eapply removed_keys_spared; eassumption|].
  split; [eapply removed_keys_spared; [exact R|left; reflexivity]|].
  intros Hnf k Hin Hm.
  destruct (remove_identity_mappings_no_fault user_id w Hnf)
    as (w' & E & _ & d & cs & Ho & _ & Hgone & _).
  rewrite E. cbn [snd].
  destruct (existsb (String.eqb k) d) eqn:Ex.
  - rewrite Ho. apply assoc_remove_keys_in. exact Ex.
  - exfalso. specialize (Hgone k Hin).
    unfold identity_matches in Hgone, Hm.
    rewrite Ho, (assoc_remove_keys_out _ _ _ Ex) in Hgone. congruence.
Qed.

Lemma scheduled_keys_safe (user_id : string) (keys : list string) :
  forall w,
  exists stop w',
    for_each_until keys (scheduled_step user_id) w = (Ok stop, w')
    /\ jobs w' = jobs w
    /\ (if stop
        then exists k, In k keys /\ PyStr.contains user_id k = true
                       /\ objects w' = remove_key k (objects w)
        else objects w' = objects w).
Proof.
  induction keys as [|key keys IH]; intros w; cbn [for_each_until].
  - exists false, w. repeat split.
  - unfold scheduled_step at 1.
    destruct (PyStr.contains user_id key) eqn:Ec.
    + unfold bind at 1. unfold try_catch, delete_object, bind, request,
        update_objects, ret. cbv beta.
      destruct (fault prov (length (trace w)) (DeleteObject key)).
      * set (w0 := {| objects := objects w; jobs := jobs w;
                      trace := DeleteObject key :: trace w |}).
        destruct (IH w0) as (stop & w' & E & Hj & Ho).
        exists stop, w'. split; [exact E|]. split; [exact Hj|].
        destruct stop; [|exact Ho].
        destruct Ho as (k & Hin & Hk & Ho). exists k.
        split; [right; exact Hin|]. split; [exact Hk|exact Ho].
      * eexists. eexists. split; [reflexivity|]. split; [reflexivity|].
        exists key. split; [left; reflexivity|]. split; [exact Ec|reflexivity].
    + unfold bind at 1, ret at 1.
      destruct (IH w) as (stop & w' & E & Hj & Ho).
      exists stop, w'. split; [exact E|]. split; [exact Hj|].
      destruct stop; [|exact Ho].
      destruct Ho as (k & Hin & Hk & Ho). exists k.
      split; [right; exact Hin|]. split; [exact Hk|exact Ho].
Qed.

Lemma scheduled_pages_safe (user_id prefix : string)
    (pages : list (list string)) :
  forall i w,
  exists r w',
    fetch_pages_until prefix i pages
      (fun page =>
         if negb (has_contents page) then ret false
         else for_each_until page (scheduled_step user_id)) w
    = (r, w')
    /\ jobs w' = jobs w
    /\ (objects w' = objects w
        \/ exists k, In k (concat pages) /\ PyStr.contains user_id k = true
                     /\ objects w' = remove_key k (objects w)).
Proof.
  induction pages as [|page pages IH]; intros i w;
    cbn [fetch_pages_until concat].
  - eexists. exists w. split; [reflexivity|]. split; [reflexivity|].
    left; reflexivity.
  - unfold bind at 1. unfold request.
    destruct (fault prov (length (trace w)) (ListObjectsV2 prefix i)).
    { eexists. eexists. split; [reflexivity|]. split; [reflexivity|].
      left; reflexivity. }
    set (w0 := {| objects := objects w; jobs := jobs w;
                  trace := ListObjectsV2 prefix i :: trace w |}).
    destruct (scheduled_keys_safe user_id page w0) as (stop & w1 & E1 & J1 & O1).
    assert (E1' :
      (if negb (has_contents page) then ret false
       else for_each_until page (scheduled_step user_id)) w0 = (Ok stop, w1)).
    { destruct page; exact E1. }
    erewrite bind_ok by exact E1'.
    destruct stop.
    + eexists. exists w1. split; [reflexivity|]. split; [exact J1|].
      right. destruct O1 as (k & Hin & Hk & Ho). exists k.
      split; [apply in_or_app; left; exact Hin|]. split; [exact Hk|exact Ho].
    + destruct (IH (S i) w1) as (r & w2 & E2 & J2 & O2).
      exists r, w2. split; [exact E2|]. split; [rewrite J2, J1; reflexivity|].
      destruct O2 as [O2|(k & Hin & Hk & O2)].
      * left. rewrite O2. exact O1.
      * right. exists k. split; [apply in_or_app; right; exact Hin|].
        split; [exact Hk|]. rewrite O2, O1. reflexivity.
Qed.

Lemma snd_bind_ret {A B : Type} (m : M A) (b : B) (w : World) :
  snd (bind m (fun _ => ret b) w) = snd (m w).
Proof. unfold bind, ret. destruct (m w) as [[a|e] w1]; reflexivity. Qed.

Lemma remove_scheduled_deletion_world (user_id : string) (w w' : World)
    (r : Res bool) :
  fetch_pages_until "scheduled-deletions/" 0
    (pages_of (list_keys "scheduled-deletions/" (objects w)))
    (fun page =>
       if negb (has_contents page) then ret false
       else for_each_until page (scheduled_step user_id)) w
  = (r, w') ->
  snd (remove_scheduled_deletion user_id w) = w'.
Proof.
  intros E. unfold remove_scheduled_deletion. cbv zeta.
  rewrite snd_bind_ret. unfold paginate_until.
  exact (f_equal snd E).
Qed.

(** X16.  Whatever the provider does, [remove_scheduled_deletion]
    removes at most one record from the bucket, and that record is a
    key listed under [scheduled-deletions/] that contains the user id.
    When no request fails it is the first such key in listing order,
    and nothing is removed when there is none. *)
Theorem scheduled_cleanup_removes_at_most_one_entry
    (user_id : string) (w : World) :
  let w' := snd (remove_scheduled_deletion user_id w) in
  jobs w' = jobs w
  /\ (objects w' = objects w
      \/ exists k, In k (list_keys "scheduled-deletions/" (objects w))
                   /\ PyStr.contains user_id k = true
                   /\ objects w' = remove_key k (objects w))
  /\ (no_fault ->
      objects w'
      = match scheduled_entry user_id (objects w) with
        | Some k => remove_key k (objects w)
        | None => objects w
        end).
Proof.
  cbv zeta. split; [|split].
  - destruct (scheduled_pages_safe user_id "scheduled-deletions/"
                (pages_of (list_keys "scheduled-deletions/" (objects w))) 0 w)
      as (r & w' & E & J & _).
    rewrite (remove_scheduled_deletion_world user_id w w' r E). exact J.
  - destruct (scheduled_pages_safe user_id "scheduled-deletions/"
                (pages_of (list_keys "scheduled-deletions/" (objects w))) 0 w)
      as (r & w' & E & _ & O).
    rewrite pages_of_concat in O.
    rewrite (remove_scheduled_deletion_world user_id w w' r E). exact O.
  - intros Hnf.
    destruct (remove_scheduled_deletion_no_fault user_id w Hnf)
      as (w' & cs & E & Ho & _).
    rewrite E. exact Ho.
Qed.

(** ** The workflow: failures of the clean-up, and the scan's inventory *)

Lemma bulk_requests_are_bulk_calls (user_id job_id : string) (inv : inventory) :
  Forall bulk_call (bulk_requests user_id job_id inv).
Proof.
  unfold bulk_requests. repeat constructor.
Qed.

(** X17.  A failure of the clean-up of auxiliary records is fatal only
    for an account without objects: there the exception leaves
    [delete_user_account].  For an account with objects it is swallowed:
    the direct path still returns its result, and whatever the bulk path
    raises is the failure of one of the bulk job's own requests. *)
Theorem cleanup_failure_fails_only_an_empty_account (user_id : string)
    (w : World) (object_count : Z) (objects_by_prefix : inventory) (e : exn) :
  fst (count_and_list_objects user_id w)
  = Ok (object_count, objects_by_prefix) ->
  fst (cleanup_auxiliary_records user_id
         (snd (count_and_list_objects user_id w))) = Raise e ->
  let out := delete_user_account user_id w in
  (object_count = 0%Z -> fst out = Raise e)
  /\ ((0 < object_count <= DELETION_THRESHOLD cfg)%Z ->
      exists deleted_count,
        fst out = Ok (direct_result user_id object_count deleted_count))
  /\ ((0 < object_count)%Z -> (DELETION_THRESHOLD cfg < object_count)%Z ->
      forall e', fst out = Raise e' ->
                 exists n c, bulk_call c /\ fault prov n c = Some e').
Proof.
  intros Hscan Hc. cbv zeta.
  destruct (count_and_list_objects user_id w) as [r w1] eqn:E.
  cbn [fst snd] in Hscan, Hc. subst r.
  rewrite (delete_user_account_after_scan _ _ _ _ _ E).
  split; [|split].
  - intros ->. cbn [Z.eqb].
    unfold cleanup_auxiliary_records in Hc. unfold bind in Hc |- *.
    destruct (remove_identity_mappings user_id w1) as [[[]|e1] w2];
      cbn [fst] in Hc |- *; [|inversion Hc; reflexivity].
    destruct (remove_scheduled_deletion user_id w2) as [[[]|e2] w3];
      cbn [fst] in Hc |- *; [discriminate|inversion Hc; reflexivity].
  - intros [Hpos Hle].
    destruct (Z.eqb_spec object_count 0) as [Hz|_]; [lia|].
    destruct (guarded_cleanup_frame user_id w1) as (w2 & G & _).
    erewrite bind_ok by exact G.
    destruct (Z.leb_spec object_count (DELETION_THRESHOLD cfg)) as [_|Hgt];
      [|lia].
    erewrite bind_ok by apply perform_direct_deletion_store.
    eexists. reflexivity.
  - intros Hpos Hgt e' He'.
    destruct (Z.eqb_spec object_count 0) as [Hz|_]; [lia|].
    destruct (guarded_cleanup_frame user_id w1) as (w2 & G & _).
    erewrite bind_ok in He' by exact G.
    destruct (Z.leb_spec object_count (DELETION_THRESHOLD cfg)) as [Hle|_];
      [lia|].
    destruct (create_batch_operations_job_run user_id objects_by_prefix w2)
      as (issued & w' & Erun & _ & Hpre & _ & _ & _ & Hlast).
    cbv zeta in Erun, Hpre, Hlast.
    unfold bind in He'. rewrite Erun in He'.
    destruct (first_fault _ _) as [e0|] eqn:FF; cbn [fst] in He';
      [|discriminate].
    inversion He'; subst e0.
    destruct (Hlast e' eq_refl) as (c & earlier & Hi & Hf).
    exists (length (trace w2) + length earlier), c. split; [|exact Hf].
    assert (Hin : In c issued).
    { rewrite Hi. apply in_or_app. right. left. reflexivity. }
    rewrite Hpre in Hin. apply in_firstn in Hin.
    pose proof (bulk_requests_are_bulk_calls user_id
                  (job_id_of prov (S (S (length (trace w2)))))
                  objects_by_prefix) as Hall.
    rewrite Forall_forall in Hall. exact (Hall c Hin).
Qed.

Lemma Forall_assoc_set {B : Type} (Q : string * B -> Prop) (k : string) (v : B)
    (d : list (string * B)) :
  Forall Q d -> Q (k, v) -> Forall Q (assoc_set k v d).
Proof.
  intros Hd Hkv. induction d as [|[k' v'] d IH]; cbn [assoc_set].
  - constructor; [exact Hkv|constructor].
  - inversion Hd; subst. destruct (String.eqb k k').
    + constructor; assumption.
    + constructor; [assumption|apply IH; assumption].
Qed.

Lemma scan_fold_entries (objs : list (string * string))
    (Q : string * list string -> Prop) (ps : list string) :
  (forall p, In p ps -> list_keys p objs <> [] -> Q (p, list_keys p objs)) ->
  forall acc,
    Forall Q (snd acc) ->
    Forall Q (snd (fold_left
                     (fun acc p => scan_step p (list_keys p objs) acc) ps acc)).
Proof.
  induction ps as [|p ps IH]; intros HQ acc Hacc; cbn [fold_left];
    [exact Hacc|].
  apply IH; [intros q Hq; apply HQ; right; exact Hq|].
  unfold scan_step. cbn [snd].
  destruct (list_keys p objs) as [|k keys] eqn:Ek; [exact Hacc|].
  apply Forall_assoc_set; [exact Hacc|].
  rewrite <- Ek. apply HQ; [left; reflexivity|]. rewrite Ek. discriminate.
Qed.

(** X18.  The count and the inventory the scan returns agree with each
    other and with the bucket: the count is the number of keys in the
    inventory; every entry of the inventory belongs to one of the
    user's four prefixes, holds exactly the keys listed under that
    prefix, and is not empty; and the count is 0 exactly when the
    inventory has no entry. *)
Theorem scan_inventory_is_consistent (user_id : string) (w : World)
    (object_count : Z) (objects_by_prefix : inventory) :
  fst (count_and_list_objects user_id w)
  = Ok (object_count, objects_by_prefix) ->
  object_count = Z.of_nat (length (inventory_keys objects_by_prefix))
  /\ Forall (fun pk => In (fst pk) (user_prefixes user_id)
                       /\ snd pk = list_keys (fst pk) (objects w)
                       /\ snd pk <> [])
            objects_by_prefix
  /\ (object_count = 0%Z <-> objects_by_prefix = []).
Proof.
  intros Hscan.
  destruct (count_and_list_objects user_id w) as [r w1] eqn:E.
  cbn [fst] in Hscan. subst r.
  pose proof (count_and_list_objects_spec _ _ _ _ E) as (_ & _ & _ & Hr).
  assert (Hc : object_count = fst (scan_result user_id (objects w)))
    by (rewrite <- Hr; reflexivity).
  assert (Hi : objects_by_prefix = snd (scan_result user_id (objects w)))
    by (rewrite <- Hr; reflexivity).
  assert (Hcount : object_count
                   = Z.of_nat (length (inventory_keys objects_by_prefix))).
  { rewrite Hc, Hi. apply scan_result_count. }
  split; [exact Hcount|]. split.
  - rewrite Hi. unfold scan_result. apply scan_fold_entries; [|constructor].
    intros p Hp Hne. cbn [fst snd]. auto.
  - split.
    + intros Hz. rewrite Hi. apply scan_result_empty. rewrite <- Hc. exact Hz.
    + intros ->. rewrite Hcount. reflexivity.
Qed.

Lemma create_batch_operations_job_keeps_jobs (user_id : string)
    (inv : inventory) (w : World) :
  exists e,
    fst (create_batch_operations_job user_id inv w) = Raise e
    /\ jobs (snd (create_batch_operations_job user_id inv w)) = jobs w
    /\ exists n c, bulk_call c /\ fault prov n c = Some e.
Proof.
  unfold create_batch_operations_job, put_object, head_object, create_job,
    bind, request, update_objects, ret.
  cbv beta zeta.
  destruct (fault prov (length (trace w)) (PutObject _ _)) as [e1|] eqn:F1.
  { exists e1. split; [reflexivity|]. split; [reflexivity|].
    eexists. eexists. split; [|exact F1]. reflexivity. }
  cbn [trace objects jobs length].
  destruct (fault prov (S (length (trace w))) (HeadObject _)) as [e2|] eqn:F2.
  { exists e2. split; [reflexivity|]. split; [reflexivity|].
    eexists. eexists. split; [|exact F2]. reflexivity. }
  cbn [trace objects jobs length]. rewrite assoc_store_put_same.
  cbv beta iota. cbn [trace objects jobs length].
  rewrite bulk_job_refused.
  eexists. split; [reflexivity|]. split; [reflexivity|].
  exists 0. eexists. split; [|apply bulk_job_refused]. exact I.
Qed.

Lemma guarded_cleanup_keeps_jobs (user_id : string) (w : World) :
  jobs (snd (try_catch
               (_ <- remove_identity_mappings user_id ;;
                remove_scheduled_deletion user_id)
               (fun e => ret tt) w)) = jobs w.
Proof.
  pose proof (remove_identity_mappings_safe user_id w) as (J1 & _).
  unfold try_catch, bind.
  destruct (remove_identity_mappings user_id w) as [[[]|e1] w1];
    cbn [snd] in J1; [|exact J1].
  destruct (scheduled_pages_safe user_id "scheduled-deletions/"
              (pages_of (list_keys "scheduled-deletions/" (objects w1))) 0 w1)
    as (r & w2 & E & J2 & _).
  pose proof (remove_scheduled_deletion_world user_id w1 w2 r E) as Hw.
  destruct (remove_scheduled_deletion user_id w1) as [[[]|e2] w3];
    unfold ret; cbn [snd] in Hw |- *; subst w3; rewrite J2; exact J1.
Qed.

(** X10.  The bulk path never creates a job.  [create_job] is called
    for the operation ['S3DeleteObject'], which the interface of the
    service does not define, so the client refuses the request: for
    every account above the threshold [delete_user_account] raises,
    with the exception of one of the bulk path's own requests, and no
    job is registered.  When the manifest is uploaded and its ETag read
    back, the refused [create_job] is the third and last request, the
    exception is the client's refusal, and the manifest stays in the
    bucket. *)
Theorem bulk_path_never_creates_a_job (user_id : string) (w : World)
    (object_count : Z) (objects_by_prefix : inventory) :
  fst (count_and_list_objects user_id w)
  = Ok (object_count, objects_by_prefix) ->
  (0 < object_count)%Z ->
  (DELETION_THRESHOLD cfg < object_count)%Z ->
  let w1 := snd (count_and_list_objects user_id w) in
  let w2 := snd (try_catch
                   (_ <- remove_identity_mappings user_id ;;
                    remove_scheduled_deletion user_id)
                   (fun e => ret tt) w1) in
  let out := delete_user_account user_id w in
  let manifest := create_deletion_manifest objects_by_prefix in
  let manifest_key := manifest_key_of user_id in
  (exists e, fst out = Raise e
             /\ exists n c, bulk_call c /\ fault prov n c = Some e)
  /\ jobs (snd out) = jobs w
  /\ (fault prov (length (trace w2)) (PutObject manifest_key manifest) = None ->
      fault prov (S (length (trace w2))) (HeadObject manifest_key) = None ->
      exists req,
        Operation req = "S3DeleteObject"
        /\ existsb (String.eqb (Operation req)) JOB_OPERATIONS = false
        /\ fst out = Raise (rejection prov req)
        /\ new_calls w2 (snd out)
           = [PutObject manifest_key manifest;
              HeadObject manifest_key;
              CreateJob req]
        /\ assoc manifest_key (objects (snd out)) = Some manifest).
Proof.
  intros Hscan Hpos Hgt. cbv zeta.
  destruct (count_and_list_objects user_id w) as [r w1] eqn:E.
  cbn [fst snd] in Hscan |- *. subst r.
  pose proof (count_and_list_objects_spec _ _ _ _ E) as (_ & Hj1 & _).
  rewrite (delete_user_account_after_scan _ _ _ _ _ E).
  destruct (Z.eqb_spec object_count 0) as [Hz|_]; [lia|].
  pose proof (guarded_cleanup_keeps_jobs user_id w1) as Hj2.
  destruct (guarded_cleanup_frame user_id w1) as (w2 & G & _).
  rewrite G in Hj2 |- *. cbn [snd] in Hj2 |- *.
  erewrite bind_ok by exact G.
  destruct (Z.leb_spec object_count (DELETION_THRESHOLD cfg)) as [Hle|_];
    [lia|].
  destruct (create_batch_operations_job_keeps_jobs user_id objects_by_prefix w2)
    as (e & He & Hj3 & Hfault).
  split; [|split].
  - exists e. split; [|exact Hfault].
    erewrite bind_raise by (apply run_fst; exact He). reflexivity.
  - erewrite bind_raise by (apply run_fst; exact He). cbn [snd].
    rewrite Hj3, Hj2. exact Hj1.
  - intros F1 F2.
    erewrite bind_raise
      by (apply (create_batch_operations_job_stops _ _ _ F1 F2)).
    cbn [fst snd objects].
    eexists. split; [|split; [|split; [reflexivity|split]]].
    + reflexivity.
    + reflexivity.
    + apply new_calls_app. reflexivity.
    + apply assoc_store_put_same.
Qed.

End Handler.

(** * Examples on concrete buckets *)

(** C10, witnessed in production: the event is refused with status 403
    and the bucket is left as it was. *)
Lemma immediate_refused_in_production :
  handler Scenario.production Scenario.reliable Scenario.runtime
    (Scenario.immediate "u1") Scenario.small_account
  = (Ok (response Scenario.runtime 403
           [("error", VStr "Immediate deletion only allowed in development")]),
     Scenario.small_account).
Proof.
  apply (proj1 (immediate_refused_outside_development
                  Scenario.production Scenario.reliable Scenario.runtime
                  (Scenario.immediate "u1") Scenario.small_account eq_refl)).
  vm_compute. discriminate.
Defined.

(** C5, refuted as stated: two photos of [u1] are counted, then the
    listing of the thumbnails fails; the scan raises that failure and
    no count comes back, for the photos or otherwise. *)
Lemma scan_returns_no_partial_counts :
  list_keys "photos/u1/" (objects Scenario.small_account)
  = ["photos/u1/a.jpg"; "photos/u1/b.jpg"]
  /\ fst (count_and_list_objects
            (Scenario.failing (Scenario.is_listing_of "thumbnails/u1/")
               Scenario.boom)
            "u1" Scenario.small_account)
     = Raise Scenario.boom
  /\ forall n inv,
       fst (count_and_list_objects
              (Scenario.failing (Scenario.is_listing_of "thumbnails/u1/")
                 Scenario.boom)
              "u1" Scenario.small_account)
       <> Ok (n, inv).
Proof.
  split; [vm_compute; reflexivity|].
  split; [vm_compute; reflexivity|].
  intros n inv. vm_compute. discriminate.
Qed.




(** C4, refuted as stated.  Of 1500 photos the second batch (500 keys)
    fails as a whole.  With a threshold that admits the direct path the
    result reports 1000 deleted and is ['completed'], but it has no
    ['failedKeys'] entry: the 500 keys are not reported.  With the
    default threshold of 1000 the same account does not take the direct
    path at all: no delete request is sent. *)
Lemma failed_keys_are_not_reported :
  fst (delete_user_account (Scenario.with_threshold 2000)
         (Scenario.failing Scenario.is_short_batch Scenario.boom)
         Scenario.runtime "u1" (Scenario.bucket (Scenario.photos 1500)))
  = Ok (direct_result "u1" 1500 1000)
  /\ length (batch_failed
               (Scenario.failing Scenario.is_short_batch Scenario.boom) 7
               (skipn 1000 (map fst (Scenario.photos 1500))))
     = 500
  /\ ~ (exists failed,
           dict_get "failedKeys" (direct_result "u1" 1500 1000)
           = Some (VList failed))
  /\ existsb Scenario.is_batch_delete
       (trace (snd (delete_user_account Scenario.development Scenario.reliable
                      Scenario.runtime "u1"
                      (Scenario.bucket (Scenario.photos 1500)))))
     = false.
Proof.
  split; [vm_compute; reflexivity|].
  split; [vm_compute; reflexivity|].
  split; [intros [failed H]; vm_compute in H; discriminate|].
  vm_compute. reflexivity.
Qed.

(** C4 (amended), witnessed on the same account: 1000 of the 1500 keys
    are reported deleted. *)
Lemma direct_deletion_of_1500_with_failed_batch :
  fst (delete_user_account (Scenario.with_threshold 2000)
         (Scenario.failing Scenario.is_short_batch Scenario.boom)
         Scenario.runtime "u1" (Scenario.bucket (Scenario.photos 1500)))
  = Ok (direct_result "u1" 1500 1000).
Proof.
  assert (Hscan :
    fst (count_and_list_objects
           (Scenario.failing Scenario.is_short_batch Scenario.boom) "u1"
           (Scenario.bucket (Scenario.photos 1500)))
    = Ok (1500%Z, snd (scan_result "u1" (Scenario.photos 1500)))).
  { vm_compute. reflexivity. }
  destruct (direct_deletion_reports_only_the_count
              (Scenario.with_threshold 2000)
              (Scenario.failing Scenario.is_short_batch Scenario.boom)
              Scenario.runtime "u1" _ _ _ Hscan ltac:(cbn; lia))
    as (_ & Hres & _ & _ & _ & Hcount).
  rewrite Hres.
  rewrite (Hcount "photos/u1/" (map fst (Scenario.photos 1500)));
    [reflexivity|vm_compute; reflexivity ..].
Defined.






(** C7, refuted as stated.  Entry [00] is not yet due and entry [01] is
    due.  The sweep skips [00] and runs the workflow for [01], whose
    clean-up removes the first scheduled-deletion record whose key
    contains [01]: that is the record of [00], through the date in its
    key.  After the sweep the not-yet-due entry is gone, and the entry
    that was due is still stored. *)
Lemma sweep_removes_an_entry_not_yet_due :
  let out :=
    process_scheduled_deletions Scenario.development Scenario.reliable
      Scenario.runtime Scenario.numeric_ids in
  parse_delete_on Scenario.runtime "later" = inr 1100%Z
  /\ now Scenario.runtime = 1000%Z
  /\ assoc "scheduled-deletions/2025-01-01/00.json"
       (objects Scenario.numeric_ids) = Some "later"
  /\ dict_get "processed" (Scenario.returned out) = Some (VInt 1)
  /\ assoc "scheduled-deletions/2025-01-01/00.json" (objects (snd out)) = None
  /\ assoc "scheduled-deletions/2025-01-01/01.json" (objects (snd out))
     = Some "due".
Proof.
  vm_compute. repeat split.
Qed.

(** C7 (amended) on the sweep scenario: [u1] is due and [u2] is not; one
    entry is processed and the entry of [u2] is still stored. *)
Lemma sweep_of_two_entries :
  let out :=
    process_scheduled_deletions Scenario.development Scenario.reliable
      Scenario.runtime Scenario.two_entries in
  dict_get "processed" (Scenario.returned out) = Some (VInt 1)
  /\ assoc "scheduled-deletions/2025-01-01/u2.json" (objects (snd out))
     = Some "later"
  /\ assoc "scheduled-deletions/2025-01-01/u1.json" (objects (snd out)) = None.
Proof.
  cbv zeta. split; [vm_compute; reflexivity|]. split; [|vm_compute; reflexivity].
  destruct (sweep_handles_due_entries_only Scenario.development
              Scenario.reliable Scenario.runtime Scenario.two_entries)
    as (_ & _ & _ & Hkeep).
  apply (Hkeep "scheduled-deletions/2025-01-01/u2.json" "later" 1100%Z).
  - reflexivity.
  - reflexivity.
  - reflexivity.
  - reflexivity.
  - intros key Hin Hne.
    change (todays_entries Scenario.runtime (objects Scenario.two_entries))
      with ["scheduled-deletions/2025-01-01/u1.json";
            "scheduled-deletions/2025-01-01/u2.json"] in Hin.
    destruct Hin as [<-|[<-|[]]]; [reflexivity|contradiction].
Defined.

(** C9 at an input where the code fails: the service does not know the
    job.  The status query does not return ['NotFound']; it raises. *)
Lemma job_status_of_an_unknown_job :
  fst (get_batch_job_status Scenario.reliable "job-404" Scenario.small_account)
  = Raise (no_exception_class Scenario.reliable "NoSuchJob").
Proof.
  apply (proj1 (proj2 (job_status_raises_when_the_lookup_fails
                         Scenario.reliable "job-404" Scenario.small_account)));
    reflexivity.
Defined.


(** * Further examples *)

(** X4 on a small account: the first listing of the scan fails, the
    event is answered with status 500 and the bucket is untouched. *)
Lemma immediate_deletion_with_failed_scan :
  fst (handler Scenario.development
         (Scenario.failing (Scenario.is_listing_of "photos/u1/") Scenario.boom)
         Scenario.runtime (Scenario.immediate "u1") Scenario.small_account)
  = Ok (response Scenario.runtime 500
          [("error", VStr (exn_str Scenario.boom))])
  /\ objects
       (snd (handler Scenario.development
               (Scenario.failing (Scenario.is_listing_of "photos/u1/")
                  Scenario.boom)
               Scenario.runtime (Scenario.immediate "u1")
               Scenario.small_account))
     = objects Scenario.small_account.
Proof.
  apply (proj2 (immediate_deletion_wraps_the_workflow
                  Scenario.development
                  (Scenario.failing (Scenario.is_listing_of "photos/u1/")
                     Scenario.boom)
                  Scenario.runtime (Scenario.immediate "u1")
                  Scenario.small_account eq_refl eq_refl eq_refl)
               Scenario.boom).
  vm_compute. reflexivity.
Defined.

(** X5: deleting [u9] leaves the photo of [u7] where it is. *)
Lemma deleting_u9_keeps_the_photo_of_u7 :
  assoc "photos/u7/x.jpg"
    (objects (snd (delete_user_account Scenario.development Scenario.reliable
                     Scenario.runtime "u9" Scenario.leftover_records)))
  = assoc "photos/u7/x.jpg" (objects Scenario.leftover_records).
Proof.
  apply (account_deletion_keeps_other_accounts
           Scenario.development Scenario.reliable Scenario.runtime
           "u9" "u7").
  - reflexivity.
  - reflexivity.
  - discriminate.
  - exists "photos/u7/". split; [left; reflexivity|reflexivity].
Defined.

(** X6 on a small account: its three objects are deleted directly and
    nothing of [u1] is left. *)
Lemma direct_deletion_of_small_account :
  fst (delete_user_account Scenario.development Scenario.reliable
         Scenario.runtime "u1" Scenario.small_account)
  = Ok (direct_result "u1" 3 3)
  /\ forall k,
       in_user_namespace "u1" k ->
       assoc k
         (objects (snd (delete_user_account Scenario.development
                          Scenario.reliable Scenario.runtime "u1"
                          Scenario.small_account)))
       = None.
Proof.
  apply (direct_path_empties_the_namespaces
           Scenario.development Scenario.reliable Scenario.runtime
           "u1" Scenario.small_account 3
           (snd (scan_result "u1" (objects Scenario.small_account)))).
  - vm_compute. reflexivity.
  - cbn. lia.
  - intros n keys. reflexivity.
  - intros n k. reflexivity.
Defined.

(** X8 with the threshold lowered to 2: after the bulk job has been
    created for [u1], the photo is still in the bucket. *)
Lemma bulk_job_leaves_the_photo_in_place :
  assoc "photos/u1/a.jpg"
    (objects (snd (delete_user_account (Scenario.with_threshold 2)
                     Scenario.reliable Scenario.runtime "u1"
                     Scenario.small_account)))
  = assoc "photos/u1/a.jpg" (objects Scenario.small_account).
Proof.
  apply (bulk_path_deletes_no_user_object
           (Scenario.with_threshold 2) Scenario.reliable Scenario.runtime
           "u1" "u1" "photos/u1/a.jpg" Scenario.small_account 3
           (snd (scan_result "u1" (objects Scenario.small_account)))).
  - vm_compute. reflexivity.
  - lia.
  - cbn. lia.
  - exists "photos/u1/". split; [left; reflexivity|reflexivity].
Defined.

(** X10 on the same account: the third request is the refused
    [create_job], and the manifest is left in the bucket. *)
Lemma bulk_job_of_small_account_is_refused :
  exists req,
    Operation req = "S3DeleteObject"
    /\ existsb (String.eqb (Operation req)) JOB_OPERATIONS = false
    /\ fst (delete_user_account (Scenario.with_threshold 2) Scenario.reliable
              Scenario.runtime "u1" Scenario.small_account)
       = Raise (rejection Scenario.reliable req)
    /\ new_calls
         (snd (try_catch
                 (_ <- remove_identity_mappings Scenario.reliable
                         Scenario.runtime "u1" ;;
                  remove_scheduled_deletion Scenario.reliable "u1")
                 (fun e => ret tt)
                 (snd (count_and_list_objects Scenario.reliable "u1"
                         Scenario.small_account))))
         (snd (delete_user_account (Scenario.with_threshold 2)
                 Scenario.reliable Scenario.runtime "u1"
                 Scenario.small_account))
       = [PutObject (manifest_key_of Scenario.runtime "u1")
            (create_deletion_manifest (Scenario.with_threshold 2)
               (snd (scan_result "u1" (objects Scenario.small_account))));
          HeadObject (manifest_key_of Scenario.runtime "u1");
          CreateJob req]
    /\ assoc (manifest_key_of Scenario.runtime "u1")
         (objects (snd (delete_user_account (Scenario.with_threshold 2)
                          Scenario.reliable Scenario.runtime "u1"
                          Scenario.small_account)))
       = Some (create_deletion_manifest (Scenario.with_threshold 2)
                 (snd (scan_result "u1" (objects Scenario.small_account)))).
Proof.
  apply (proj2 (proj2 (bulk_path_never_creates_a_job
                         (Scenario.with_threshold 2) Scenario.reliable
                         Scenario.runtime "u1" Scenario.small_account 3
                         (snd (scan_result "u1"
                                 (objects Scenario.small_account)))
                         eq_refl ltac:(lia) ltac:(cbn; lia))));
    reflexivity.
Defined.

(** X14 on the entry of [u9]. *)
Lemma entry_user_id_of_u9 :
  entry_user_id ("scheduled-deletions/2025-01-01" ++ "/" ++ "u9" ++ ".json")
  = "u9".
Proof.
  apply (entry_user_id_of_a_well_formed_key
           "scheduled-deletions/2025-01-01" "u9"); reflexivity.
Defined.

(** X17: [u9] has no object left; when the listing of the identity
    records fails, the deletion of [u9] raises that failure. *)
Lemma empty_account_with_failed_cleanup :
  fst (delete_user_account Scenario.development
         (Scenario.failing (Scenario.is_listing_of "identities/") Scenario.boom)
         Scenario.runtime "u9" Scenario.leftover_records)
  = Raise Scenario.boom.
Proof.
  apply (proj1 (cleanup_failure_fails_only_an_empty_account
                  Scenario.development
                  (Scenario.failing (Scenario.is_listing_of "identities/")
                     Scenario.boom)
                  Scenario.runtime "u9" Scenario.leftover_records 0 []
                  Scenario.boom eq_refl eq_refl)).
  reflexivity.
Defined.

(** X18 on a small account: three objects, under two prefixes. *)
Lemma scan_of_small_account :
  3%Z
  = Z.of_nat
      (length (inventory_keys
                 [("photos/u1/", ["photos/u1/a.jpg"; "photos/u1/b.jpg"]);
                  ("thumbnails/u1/", ["thumbnails/u1/a.jpg"])])).
Proof.
  apply (proj1 (scan_inventory_is_consistent Scenario.reliable "u1"
                  Scenario.small_account 3
                  [("photos/u1/", ["photos/u1/a.jpg"; "photos/u1/b.jpg"]);
                   ("thumbnails/u1/", ["thumbnails/u1/a.jpg"])]
                  eq_refl)).
Defined.
